(** * A FastCGI responder: record codec, body decoders, connection loop

    Shallow embedding of [fastcgi-server.go] (the variant with unsigned
    header fields and the [Args] configuration). The record reader and
    the BeginRequest decoder of the earlier copy in the same file, with
    signed header fields, are embedded in module [Signed].

    Conventions of the embedding.
    - A Go [byte] is a [Byte.byte]; [uint8], [uint16], [int32] and [int]
      values are integers of [Z] and every conversion or arithmetic step
      that can wrap in Go is wrapped here ([uint8], [uint16], [int32],
      [int]); [int] is 64 bits wide.
    - A [[]byte] is a [list byte] whose capacity equals its length (true of
      every slice the program indexes or re-slices: all of them come from
      [make] with a length only, or from [append] into an exactly sized
      buffer).
    - A run-time panic (index or slice bounds out of range) is the outcome
      [Panic]; nothing in the program recovers from one.
    - Go functions returning [error] return [option error]; functions
      returning [(T, error)] return [res T].
    - The connection, the console and the transport are one explicit
      [world] threaded through the monad [M].
    - Loops whose termination depends on run-time data carry a fuel
      argument; the top-level functions supply enough of it and the
      development proves that. *)

From Stdlib Require Import ZArith List Lia Strings.Byte String Ascii Bool.
From stdpp Require Import gmap list.
Import ListNotations.
Local Open Scope Z_scope.

(** ** Machine integers and bytes *)

Definition uint8 (z : Z) : Z := z mod 2 ^ 8.
Definition uint16 (z : Z) : Z := z mod 2 ^ 16.
Definition int32 (z : Z) : Z := (z + 2 ^ 31) mod 2 ^ 32 - 2 ^ 31.
Definition int (z : Z) : Z := (z + 2 ^ 63) mod 2 ^ 64 - 2 ^ 63.

(** [b2z b] is the numeric value of a byte, [z2b z] the conversion
    [byte(z)], which keeps the low eight bits. *)
Definition b2z (b : byte) : Z := Z.of_N (Byte.to_N b).

Definition z2b (z : Z) : byte :=
  match Byte.of_N (Z.to_N (uint8 z)) with
  | Some b => b
  | None => x00
  end.

Definition len {A : Type} (s : list A) : Z := Z.of_nat (length s).

(** ** Outcomes: normal completion, panic, or exhausted fuel *)

Inductive panic : Type :=
| IndexOutOfRange (i : Z) (n : Z)
| SliceOutOfRange (lo hi : Z) (cap : Z)
| MakeLenOutOfRange (n : Z).

Inductive outcome (A : Type) : Type :=
| Done (a : A)
| Panic (p : panic)
| OutOfFuel.

Arguments Done {A} a.
Arguments Panic {A} p.
Arguments OutOfFuel {A}.

Definition bindO {A B : Type} (m : outcome A) (k : A -> outcome B) : outcome B :=
  match m with
  | Done a => k a
  | Panic p => Panic p
  | OutOfFuel => OutOfFuel
  end.

(** [s[i]] *)
Definition index (s : list byte) (i : Z) : outcome byte :=
  if (i <? 0) || (len s <=? i) then Panic (IndexOutOfRange i (len s))
  else match s !! Z.to_nat i with
       | Some b => Done b
       | None => Panic (IndexOutOfRange i (len s))
       end.

(** [s[lo:hi]], for a slice whose capacity is its length *)
Definition slice (s : list byte) (lo hi : Z) : outcome (list byte) :=
  if (0 <=? lo) && (lo <=? hi) && (hi <=? len s)
  then Done (take (Z.to_nat (hi - lo)) (drop (Z.to_nat lo) s))
  else Panic (SliceOutOfRange lo hi (len s)).

(** [make([]byte, n)] *)
Definition make (n : Z) : outcome (list byte) :=
  if n <? 0 then Panic (MakeLenOutOfRange n)
  else Done (replicate (Z.to_nat n) x00).

(** [make([]byte, n, cap)] *)
Definition make_cap (n cap : Z) : outcome (list byte) :=
  if (n <? 0) || (cap <? n) then Panic (MakeLenOutOfRange cap)
  else Done (replicate (Z.to_nat n) x00).

(** [copy(dst, src)]: the new contents of [dst] and the number of bytes
    copied *)
Definition copy (dst src : list byte) : list byte * Z :=
  let n := Nat.min (length dst) (length src) in
  (take n src ++ drop n dst, Z.of_nat n).

(** ** Errors

    The program builds its errors with [fmt.Errorf]; each format string is
    a constructor here, with the formatted operands as arguments. *)

Inductive error : Type :=
| EOF
| ErrTransport
| ErrShortRead (n wanted : Z)
| ErrShortWrite (n wanted : Z)
| ErrReadingHeader (e : error)
| ErrUnexpectedVersion (b : byte)
| ErrUnknownRecordType (b : byte)
| ErrReservedNotZero (b : byte)
| ErrReadingContent (e : error)
| ErrReadingPadding (e : error)
| ErrUnknownRole (b0 b1 : byte)
| ErrShortCopyName (n wanted : Z)
| ErrShortCopyValue (n wanted : Z)
| ErrSendingStream (e : error)
| ErrWritingEndRequest (e : error)
| ErrWritingAll (e : error)
| ErrWritingStdoutRecord (e : error)
| ErrWritingStdoutEnd (e : error)
| ErrBodySize
| ErrMaxContentSize.

Inductive res (A : Type) : Type :=
| Ok (a : A)
| Err (e : error).

Arguments Ok {A} a.
Arguments Err {A} e.

(** ** Records, record types and roles *)

Record FCGIRecord : Type := mkRecord {
  Version : Z;
  RType : Z;
  RequestID : Z;
  ContentLength : Z;
  PaddingLength : Z;
  Reserved : Z;
  ContentData : list byte;
  PaddingData : list byte
}.

Definition FCGIBeginRequest : Z := 1.
Definition FCGIAbortRequest : Z := 2.
Definition FCGIEndRequest : Z := 3.
Definition FCGIParams : Z := 4.
Definition FCGIStdin : Z := 5.
Definition FCGIStdout : Z := 6.
Definition FCGIStderr : Z := 7.
Definition FCGIData : Z := 8.
Definition FCGIGetValues : Z := 9.
Definition FCGIGetValuesResult : Z := 10.
Definition FCGIUnknownType : Z := 11.

Definition getRecordType (t : Z) : Z :=
  match t with
  | 1 => FCGIBeginRequest
  | 2 => FCGIAbortRequest
  | 3 => FCGIEndRequest
  | 4 => FCGIParams
  | 5 => FCGIStdin
  | 6 => FCGIStdout
  | 7 => FCGIStderr
  | 8 => FCGIData
  | 9 => FCGIGetValues
  | 10 => FCGIGetValuesResult
  | _ => FCGIUnknownType
  end.

Record BeginRequest : Type := mkBeginRequest {
  Role : Z;
  Flags : Z
}.

Definition FCGIResponder : Z := 1.
Definition FCGIAuthorizer : Z := 2.
Definition FCGIFilter : Z := 3.
Definition FCGIUnknownRole : Z := 4.

Definition getRole (r : Z) : Z :=
  match r with
  | 1 => FCGIResponder
  | 2 => FCGIAuthorizer
  | 3 => FCGIFilter
  | _ => FCGIUnknownRole
  end.

(** A record built by a composite literal that names only [Type],
    [RequestID] and [ContentData]; the other fields have their zero
    value. *)
Definition literal (t id : Z) (content : list byte) : FCGIRecord :=
  {| Version := 0; RType := t; RequestID := id; ContentLength := 0;
     PaddingLength := 0; Reserved := 0; ContentData := content;
     PaddingData := [] |}.

(** ** Command line arguments *)

Record Args : Type := mkArgs {
  BodySize : Z;
  WriteEachRecord : bool;
  MaxContentSize : Z
}.

(** [getArgs], from the three parsed flag values on *)
Definition getArgs (bodySize : Z) (writeEachRecord : bool) (maxContentSize : Z)
  : res Args :=
  if bodySize <=? 0 then Err ErrBodySize
  else if (maxContentSize <=? 0) || (maxContentSize >? 65535)
       then Err ErrMaxContentSize
       else Ok {| BodySize := bodySize; WriteEachRecord := writeEachRecord;
                  MaxContentSize := maxContentSize |}.

(** ** The world: connection, transport and console *)

Inductive logmsg : Type :=
| LogNewConnection
| LogReadingRecord (e : error)
| LogManagementRecord
| LogApplicationRecord (id : Z)
| LogReadingBeginRequest (e : error)
| LogUnexpectedRole (role : Z)
| LogBeginRequestResponder
| LogReadingParams (e : error)
| LogReceivedParams
| LogReadingStdin (e : error)
| LogReceivedStdin
| LogSendingResponse (e : error)
| LogSentResponse
| LogToldToClose
| LogKeepingOpen
| LogUnhandledRecordType (t : Z) (r : FCGIRecord)
| LogCloseError (e : error)
| LogConnectionClosed
| LogNameValue (name value : list byte)
| LogStdinLength (n : Z)
| LogContentDataSize (n : Z)
| LogWriting (n : Z)
| LogWrote (n : Z).

(** - [conn_in]: the bytes the peer sends, cut into the segments in which
      the transport delivers them; one [Read] never crosses a segment.
    - [conn_out]: the bytes handed to the transport, one entry per [Write]
      call, oldest first.
    - [conn_room]: how many more bytes the peer accepts before the
      transport reports an error; [None] is no limit.
    - [conn_close_err]: what [Close] will answer.
    - [console]: what was printed to standard output and standard error,
      oldest first. *)
Record world : Type := mkWorld {
  conn_in : list (list byte);
  conn_out : list (list byte);
  conn_room : option nat;
  conn_close_err : option error;
  conn_closed : bool;
  console : list logmsg
}.

Definition set_in (w : world) (i : list (list byte)) : world :=
  {| conn_in := i; conn_out := conn_out w; conn_room := conn_room w;
     conn_close_err := conn_close_err w; conn_closed := conn_closed w;
     console := console w |}.

Definition set_out (w : world) (o : list (list byte)) (room : option nat) : world :=
  {| conn_in := conn_in w; conn_out := o; conn_room := room;
     conn_close_err := conn_close_err w; conn_closed := conn_closed w;
     console := console w |}.

Definition set_closed (w : world) : world :=
  {| conn_in := conn_in w; conn_out := conn_out w; conn_room := conn_room w;
     conn_close_err := conn_close_err w; conn_closed := true;
     console := console w |}.

Definition add_log (w : world) (m : logmsg) : world :=
  {| conn_in := conn_in w; conn_out := conn_out w; conn_room := conn_room w;
     conn_close_err := conn_close_err w; conn_closed := conn_closed w;
     console := console w ++ [m] |}.

Definition M (A : Type) : Type := world -> outcome A * world.

Definition ret {A : Type} (a : A) : M A := fun w => (Done a, w).

Definition bind {A B : Type} (m : M A) (k : A -> M B) : M B :=
  fun w =>
    match m w with
    | (Done a, w') => k a w'
    | (Panic p, w') => (Panic p, w')
    | (OutOfFuel, w') => (OutOfFuel, w')
    end.

Definition lift {A : Type} (o : outcome A) : M A := fun w => (o, w).

Definition out_of_fuel {A : Type} : M A := fun w => (OutOfFuel, w).

Definition log (m : logmsg) : M unit := fun w => (Done tt, add_log w m).

Declare Scope go_scope.
Delimit Scope go_scope with go.
Notation "x <- m ;; k" := (bind m (fun x => k))
  (at level 20, m at level 99, k at level 200, only parsing) : go_scope.
Notation "' pat <- m ;; k" := (bind m (fun x => match x with pat => k end))
  (at level 20, pat pattern, m at level 99, k at level 200, only parsing)
  : go_scope.
Notation "m ;; k" := (bind m (fun _ => k))
  (at level 100, k at level 200, only parsing, right associativity) : go_scope.
Local Open Scope go_scope.

(** ** The transport *)

(** [conn.Read(data)] with [n = len(data)]: the bytes stored at the front
    of [data] and the error. A read into an empty buffer returns at once;
    otherwise the next segment is delivered, as much of it as fits, and
    an exhausted queue is the end of the stream. *)
(** What is left of a segment goes back to the front of the queue, unless
    nothing is left of it. *)
Definition push (seg : list byte) (rest : list (list byte)) : list (list byte) :=
  match seg with
  | [] => rest
  | _ :: _ => seg :: rest
  end.

Definition Read (n : nat) : M (list byte * option error) :=
  fun w =>
    match n with
    | O => (Done ([], None), w)
    | S _ =>
      match conn_in w with
      | [] => (Done ([], Some EOF), w)
      | seg :: rest =>
        (Done (take n seg, None), set_in w (push (drop n seg) rest))
      end
    end.

(** [conn.Write(buf)]: the number of bytes written and the error. *)
Definition Write (buf : list byte) : M (Z * option error) :=
  fun w =>
    match conn_room w with
    | None => (Done (len buf, None), set_out w (conn_out w ++ [buf]) None)
    | Some room =>
      if (length buf <=? room)%nat
      then (Done (len buf, None),
            set_out w (conn_out w ++ [buf]) (Some (room - length buf)%nat))
      else (Done (Z.of_nat room, Some ErrTransport),
            set_out w (conn_out w ++ [take room buf]) (Some O))
    end.

(** [conn.Close()] *)
Definition Close : M (option error) :=
  fun w => (Done (conn_close_err w), set_closed w).

Notation "x <~ m ;; k" := (bindO m (fun x => k))
  (at level 20, m at level 99, k at level 200, only parsing) : go_scope.

(** ** Reading records *)

(** [readFull(reader, data)]: one [Read] into [data]; the contents of
    [data] afterwards and the error. *)
Definition readFull (data : list byte) : M (list byte * option error) :=
  '(got, err) <- Read (length data) ;;
  let n := len got in
  let data := got ++ drop (length got) data in
  match err with
  | Some e => ret (data, Some e)
  | None =>
    if negb (n =? len data) then ret (data, Some (ErrShortRead n (len data)))
    else ret (data, None)
  end.

Definition readRecord : M (res FCGIRecord) :=
  let fixedLength := 8 in
  header <- lift (make fixedLength) ;;
  '(header, err) <- readFull header ;;
  match err with
  | Some e => ret (Err (ErrReadingHeader e))
  | None =>
    let idx := 0 in
    h0 <- lift (index header idx) ;;
    let version := uint8 (b2z h0) in
    if negb (version =? 1) then ret (Err (ErrUnexpectedVersion h0))
    else
      let idx := idx + 1 in
      h1 <- lift (index header idx) ;;
      let recordType := getRecordType (uint8 (b2z h1)) in
      if recordType =? FCGIUnknownType then ret (Err (ErrUnknownRecordType h1))
      else
        let idx := idx + 1 in
        h2 <- lift (index header idx) ;;
        h3 <- lift (index header (idx + 1)) ;;
        let requestID :=
          Z.lor (uint16 (uint16 (Z.shiftl (uint16 (b2z h2)) 8)))
                (uint16 (b2z h3)) in
        let idx := idx + 2 in
        h4 <- lift (index header idx) ;;
        h5 <- lift (index header (idx + 1)) ;;
        let contentLength :=
          Z.lor (uint16 (uint16 (Z.shiftl (uint16 (b2z h4)) 8)))
                (uint16 (b2z h5)) in
        let idx := idx + 2 in
        h6 <- lift (index header idx) ;;
        let paddingLength := uint8 (b2z h6) in
        let idx := idx + 1 in
        h7 <- lift (index header idx) ;;
        let reserved := uint8 (b2z h7) in
        if negb (reserved =? 0) then ret (Err (ErrReservedNotZero h7))
        else
          content <- lift (make contentLength) ;;
          '(content, err) <- readFull content ;;
          match err with
          | Some e => ret (Err (ErrReadingContent e))
          | None =>
            padding <- lift (make paddingLength) ;;
            '(padding, err) <- readFull padding ;;
            match err with
            | Some e => ret (Err (ErrReadingPadding e))
            | None =>
              ret (Ok {| Version := version;
                         RType := recordType;
                         RequestID := requestID;
                         ContentLength := contentLength;
                         PaddingLength := paddingLength;
                         Reserved := reserved;
                         ContentData := content;
                         PaddingData := padding |})
            end
          end
  end.

(** ** Body decoders *)

Definition parseBeginRequest (record : FCGIRecord) : outcome (res BeginRequest) :=
  let idx := 0 in
  c0 <~ index (ContentData record) idx ;;
  c1 <~ index (ContentData record) (idx + 1) ;;
  let rawRole :=
    uint16 (Z.lor (uint16 (Z.shiftl (uint16 (b2z c0)) 8)) (uint16 (b2z c1))) in
  let role := getRole rawRole in
  if role =? FCGIUnknownRole then Done (Err (ErrUnknownRole c0 c1))
  else
    let idx := idx + 2 in
    c2 <~ index (ContentData record) idx ;;
    let flags := uint8 (b2z c2) in
    Done (Ok {| Role := role; Flags := flags |}).

Definition readLength (record : FCGIRecord) (idx : Z) : outcome (Z * Z) :=
  c0 <~ index (ContentData record) idx ;;
  if Z.shiftr (b2z c0) 7 =? 0 then Done (int32 (b2z c0), int (idx + 1))
  else
    let b0 := int32 (Z.shiftl (int32 (Z.land (b2z c0) 127)) 24) in
    c1 <~ index (ContentData record) (int (idx + 1)) ;;
    let b1 := int32 (Z.shiftl (int32 (b2z c1)) 16) in
    c2 <~ index (ContentData record) (int (idx + 2)) ;;
    let b2 := int32 (Z.shiftl (int32 (b2z c2)) 8) in
    c3 <~ index (ContentData record) (int (idx + 3)) ;;
    let b3 := int32 (b2z c3) in
    Done (int32 (int32 (int32 (b0 + b1) + b2) + b3), int (idx + 4)).

(** One turn of the [for] loop of [parseParams] per unit of fuel. *)
Fixpoint parseParams_loop (fuel : nat) (record : FCGIRecord) (idx : Z)
  : M (option error) :=
  match fuel with
  | O => out_of_fuel
  | S fuel' =>
    if idx <? len (ContentData record) then
      '(nameLength, newIdx) <- lift (readLength record idx) ;;
      let idx := newIdx in
      '(valueLength, newIdx) <- lift (readLength record idx) ;;
      let idx := newIdx in
      name <- lift (make nameLength) ;;
      src <- lift (slice (ContentData record) idx (int (idx + nameLength))) ;;
      let '(name, n) := copy name src in
      if negb (n =? nameLength)
      then ret (Some (ErrShortCopyName n nameLength))
      else
        let idx := int (idx + nameLength) in
        value <- lift (make valueLength) ;;
        src <- lift (slice (ContentData record) idx (int (idx + valueLength))) ;;
        let '(value, n) := copy value src in
        if negb (n =? valueLength)
        then ret (Some (ErrShortCopyValue n valueLength))
        else
          let idx := int (idx + valueLength) in
          log (LogNameValue name value) ;;
          parseParams_loop fuel' record idx
    else ret None
  end.

(** Every turn of the loop advances [idx] by two or more, so one more turn
    than there are content bytes is never needed. *)
Definition parseParams (record : FCGIRecord) : M (option error) :=
  parseParams_loop (S (length (ContentData record))) record 0.

Definition parseStdin (record : FCGIRecord) : M (option error) :=
  log (LogStdinLength (ContentLength record)) ;;
  ret None.

(** ** Writing records *)

Definition serialize (r : FCGIRecord) : list byte :=
  let headerSz := 8 in
  let buf := replicate (Z.to_nat headerSz) x00 in
  let idx := 0%nat in
  let buf := <[idx := z2b 1]> buf in
  let idx := S idx in
  let buf := <[idx := z2b (RType r)]> buf in
  let idx := S idx in
  let buf := <[idx := z2b (Z.shiftr (RequestID r) 8)]> buf in
  let buf := <[S idx := z2b (RequestID r)]> buf in
  let idx := (idx + 2)%nat in
  let contentLength := len (ContentData r) in
  let buf := <[idx := z2b (Z.shiftr contentLength 8)]> buf in
  let buf := <[S idx := z2b contentLength]> buf in
  let idx := (idx + 2)%nat in
  let buf := <[idx := z2b 0]> buf in
  let buf := <[S idx := z2b 0]> buf in
  buf ++ ContentData r.

Definition writeAll (buf : list byte) : M (option error) :=
  log (LogWriting (len buf)) ;;
  '(n, err) <- Write buf ;;
  match err with
  | Some e => ret (Some e)
  | None =>
    if negb (n =? len buf) then ret (Some (ErrShortWrite n (len buf)))
    else
      log (LogWrote (len buf)) ;;
      ret None
  end.

(** The [for] loop of [sendStream], one turn per unit of fuel: [Ok buf]
    when the loop ends, [Err] when a turn returns early. *)
Fixpoint sendStream_loop (fuel : nat) (requestID : Z) (payload : list byte)
    (writeEachRecord : bool) (maxContentSize : Z) (i : Z) (buf : list byte)
  : M (res (list byte)) :=
  match fuel with
  | O => out_of_fuel
  | S fuel' =>
    if i <? len payload then
      let end_ := int (i + maxContentSize) in
      let end_ := if end_ >? len payload then len payload else end_ in
      chunk <- lift (slice payload i end_) ;;
      let rec := literal FCGIStdout requestID chunk in
      log (LogContentDataSize (len chunk)) ;;
      let buf := buf ++ serialize rec in
      err <- (if writeEachRecord then writeAll (serialize rec) else ret None) ;;
      match err with
      | Some e => ret (Err (ErrWritingStdoutRecord e))
      | None =>
        sendStream_loop fuel' requestID payload writeEachRecord maxContentSize
                        (int (i + maxContentSize)) buf
      end
    else ret (Ok buf)
  end.

(** With a positive [maxContentSize] the loop takes at most one turn per
    payload byte; the fuel is one more than that. *)
Definition sendStream (requestID : Z) (payload : list byte)
    (writeEachRecord : bool) (maxContentSize : Z) : M (res (list byte)) :=
  let buf := [] in
  r <- sendStream_loop (S (length payload)) requestID payload writeEachRecord
                       maxContentSize 0 buf ;;
  match r with
  | Err e => ret (Err e)
  | Ok buf =>
    let rec := literal FCGIStdout requestID [] in
    let buf := buf ++ serialize rec in
    err <- (if writeEachRecord then writeAll (serialize rec) else ret None) ;;
    match err with
    | Some e => ret (Err (ErrWritingStdoutEnd e))
    | None => ret (Ok buf)
    end
  end.

Definition crlf : list byte := [x0d; x0a].

Definition headers : list byte :=
  list_byte_of_string "Content-Type: text/plain" ++ crlf ++
  list_byte_of_string "Connection: close" ++ crlf ++ crlf.

Definition sendResponse (requestID : Z) (bodySize : Z) (writeEachRecord : bool)
    (maxContentSize : Z) : M (option error) :=
  body <- lift (make bodySize) ;;
  let body := (fun _ => "a"%byte) <$> body in
  payload <- lift (make_cap 0 (int (len body + len headers))) ;;
  let payload := payload ++ headers in
  let payload := payload ++ body in
  r <- sendStream requestID payload writeEachRecord maxContentSize ;;
  match r with
  | Err e => ret (Some (ErrSendingStream e))
  | Ok buf =>
    endRecordBuf <- lift (make 8) ;;
    let endRec := literal FCGIEndRequest requestID endRecordBuf in
    let buf := buf ++ serialize endRec in
    err <- (if writeEachRecord then writeAll (serialize endRec) else ret None) ;;
    match err with
    | Some e => ret (Some (ErrWritingEndRequest e))
    | None =>
      err <- (if negb writeEachRecord then writeAll buf else ret None) ;;
      match err with
      | Some e => ret (Some (ErrWritingAll e))
      | None => ret None
      end
    end
  end.

(** ** The connection handler *)

(** How one turn of the [for] loop of [handleConnection] ends: [continue]
    with the (possibly updated) table, or [break]. *)
Inductive flow : Type :=
| Continue (closeAfterRequest : gmap Z bool)
| Break.

(** The body of the loop from the point where a record has been read. *)
Definition handleRecord (args : Args) (closeAfterRequest : gmap Z bool)
    (record : FCGIRecord) : M flow :=
  (if RequestID record =? 0 then log LogManagementRecord
   else log (LogApplicationRecord (RequestID record))) ;;
  if RType record =? FCGIBeginRequest then
    r <- lift (parseBeginRequest record) ;;
    match r with
    | Err e => log (LogReadingBeginRequest e) ;; ret Break
    | Ok beginRequest =>
      if negb (Role beginRequest =? FCGIResponder) then
        log (LogUnexpectedRole (Role beginRequest)) ;; ret Break
      else
        log LogBeginRequestResponder ;;
        ret (Continue (<[RequestID record := (Z.land (Flags beginRequest) 1 =? 1)]>
                         closeAfterRequest))
    end
  else if RType record =? FCGIParams then
    err <- parseParams record ;;
    match err with
    | Some e => log (LogReadingParams e) ;; ret Break
    | None => log LogReceivedParams ;; ret (Continue closeAfterRequest)
    end
  else if RType record =? FCGIStdin then
    err <- parseStdin record ;;
    match err with
    | Some e => log (LogReadingStdin e) ;; ret Break
    | None =>
      log LogReceivedStdin ;;
      err <- sendResponse (RequestID record) (BodySize args)
                          (WriteEachRecord args) (MaxContentSize args) ;;
      match err with
      | Some e => log (LogSendingResponse e) ;; ret Break
      | None =>
        log LogSentResponse ;;
        if default false (closeAfterRequest !! RequestID record) then
          log LogToldToClose ;; ret Break
        else
          log LogKeepingOpen ;;
          ret (Continue (delete (RequestID record) closeAfterRequest))
      end
    end
  else
    log (LogUnhandledRecordType (RType record) record) ;; ret Break.

(** One whole turn of the loop: read a record, then act on it. *)
Definition loopBody (args : Args) (closeAfterRequest : gmap Z bool) : M flow :=
  r <- readRecord ;;
  match r with
  | Err e => log (LogReadingRecord e) ;; ret Break
  | Ok record => handleRecord args closeAfterRequest record
  end.

Fixpoint handleConnection_loop (fuel : nat) (args : Args)
    (closeAfterRequest : gmap Z bool) : M unit :=
  match fuel with
  | O => out_of_fuel
  | S fuel' =>
    f <- loopBody args closeAfterRequest ;;
    match f with
    | Break => ret tt
    | Continue closeAfterRequest' =>
      handleConnection_loop fuel' args closeAfterRequest'
    end
  end.

(** The number of bytes the peer has still to deliver. *)
Definition pending (w : world) : nat := length (concat (conn_in w)).

(** A turn that does not break has read a record, eight bytes or more, so
    one turn more than there are pending bytes is never needed. *)
Definition handleConnection (args : Args) : M unit :=
  log LogNewConnection ;;
  let closeAfterRequest : gmap Z bool := ∅ in
  (fun w => handleConnection_loop (S (pending w)) args closeAfterRequest w) ;;
  err <- Close ;;
  match err with
  | Some e => log (LogCloseError e)
  | None => log LogConnectionClosed
  end.

(** ** Starting points *)

(** A connection on which nothing has happened yet: [input] is what the
    peer will send, [room] how much it will accept. *)
Definition connection (input : list (list byte)) (room : option nat) : world :=
  {| conn_in := input; conn_out := []; conn_room := room;
     conn_close_err := None; conn_closed := false; console := [] |}.

(** The arguments [getArgs] returns when no flag is given. *)
Definition defaultArgs : Args :=
  {| BodySize := 1024; WriteEachRecord := true; MaxContentSize := 65535 |}.

(** ** Relating worlds *)

(** Only the console differs between [w] and [w']. *)
Definition quiet (w w' : world) : Prop :=
  conn_in w' = conn_in w /\ conn_out w' = conn_out w /\
  conn_room w' = conn_room w /\ conn_close_err w' = conn_close_err w /\
  conn_closed w' = conn_closed w.

(** ** Records on the wire *)

(** What [readRecord] can return: the fields fit their types, the type is
    a known one, and the two lengths are those of the data. *)
Definition decoded (r : FCGIRecord) : Prop :=
  Version r = 1 /\ 1 <= RType r <= 10 /\ 0 <= RequestID r < 65536 /\
  ContentLength r = len (ContentData r) /\ ContentLength r < 65536 /\
  PaddingLength r = len (PaddingData r) /\ PaddingLength r < 256 /\
  Reserved r = 0.

(** The eight header bytes of a record, fields in wire order, and the
    whole record as the peer sends it: header, content, padding. *)
Definition wire_header (r : FCGIRecord) : list byte :=
  [z2b (Version r); z2b (RType r);
   z2b (Z.shiftr (RequestID r) 8); z2b (RequestID r);
   z2b (Z.shiftr (ContentLength r) 8); z2b (ContentLength r);
   z2b (PaddingLength r); z2b (Reserved r)].

Definition wire (r : FCGIRecord) : list byte :=
  wire_header r ++ ContentData r ++ PaddingData r.

(** The record that decoding [serialize (literal t id c)] should give. *)
Definition received (t id : Z) (c : list byte) : FCGIRecord :=
  {| Version := 1; RType := t; RequestID := id; ContentLength := len c;
     PaddingLength := 0; Reserved := 0; ContentData := c; PaddingData := [] |}.

(** ** What a response consists of *)

(** [payload] cut into consecutive pieces of [n] bytes, the last one
    possibly shorter; [fuel] bounds the number of pieces. *)
Fixpoint chunks_aux (fuel n : nat) (payload : list byte) : list (list byte) :=
  match fuel with
  | O => []
  | S fuel' =>
    match payload with
    | [] => []
    | _ :: _ => take n payload :: chunks_aux fuel' n (drop n payload)
    end
  end.

Definition chunks (n : nat) (payload : list byte) : list (list byte) :=
  chunks_aux (length payload) n payload.

(** The payload of a response: the fixed header block, then the body. *)
Definition payloadOf (bodySize : Z) : list byte :=
  headers ++ replicate (Z.to_nat bodySize) "a"%byte.

(** The records of one stream: a Stdout record per piece of the payload,
    then the empty Stdout record that ends the stream. *)
Definition streamRecords (requestID maxContentSize : Z) (payload : list byte)
  : list FCGIRecord :=
  map (literal FCGIStdout requestID) (chunks (Z.to_nat maxContentSize) payload)
  ++ [literal FCGIStdout requestID []].

(** The records of one response: the stream, then EndRequest with a body of
    eight zero bytes. *)
Definition responseRecords (requestID bodySize maxContentSize : Z)
  : list FCGIRecord :=
  streamRecords requestID maxContentSize (payloadOf bodySize)
  ++ [literal FCGIEndRequest requestID (replicate 8 x00)].

Definition responseBytes (requestID bodySize maxContentSize : Z) : list byte :=
  concat (map serialize (responseRecords requestID bodySize maxContentSize)).

(** The turns of the loop of [sendStream], by recursion on the pieces that
    are still to be sent. *)
Fixpoint emit (writeEachRecord : bool) (requestID : Z) (cs : list (list byte))
    (buf : list byte) : M (res (list byte)) :=
  match cs with
  | [] => ret (Ok buf)
  | chunk :: cs' =>
    let rec := literal FCGIStdout requestID chunk in
    log (LogContentDataSize (len chunk)) ;;
    let buf := buf ++ serialize rec in
    err <- (if writeEachRecord then writeAll (serialize rec) else ret None) ;;
    match err with
    | Some e => ret (Err (ErrWritingStdoutRecord e))
    | None => emit writeEachRecord requestID cs' buf
    end
  end.

(** ** What reaches the peer *)

(** Room left after [n] more bytes were offered, the part of [bytes] that a
    peer with [room] takes, and whether [n] bytes fit. *)
Definition dec (room : option nat) (n : nat) : option nat :=
  match room with
  | None => None
  | Some k => Some (k - n)%nat
  end.

Definition sent (room : option nat) (bytes : list byte) : list byte :=
  match room with
  | None => bytes
  | Some k => take k bytes
  end.

Definition fits (room : option nat) (n : nat) : Prop :=
  match room with
  | None => True
  | Some k => (n <= k)%nat
  end.

(** From [w] to [w'] the program offered [bytes] to the transport, in one
    or several writes, and did nothing else to the connection. *)
Definition wrote (w w' : world) (bytes : list byte) : Prop :=
  conn_in w' = conn_in w /\ conn_close_err w' = conn_close_err w /\
  conn_closed w' = conn_closed w /\
  concat (conn_out w') = concat (conn_out w) ++ sent (conn_room w) bytes /\
  conn_room w' = dec (conn_room w) (length bytes).

(** ** Traces of the connection handler *)

(** Arguments with which a response can be sent: what [getArgs] checks,
    and sizes for which no [int] wraps. *)
Definition sendable (args : Args) : Prop :=
  0 <= BodySize args /\ 1 <= MaxContentSize args /\
  BodySize args + MaxContentSize args < 2 ^ 62.

(** The line printed for every record, before the record is looked at. *)
Definition greeting (record : FCGIRecord) : logmsg :=
  if RequestID record =? 0 then LogManagementRecord
  else LogApplicationRecord (RequestID record).

(** What the transport has been given for one response, per setting of
    [WriteEachRecord]. *)
Definition responseWrites (args : Args) (requestID : Z) : list (list byte) :=
  let sers := map serialize
                  (responseRecords requestID (BodySize args) (MaxContentSize args)) in
  if WriteEachRecord args then sers else [concat sers].

(** One turn of the loop that reads [record] and continues: from table [t]
    and world [w] to table [t'] and world [w']. *)
Definition turn (args : Args) (t : gmap Z bool) (w : world) (record : FCGIRecord)
    (t' : gmap Z bool) (w' : world) : Prop :=
  exists w0, readRecord w = (Done (Ok record), w0) /\
             handleRecord args t record w0 = (Done (Continue t'), w').

(** A run of such turns, with the records read, in order. *)
Inductive reads (args : Args)
  : gmap Z bool -> world -> list FCGIRecord -> gmap Z bool -> world -> Prop :=
| reads_nil (t : gmap Z bool) (w : world) : reads args t w [] t w
| reads_cons (t : gmap Z bool) (w : world) (record : FCGIRecord)
    (t1 : gmap Z bool) (w1 : world) (records : list FCGIRecord)
    (t2 : gmap Z bool) (w2 : world) :
    turn args t w record t1 w1 ->
    reads args t1 w1 records t2 w2 ->
    reads args t w (record :: records) t2 w2.

(** Small arguments and sample records for concrete runs. *)
Definition smallArgs (writeEachRecord : bool) : Args :=
  {| BodySize := 1; WriteEachRecord := writeEachRecord; MaxContentSize := 65535 |}.

(** A BeginRequest record for the Responder role with the given flags
    byte, and a Stdin record without content. *)
Definition beginRecord (requestID : Z) (flags : byte) : FCGIRecord :=
  received FCGIBeginRequest requestID [x00; x01; flags; x00; x00; x00; x00; x00].

Definition stdinRecord (requestID : Z) : FCGIRecord :=
  received FCGIStdin requestID [].

(** ** Proof automation *)

(** Powers of two that bound the machine integers, as numerals. *)
Ltac pow2 :=
  change (2 ^ 8) with 256 in *;
  change (2 ^ 16) with 65536 in *;
  change (2 ^ 24) with 16777216 in *;
  change (2 ^ 31) with 2147483648 in *;
  change (2 ^ 32) with 4294967296 in *;
  change (2 ^ 62) with 4611686018427387904 in *;
  change (2 ^ 63) with 9223372036854775808 in *;
  change (2 ^ 64) with 18446744073709551616 in *.


(** ** Name-value pairs on the wire *)

(** The program only decodes name-value pairs. These are the encodings
    its decoder is written for (one byte for a length below 128, else four
    bytes, big-endian, with the top bit set), used to state what
    [readLength] and [parseParams] decode. *)
Definition encodeLength (n : Z) : list byte :=
  if n <? 128 then [z2b n]
  else [z2b (Z.shiftr n 24 + 128); z2b (Z.shiftr n 16); z2b (Z.shiftr n 8); z2b n].

Definition encodePair (p : list byte * list byte) : list byte :=
  encodeLength (len (fst p)) ++ encodeLength (len (snd p)) ++ fst p ++ snd p.

Definition encodeParams (ps : list (list byte * list byte)) : list byte :=
  concat (map encodePair ps).

(** ** Reading a sequence of records *)

(** [n] records read one after the other with [readRecord], as the peer of
    this server does with a response; the first error ends the reading. *)
Fixpoint readRecords (n : nat) : M (res (list FCGIRecord)) :=
  match n with
  | O => ret (Ok [])
  | S n' =>
    r <- readRecord ;;
    match r with
    | Err e => ret (Err e)
    | Ok record =>
      rs <- readRecords n' ;;
      match rs with
      | Err e => ret (Err e)
      | Ok records => ret (Ok (record :: records))
      end
    end
  end.

(** ** The request table and the output along a run *)

(** The table after a turn on which the loop continues: a BeginRequest
    record puts bit 0 of its flags byte under its request id, a Stdin
    record removes its request id, any other record leaves the table. *)
Definition track (t : gmap Z bool) (record : FCGIRecord) : gmap Z bool :=
  if RType record =? FCGIBeginRequest then
    match ContentData record !! 2%nat with
    | Some flags => <[RequestID record := Z.testbit (b2z flags) 0]> t
    | None => t
    end
  else if RType record =? FCGIStdin then delete (RequestID record) t
  else t.

(** The writes of one response for every Stdin record, in order. *)
Definition served (args : Args) (records : list FCGIRecord) : list (list byte) :=
  concat (map (fun r => if RType r =? FCGIStdin
                        then responseWrites args (RequestID r) else [])
              records).

(** ** The revision with signed header fields

    [fastcgi-server.go] holds a second, earlier copy of the program, in
    which the header fields of [Record], the record type, the role and
    the flags are of the types [int8] and [int16]. Its [readFull],
    [getRecordType], [getRole] and [serialize] read as the ones above,
    whose embeddings serve for both copies; its [readRecord] and its
    [parseBeginRequest] differ by their conversions and are embedded
    here. *)
Module Signed.

Definition int8 (z : Z) : Z := (z + 2 ^ 7) mod 2 ^ 8 - 2 ^ 7.
Definition int16 (z : Z) : Z := (z + 2 ^ 15) mod 2 ^ 16 - 2 ^ 15.

Definition readRecord : M (res FCGIRecord) :=
  let fixedLength := 8 in
  header <- lift (make fixedLength) ;;
  '(header, err) <- readFull header ;;
  match err with
  | Some e => ret (Err (ErrReadingHeader e))
  | None =>
    let idx := 0 in
    h0 <- lift (index header idx) ;;
    let version := int8 (b2z h0) in
    if negb (version =? 1) then ret (Err (ErrUnexpectedVersion h0))
    else
      let idx := idx + 1 in
      h1 <- lift (index header idx) ;;
      let recordType := getRecordType (int8 (b2z h1)) in
      if recordType =? FCGIUnknownType then ret (Err (ErrUnknownRecordType h1))
      else
        let idx := idx + 1 in
        h2 <- lift (index header idx) ;;
        h3 <- lift (index header (idx + 1)) ;;
        let requestID :=
          Z.lor (int16 (int16 (Z.shiftl (int16 (b2z h2)) 8)))
                (int16 (b2z h3)) in
        let idx := idx + 2 in
        h4 <- lift (index header idx) ;;
        h5 <- lift (index header (idx + 1)) ;;
        let contentLength :=
          Z.lor (int16 (int16 (Z.shiftl (int16 (b2z h4)) 8)))
                (int16 (b2z h5)) in
        let idx := idx + 2 in
        h6 <- lift (index header idx) ;;
        let paddingLength := int8 (b2z h6) in
        let idx := idx + 1 in
        h7 <- lift (index header idx) ;;
        let reserved := int8 (b2z h7) in
        if negb (reserved =? 0) then ret (Err (ErrReservedNotZero h7))
        else
          content <- lift (make contentLength) ;;
          '(content, err) <- readFull content ;;
          match err with
          | Some e => ret (Err (ErrReadingContent e))
          | None =>
            padding <- lift (make paddingLength) ;;
            '(padding, err) <- readFull padding ;;
            match err with
            | Some e => ret (Err (ErrReadingPadding e))
            | None =>
              ret (Ok {| Version := version;
                         RType := recordType;
                         RequestID := requestID;
                         ContentLength := contentLength;
                         PaddingLength := paddingLength;
                         Reserved := reserved;
                         ContentData := content;
                         PaddingData := padding |})
            end
          end
  end.

Definition parseBeginRequest (record : FCGIRecord) : outcome (res BeginRequest) :=
  let idx := 0 in
  c0 <~ index (ContentData record) idx ;;
  c1 <~ index (ContentData record) (idx + 1) ;;
  let rawRole :=
    int16 (Z.lor (int16 (Z.shiftl (int16 (b2z c0)) 8)) (int16 (b2z c1))) in
  let role := getRole rawRole in
  if role =? FCGIUnknownRole then Done (Err (ErrUnknownRole c0 c1))
  else
    let idx := idx + 2 in
    c2 <~ index (ContentData record) idx ;;
    let flags := int8 (b2z c2) in
    Done (Ok {| Role := role; Flags := flags |}).

End Signed.

(** A record as the signed revision holds it: the request id read as an
    [int16]. *)
Definition signedID (r : FCGIRecord) : FCGIRecord :=
  {| Version := Version r; RType := RType r;
     RequestID := Signed.int16 (RequestID r);
     ContentLength := ContentLength r; PaddingLength := PaddingLength r;
     Reserved := Reserved r; ContentData := ContentData r;
     PaddingData := PaddingData r |}.

(** What both copies of [readRecord] do once the header has passed its
    checks: read the content, read the padding, build the record. *)
Definition readBody (version recordType requestID contentLength paddingLength
                     reserved : Z) : M (res FCGIRecord) :=
  content <- lift (make contentLength) ;;
  '(content, err) <- readFull content ;;
  match err with
  | Some e => ret (Err (ErrReadingContent e))
  | None =>
    padding <- lift (make paddingLength) ;;
    '(padding, err) <- readFull padding ;;
    match err with
    | Some e => ret (Err (ErrReadingPadding e))
    | None =>
      ret (Ok {| Version := version;
                 RType := recordType;
                 RequestID := requestID;
                 ContentLength := contentLength;
                 PaddingLength := paddingLength;
                 Reserved := reserved;
                 ContentData := content;
                 PaddingData := padding |})
    end
  end.

(** * Properties *)

(** ** Bytes and machine integers *)

Lemma b2z_range (b : byte) : 0 <= b2z b < 256.
Proof.
  unfold b2z. pose proof (Byte.to_N_bounded b). lia.
Qed.

Lemma z2b_b2z (b : byte) : z2b (b2z b) = b.
Proof.
  unfold z2b, uint8. pose proof (b2z_range b) as Hb.
  rewrite Z.mod_small by (change (2 ^ 8) with 256; lia).
  unfold b2z. rewrite N2Z.id, Byte.of_to_N. reflexivity.
Qed.

Lemma b2z_z2b (z : Z) : b2z (z2b z) = z mod 256.
Proof.
  unfold z2b, uint8. change (2 ^ 8) with 256.
  pose proof (Z.mod_pos_bound z 256 ltac:(lia)) as Hm.
  destruct (Byte.of_N (Z.to_N (z mod 256))) as [b|] eqn:Hof.
  - apply Byte.to_of_N in Hof. unfold b2z. rewrite Hof. lia.
  - apply Byte.of_N_None_iff in Hof. lia.
Qed.

Lemma uint8_small (z : Z) : 0 <= z < 256 -> uint8 z = z.
Proof. intros H. unfold uint8. apply Z.mod_small. pow2. lia. Qed.

Lemma uint16_small (z : Z) : 0 <= z < 65536 -> uint16 z = z.
Proof. intros H. unfold uint16. apply Z.mod_small. pow2. lia. Qed.

Lemma int32_small (z : Z) : - 2 ^ 31 <= z < 2 ^ 31 -> int32 z = z.
Proof. intros H. unfold int32. pow2. rewrite Z.mod_small; lia. Qed.

Lemma int_small (z : Z) : - 2 ^ 63 <= z < 2 ^ 63 -> int z = z.
Proof. intros H. unfold int. pow2. rewrite Z.mod_small; lia. Qed.

Lemma uint8_b2z (b : byte) : uint8 (b2z b) = b2z b.
Proof. apply uint8_small, b2z_range. Qed.

Lemma uint16_b2z (b : byte) : uint16 (b2z b) = b2z b.
Proof. apply uint16_small. pose proof (b2z_range b). lia. Qed.

Lemma len_nonneg {A : Type} (s : list A) : 0 <= len s.
Proof. unfold len. lia. Qed.

Lemma len_app {A : Type} (s t : list A) : len (s ++ t) = len s + len t.
Proof. unfold len. rewrite length_app. lia. Qed.

(** A multiple of [2 ^ k] and a value below [2 ^ k] share no bit, so [|]
    adds them. *)
Lemma lor_disjoint (a b k : Z) :
  0 <= k -> 0 <= b < 2 ^ k -> Z.lor (a * 2 ^ k) b = a * 2 ^ k + b.
Proof.
  intros Hk Hb.
  assert (Hland : Z.land (a * 2 ^ k) b = 0).
  { apply Z.bits_inj'. intros n Hn. rewrite Z.land_spec, Z.bits_0.
    destruct (Z.lt_ge_cases n k) as [Hlt|Hge].
    - rewrite Z.mul_pow2_bits_low by lia. reflexivity.
    - replace (Z.testbit b n) with false; [apply andb_false_r|].
      symmetry. destruct (Z.eq_dec b 0) as [->|Hne]; [apply Z.bits_0|].
      apply Z.bits_above_log2; [lia|].
      apply Z.lt_le_trans with k; [|lia].
      apply Z.log2_lt_pow2; lia. }
  rewrite <- Z.lxor_lor by exact Hland.
  symmetry. apply Z.add_nocarry_lxor. exact Hland.
Qed.

(** A big-endian pair of bytes is a 16-bit value, and the shift and the
    [|] of the program put it together without loss. *)
Lemma be16 (hi lo : byte) :
  Z.lor (uint16 (Z.shiftl (uint16 (b2z hi)) 8)) (uint16 (b2z lo))
  = b2z hi * 256 + b2z lo.
Proof.
  rewrite !uint16_b2z.
  pose proof (b2z_range hi) as Hh. pose proof (b2z_range lo) as Hl.
  rewrite Z.shiftl_mul_pow2 by lia.
  rewrite (uint16_small (b2z hi * 2 ^ 8)) by (pow2; lia).
  rewrite lor_disjoint by (pow2; lia). reflexivity.
Qed.

Lemma be16_range (hi lo : byte) : 0 <= b2z hi * 256 + b2z lo < 65536.
Proof. pose proof (b2z_range hi). pose proof (b2z_range lo). lia. Qed.

Lemma uint16_idem (z : Z) : uint16 (uint16 z) = uint16 z.
Proof. unfold uint16. apply Z.mod_mod. pow2. lia. Qed.

(** ** Indexing and slicing *)

Lemma index_lookup (s : list byte) (i : Z) (b : byte) :
  0 <= i -> s !! Z.to_nat i = Some b -> index s i = Done b.
Proof.
  intros Hi Hb. unfold index, len.
  apply lookup_lt_Some in Hb as Hlt.
  destruct (i <? 0) eqn:E1; [lia|].
  destruct (Z.of_nat (length s) <=? i) eqn:E2; [lia|].
  simpl. rewrite Hb. reflexivity.
Qed.

Lemma index_Done (s : list byte) (i : Z) (b : byte) :
  index s i = Done b -> 0 <= i < len s /\ s !! Z.to_nat i = Some b.
Proof.
  unfold index. intros H.
  destruct (i <? 0) eqn:E1; [discriminate|].
  destruct (len s <=? i) eqn:E2; [discriminate|].
  simpl in H. destruct (s !! Z.to_nat i) eqn:E3; [|discriminate].
  injection H as ->. split; [lia|reflexivity].
Qed.

Lemma index_out (s : list byte) (i : Z) :
  i < 0 \/ len s <= i -> index s i = Panic (IndexOutOfRange i (len s)).
Proof.
  intros H. unfold index.
  destruct (i <? 0) eqn:E1; [reflexivity|].
  destruct (len s <=? i) eqn:E2; [reflexivity|]. lia.
Qed.

Lemma index_total (s : list byte) (i : Z) :
  (exists b, index s i = Done b) \/ index s i = Panic (IndexOutOfRange i (len s)).
Proof.
  unfold index. destruct ((i <? 0) || (len s <=? i)); [right; reflexivity|].
  destruct (s !! Z.to_nat i); [left; eauto|right; reflexivity].
Qed.

Lemma slice_Done (s : list byte) (lo hi : Z) (t : list byte) :
  slice s lo hi = Done t ->
  0 <= lo /\ lo <= hi /\ hi <= len s /\ len t = hi - lo /\
  t = take (Z.to_nat (hi - lo)) (drop (Z.to_nat lo) s).
Proof.
  unfold slice. intros H.
  destruct (0 <=? lo) eqn:E1; [|discriminate].
  destruct (lo <=? hi) eqn:E2; [|discriminate].
  destruct (hi <=? len s) eqn:E3; [|discriminate].
  simpl in H. injection H as <-. unfold len in *.
  repeat split; try lia.
  rewrite length_take, length_drop. lia.
Qed.

Lemma slice_in (s : list byte) (lo hi : Z) :
  0 <= lo -> lo <= hi -> hi <= len s ->
  slice s lo hi = Done (take (Z.to_nat (hi - lo)) (drop (Z.to_nat lo) s)).
Proof.
  intros H1 H2 H3. unfold slice.
  destruct (0 <=? lo) eqn:E1; [|lia].
  destruct (lo <=? hi) eqn:E2; [|lia].
  destruct (hi <=? len s) eqn:E3; [|lia]. reflexivity.
Qed.

Lemma slice_out (s : list byte) (lo hi : Z) :
  lo < 0 \/ hi < lo \/ len s < hi ->
  slice s lo hi = Panic (SliceOutOfRange lo hi (len s)).
Proof.
  intros H. unfold slice.
  destruct (0 <=? lo) eqn:E1; [|reflexivity].
  destruct (lo <=? hi) eqn:E2; [|reflexivity].
  destruct (hi <=? len s) eqn:E3; [|reflexivity]. lia.
Qed.

(** ** The variable-length decoder *)

Lemma msb_clear (c : byte) :
  Z.testbit (b2z c) 7 = false -> Z.shiftr (b2z c) 7 = 0 /\ b2z c <= 127.
Proof. destruct c; vm_compute; intuition discriminate. Qed.

Lemma msb_set (c : byte) :
  Z.testbit (b2z c) 7 = true ->
  Z.shiftr (b2z c) 7 = 1 /\ Z.land (b2z c) 127 = b2z c - 128 /\ 128 <= b2z c.
Proof. destruct c; vm_compute; intuition discriminate. Qed.

Lemma readLength_short (record : FCGIRecord) (idx : Z) (c0 : byte) :
  0 <= idx ->
  len (ContentData record) < 2 ^ 63 ->
  ContentData record !! Z.to_nat idx = Some c0 ->
  Z.testbit (b2z c0) 7 = false ->
  readLength record idx = Done (b2z c0, idx + 1).
Proof.
  intros Hidx Hlen H0 Hmsb. unfold readLength.
  rewrite (index_lookup _ _ _ Hidx H0). simpl.
  destruct (msb_clear _ Hmsb) as [-> Hle]. simpl.
  pose proof (b2z_range c0) as Hr.
  apply lookup_lt_Some in H0. unfold len in Hlen.
  rewrite int32_small by (pow2; lia).
  rewrite int_small by (pow2; lia). reflexivity.
Qed.

Lemma readLength_long (record : FCGIRecord) (idx : Z) (c0 c1 c2 c3 : byte) :
  0 <= idx ->
  len (ContentData record) < 2 ^ 63 ->
  ContentData record !! Z.to_nat idx = Some c0 ->
  ContentData record !! Z.to_nat (idx + 1) = Some c1 ->
  ContentData record !! Z.to_nat (idx + 2) = Some c2 ->
  ContentData record !! Z.to_nat (idx + 3) = Some c3 ->
  Z.testbit (b2z c0) 7 = true ->
  readLength record idx =
    Done (Z.land (b2z c0) 127 * 2 ^ 24 + b2z c1 * 2 ^ 16 + b2z c2 * 2 ^ 8 + b2z c3,
          idx + 4).
Proof.
  intros Hidx Hlen H0 H1 H2 H3 Hmsb. unfold readLength.
  rewrite (index_lookup _ _ _ Hidx H0). simpl.
  destruct (msb_set _ Hmsb) as (-> & Hland & Hge). simpl.
  pose proof (b2z_range c0) as R0. pose proof (b2z_range c1) as R1.
  pose proof (b2z_range c2) as R2. pose proof (b2z_range c3) as R3.
  apply lookup_lt_Some in H3 as L3. unfold len in Hlen.
  rewrite !(int_small (idx + _)) by (pow2; lia).
  rewrite (index_lookup _ (idx + 1) c1) by (lia || assumption). simpl.
  rewrite (index_lookup _ (idx + 2) c2) by (lia || assumption). simpl.
  rewrite (index_lookup _ (idx + 3) c3) by (lia || assumption). simpl.
  rewrite Hland.
  rewrite (int32_small (b2z c0 - 128)) by (pow2; lia).
  rewrite (int32_small (b2z c1)) by (pow2; lia).
  rewrite (int32_small (b2z c2)) by (pow2; lia).
  rewrite (int32_small (b2z c3)) by (pow2; lia).
  rewrite !Z.shiftl_mul_pow2 by lia.
  pow2.
  rewrite (int32_small ((b2z c0 - 128) * _)) by (pow2; lia).
  rewrite (int32_small (b2z c1 * _)) by (pow2; lia).
  rewrite (int32_small (b2z c2 * _)) by (pow2; lia).
  rewrite (int32_small (_ + b2z c1 * _)) by (pow2; lia).
  rewrite (int32_small (_ + b2z c2 * _)) by (pow2; lia).
  rewrite (int32_small (_ + b2z c3)) by (pow2; lia).
  reflexivity.
Qed.

(** C8. With the bytes it needs in the buffer, [readLength] returns the
    byte itself (a value of 0 to 127) and [idx + 1] when the byte at [idx]
    has its top bit clear; otherwise it returns the big-endian value made
    of the low seven bits of that byte and the three bytes after it, a
    value below [2 ^ 31], and [idx + 4]. The four sample encodings decode
    to 0, 127, 1 and [0x7FFFFFFF]. *)
Theorem readLength_decodes (record : FCGIRecord) (idx : Z) (c0 : byte) :
  0 <= idx ->
  len (ContentData record) < 2 ^ 63 ->
  ContentData record !! Z.to_nat idx = Some c0 ->
  (Z.testbit (b2z c0) 7 = false ->
     readLength record idx = Done (b2z c0, idx + 1) /\ 0 <= b2z c0 <= 127)
  /\
  (Z.testbit (b2z c0) 7 = true ->
     forall c1 c2 c3 : byte,
       ContentData record !! Z.to_nat (idx + 1) = Some c1 ->
       ContentData record !! Z.to_nat (idx + 2) = Some c2 ->
       ContentData record !! Z.to_nat (idx + 3) = Some c3 ->
       let value :=
         Z.land (b2z c0) 127 * 2 ^ 24 + b2z c1 * 2 ^ 16 + b2z c2 * 2 ^ 8 + b2z c3 in
       readLength record idx = Done (value, idx + 4) /\ 0 <= value < 2 ^ 31)
  /\
  readLength (literal FCGIParams 1 [x00]) 0 = Done (0, 1) /\
  readLength (literal FCGIParams 1 [x7f]) 0 = Done (127, 1) /\
  readLength (literal FCGIParams 1 [x80; x00; x00; x01]) 0 = Done (1, 4) /\
  readLength (literal FCGIParams 1 [xff; xff; xff; xff]) 0 = Done (2147483647, 4).
Proof.
  intros Hidx Hlen H0. split; [|split].
  - intros Hmsb. split.
    + apply readLength_short; assumption.
    + pose proof (b2z_range c0). destruct (msb_clear _ Hmsb). lia.
  - intros Hmsb c1 c2 c3 H1 H2 H3 value. split.
    + apply readLength_long; assumption.
    + subst value. destruct (msb_set _ Hmsb) as (_ & -> & Hge).
      pose proof (b2z_range c0). pose proof (b2z_range c1).
      pose proof (b2z_range c2). pose proof (b2z_range c3).
      pow2. lia.
  - repeat split; vm_compute; reflexivity.
Qed.

Lemma readLength_decodes_witness :
  readLength (literal FCGIParams 1 [x05; x81; x02; x03; x04]) 1
  = Done (16909060, 5).
Proof.
  pose proof (readLength_decodes (literal FCGIParams 1 [x05; x81; x02; x03; x04])
                1 x81 ltac:(lia) ltac:(vm_compute; reflexivity) eq_refl)
    as (_ & Hlong & _).
  destruct (Hlong eq_refl x02 x03 x04 eq_refl eq_refl eq_refl) as [Heq _].
  exact Heq.
Defined.

(** ** The begin-request decoder *)

(** With three content bytes or more, [parseBeginRequest] reads a
    big-endian role and one flags byte and ignores the rest. *)
Lemma parseBeginRequest_three (record : FCGIRecord) (c0 c1 c2 : byte)
    (tail : list byte) :
  ContentData record = c0 :: c1 :: c2 :: tail ->
  parseBeginRequest record =
    let rawRole := b2z c0 * 256 + b2z c1 in
    if getRole rawRole =? FCGIUnknownRole then Done (Err (ErrUnknownRole c0 c1))
    else Done (Ok {| Role := getRole rawRole; Flags := b2z c2 |}).
Proof.
  intros Hc. unfold parseBeginRequest. rewrite Hc.
  rewrite (index_lookup _ 0 c0) by (lia || reflexivity).
  rewrite (index_lookup _ (0 + 1) c1) by (lia || reflexivity).
  rewrite (index_lookup _ (0 + 2) c2) by (lia || reflexivity).
  cbn [bindO]. rewrite be16, uint8_b2z.
  rewrite (uint16_small _ (be16_range c0 c1)). reflexivity.
Qed.

Lemma getRole_known (r : Z) :
  (getRole r =? FCGIUnknownRole) = negb ((r =? 1) || (r =? 2) || (r =? 3)).
Proof.
  destruct r as [|p|p]; try reflexivity.
  destruct p as [[|[]|]|[|[]|]|]; reflexivity.
Qed.

Lemma getRole_id (r : Z) : 1 <= r <= 3 -> getRole r = r.
Proof.
  intros H.
  assert (r = 1 \/ r = 2 \/ r = 3) as [->|[->| ->]] by lia; reflexivity.
Qed.

(** A role outside 1..3, 4 included, is the unknown role. *)
Lemma getRole_unknown (r : Z) : r < 1 \/ 3 < r -> getRole r = FCGIUnknownRole.
Proof.
  intros H. pose proof (getRole_known r) as Hk.
  destruct (r =? 1) eqn:E1; [lia|]. destruct (r =? 2) eqn:E2; [lia|].
  destruct (r =? 3) eqn:E3; [lia|]. simpl in Hk.
  apply Z.eqb_eq in Hk. exact Hk.
Qed.

(** Content of fewer than two bytes: the role cannot be read. *)
Lemma parseBeginRequest_short (record : FCGIRecord) :
  (length (ContentData record) < 2)%nat ->
  exists p, parseBeginRequest record = Panic p.
Proof.
  intros H. unfold parseBeginRequest.
  destruct (ContentData record) as [|c0 [|c1 l]]; simpl in H; try lia.
  - eexists. reflexivity.
  - eexists. reflexivity.
Qed.

(** C9. A BeginRequest record with fewer than three content bytes makes
    [parseBeginRequest] index past the end of the content: empty content,
    one byte, and two bytes that name a known role all panic, where the
    specification has a decode error; the connection handler, given such a record
    by the peer, panics with it. *)
Theorem parseBeginRequest_short_content_panics :
  parseBeginRequest (literal FCGIBeginRequest 1 []) = Panic (IndexOutOfRange 0 0) /\
  parseBeginRequest (literal FCGIBeginRequest 1 [x00]) = Panic (IndexOutOfRange 1 1) /\
  parseBeginRequest (literal FCGIBeginRequest 1 [x00; x01])
    = Panic (IndexOutOfRange 2 2) /\
  fst (handleConnection defaultArgs
         (connection [[x01; x01; x00; x01; x00; x00; x00; x00]] None))
    = Panic (IndexOutOfRange 0 0).
Proof. repeat split; vm_compute; reflexivity. Qed.

(** ** The monad *)

Lemma bind_lift {A B : Type} (o : outcome A) (k : A -> M B) (w : world) :
  bind (lift o) k w =
    match o with
    | Done a => k a w
    | Panic p => (Panic p, w)
    | OutOfFuel => (OutOfFuel, w)
    end.
Proof. unfold bind, lift. destruct o; reflexivity. Qed.

Lemma bind_ret {A B : Type} (a : A) (k : A -> M B) (w : world) :
  bind (ret a) k w = k a w.
Proof. reflexivity. Qed.

Lemma bind_log {B : Type} (m : logmsg) (k : unit -> M B) (w : world) :
  bind (log m) k w = k tt (add_log w m).
Proof. reflexivity. Qed.

Lemma bind_Done {A B : Type} (m : M A) (k : A -> M B) (w w' : world) (a : A) :
  m w = (Done a, w') -> bind m k w = k a w'.
Proof. intros H. unfold bind. rewrite H. reflexivity. Qed.

Lemma bind_Panic {A B : Type} (m : M A) (k : A -> M B) (w w' : world) (p : panic) :
  m w = (Panic p, w') -> bind m k w = (Panic p, w').
Proof. intros H. unfold bind. rewrite H. reflexivity. Qed.

Lemma quiet_refl (w : world) : quiet w w.
Proof. repeat split. Qed.

Lemma quiet_trans (w1 w2 w3 : world) : quiet w1 w2 -> quiet w2 w3 -> quiet w1 w3.
Proof.
  intros (A1 & A2 & A3 & A4 & A5) (B1 & B2 & B3 & B4 & B5).
  repeat split; congruence.
Qed.

Lemma quiet_log (w : world) (m : logmsg) : quiet w (add_log w m).
Proof. repeat split. Qed.

(** ** The params decoder *)

Lemma readLength_cases (record : FCGIRecord) (idx : Z) :
  len (ContentData record) < 2 ^ 62 ->
  0 <= idx ->
  (exists v idx', readLength record idx = Done (v, idx') /\
                  idx < idx' <= len (ContentData record) /\ 0 <= v < 2 ^ 31)
  \/ (exists p, readLength record idx = Panic p).
Proof.
  intros Hlen62 Hidx.
  assert (Hlen : len (ContentData record) < 2 ^ 63) by lia.
  destruct (index_total (ContentData record) idx) as [[c0 H0]|H0].
  2:{ right. unfold readLength. rewrite H0. eexists. reflexivity. }
  pose proof H0 as H0'. apply index_Done in H0' as [Hr L0].
  destruct (Z.testbit (b2z c0) 7) eqn:Hmsb.
  - assert (Hstep : forall i, 0 <= i <= 3 ->
              (exists c, ContentData record !! Z.to_nat (idx + i) = Some c) \/
              index (ContentData record) (int (idx + i))
                = Panic (IndexOutOfRange (idx + i) (len (ContentData record)))).
    { intros i Hi. rewrite int_small by (pow2; lia).
      destruct (index_total (ContentData record) (idx + i)) as [[c Hc]|Hc].
      - left. apply index_Done in Hc as [_ Hc]. eauto.
      - right. exact Hc. }
    destruct (msb_set _ Hmsb) as (Hshift & Hland & Hge).
    destruct (Hstep 1 ltac:(lia)) as [[c1 H1]|H1].
    2:{ right. unfold readLength. rewrite H0. cbn beta iota zeta delta [bindO].
        rewrite Hshift. change (1 =? 0) with false. cbn beta iota zeta delta [bindO].
        rewrite H1. eexists. reflexivity. }
    destruct (Hstep 2 ltac:(lia)) as [[c2 H2]|H2].
    2:{ right. unfold readLength. rewrite H0. cbn beta iota zeta delta [bindO].
        rewrite Hshift. change (1 =? 0) with false. cbn beta iota zeta delta [bindO].
        rewrite (int_small (idx + 1)) by (pow2; lia).
        rewrite (index_lookup _ (idx + 1) c1) by (lia || assumption).
        cbn beta iota zeta delta [bindO].
        rewrite H2. eexists. reflexivity. }
    destruct (Hstep 3 ltac:(lia)) as [[c3 H3]|H3].
    2:{ right. unfold readLength. rewrite H0. cbn beta iota zeta delta [bindO].
        rewrite Hshift. change (1 =? 0) with false. cbn beta iota zeta delta [bindO].
        rewrite (int_small (idx + 1)), (int_small (idx + 2)) by (pow2; lia).
        rewrite (index_lookup _ (idx + 1) c1) by (lia || assumption).
        cbn beta iota zeta delta [bindO].
        rewrite (index_lookup _ (idx + 2) c2) by (lia || assumption).
        cbn beta iota zeta delta [bindO].
        rewrite H3. eexists. reflexivity. }
    left. eexists _, _. split.
    + apply (readLength_long record idx c0 c1 c2 c3); assumption || lia.
    + apply lookup_lt_Some in H3. unfold len in *. rewrite Hland.
      pose proof (b2z_range c0). pose proof (b2z_range c1).
      pose proof (b2z_range c2). pose proof (b2z_range c3). pow2. lia.
  - left. eexists _, _. split.
    + apply (readLength_short record idx c0); assumption || lia.
    + pose proof (b2z_range c0). destruct (msb_clear _ Hmsb). pow2. lia.
Qed.

Lemma make_nonneg (n : Z) : 0 <= n -> make n = Done (replicate (Z.to_nat n) x00).
Proof. intros H. unfold make. destruct (n <? 0) eqn:E; [lia|reflexivity]. Qed.

Lemma slice_cases (s : list byte) (lo hi : Z) :
  (exists t, slice s lo hi = Done t) \/ (exists p, slice s lo hi = Panic p).
Proof. unfold slice. destruct (_ && _); eauto. Qed.

(** [copy] between a fresh buffer and a slice of the same length fills the
    buffer. *)
Lemma copy_full (n : Z) (src : list byte) :
  0 <= n -> len src = n -> copy (replicate (Z.to_nat n) x00) src = (src, n).
Proof.
  intros Hn Hs. unfold copy, len in *. rewrite length_replicate.
  replace (Z.to_nat n) with (length src) by lia.
  rewrite Nat.min_id, firstn_all.
  rewrite drop_ge by (rewrite length_replicate; lia).
  rewrite app_nil_r. f_equal. lia.
Qed.

(** Whatever the content, the loop of [parseParams] ends, with no error or
    in a panic: the two short-copy errors cannot arise, because the slice
    expression that feeds [copy] has either the full length or panics. *)
Lemma parseParams_loop_outcome (record : FCGIRecord) :
  len (ContentData record) < 2 ^ 62 ->
  forall (fuel : nat) (idx : Z) (w : world),
    0 <= idx ->
    (Z.to_nat (len (ContentData record) - idx) < fuel)%nat ->
    exists w', quiet w w' /\
      (parseParams_loop fuel record idx w = (Done None, w') \/
       exists p, parseParams_loop fuel record idx w = (Panic p, w')).
Proof.
  intros Hlen fuel. induction fuel as [|fuel IH]; intros idx w Hidx Hfuel; [lia|].
  cbn [parseParams_loop].
  destruct (idx <? len (ContentData record)) eqn:Hlt.
  2:{ exists w. split; [apply quiet_refl|left; reflexivity]. }
  pow2.
  rewrite bind_lift.
  destruct (readLength_cases record idx Hlen Hidx)
    as [(nl & idx1 & -> & B1 & V1)|[p ->]].
  2:{ exists w. split; [apply quiet_refl|right; eauto]. }
  rewrite bind_lift.
  destruct (readLength_cases record idx1 Hlen ltac:(lia))
    as [(vl & idx2 & -> & B2 & V2)|[p ->]].
  2:{ exists w. split; [apply quiet_refl|right; eauto]. }
  rewrite bind_lift, (make_nonneg nl) by lia.
  rewrite bind_lift. rewrite (int_small (idx2 + nl)) by (pow2; lia).
  destruct (slice_cases (ContentData record) idx2 (idx2 + nl)) as [[src Hs]|[p Hs]];
    rewrite Hs.
  2:{ exists w. split; [apply quiet_refl|right; eauto]. }
  apply slice_Done in Hs as (_ & _ & Hhi & Hsl & _).
  rewrite copy_full by lia. rewrite Z.eqb_refl. cbn [negb].
  rewrite bind_lift, (make_nonneg vl) by lia.
  rewrite bind_lift. rewrite (int_small (idx2 + nl + vl)) by (pow2; lia).
  destruct (slice_cases (ContentData record) (idx2 + nl) (idx2 + nl + vl))
    as [[src' Hs']|[p Hs']]; rewrite Hs'.
  2:{ exists w. split; [apply quiet_refl|right; eauto]. }
  apply slice_Done in Hs' as (_ & _ & Hhi' & Hsl' & _).
  rewrite copy_full by lia. rewrite Z.eqb_refl. cbn [negb].
  rewrite bind_log.
  destruct (IH (idx2 + nl + vl) (add_log w (LogNameValue src src')) ltac:(lia) ltac:(lia))
    as (w' & Hq & Hres).
  exists w'. split; [|exact Hres].
  eapply quiet_trans; [apply quiet_log|exact Hq].
Qed.

(** [parseParams] returns no error: it succeeds or it panics. *)
Lemma parseParams_nil_or_panic (record : FCGIRecord) (w : world) :
  len (ContentData record) < 2 ^ 62 ->
  exists w', quiet w w' /\
    (parseParams record w = (Done None, w') \/
     exists p, parseParams record w = (Panic p, w')).
Proof.
  intros Hlen. unfold parseParams.
  apply parseParams_loop_outcome; [assumption|lia|unfold len; lia].
Qed.

(** Empty content: no pair is printed and no error is returned. *)
Lemma parseParams_empty (record : FCGIRecord) (w : world) :
  ContentData record = [] -> parseParams record w = (Done None, w).
Proof.
  intros H. unfold parseParams. cbn [parseParams_loop]. rewrite H. reflexivity.
Qed.

(** C3. Content whose declared lengths run past its end makes
    [parseParams] panic instead of returning the short-copy error the
    function is written to return: a name longer than what is left, a
    length prefix cut short, and a missing value length all panic, and so
    does the connection handler when the peer sends such a Params
    record. *)
Theorem parseParams_truncated_panics :
  let w := connection [] None in
  parseParams (literal FCGIParams 1 [x05; x00; x61]) w
    = (Panic (SliceOutOfRange 2 7 3), w) /\
  parseParams (literal FCGIParams 1 [x81; x00]) w
    = (Panic (IndexOutOfRange 2 2), w) /\
  parseParams (literal FCGIParams 1 [x03]) w
    = (Panic (IndexOutOfRange 1 1), w) /\
  fst (handleConnection defaultArgs
         (connection [[x01; x04; x00; x01; x00; x03; x00; x00; x05; x00; x61]] None))
    = Panic (SliceOutOfRange 2 7 3).
Proof. repeat split; vm_compute; reflexivity. Qed.

(** ** Reading from the connection *)

Lemma set_in_same (w : world) : set_in w (conn_in w) = w.
Proof. destruct w; reflexivity. Qed.

Lemma set_in_twice (w : world) (a b : list (list byte)) :
  set_in (set_in w a) b = set_in w b.
Proof. reflexivity. Qed.

Lemma concat_push (seg : list byte) (rest : list (list byte)) :
  concat (push seg rest) = seg ++ concat rest.
Proof. destruct seg; reflexivity. Qed.

Lemma Read_push (n : nat) (w : world) (pre post : list byte)
    (rest : list (list byte)) :
  (0 < n)%nat -> length pre = n ->
  conn_in w = push (pre ++ post) rest ->
  Read n w = (Done (pre, None), set_in w (push post rest)).
Proof.
  intros Hn Hpre Hin. unfold Read.
  destruct n as [|n]; [lia|].
  destruct pre as [|b pre]; [simpl in Hpre; lia|].
  rewrite Hin. cbn [push app]. rewrite <- Hpre.
  change (b :: pre ++ post) with ((b :: pre) ++ post).
  rewrite take_app_length, drop_app_length. reflexivity.
Qed.

Lemma readFull_push (data : list byte) (w : world) (pre post : list byte)
    (rest : list (list byte)) :
  length pre = length data ->
  conn_in w = push (pre ++ post) rest ->
  readFull data w = (Done (pre, None), set_in w (push post rest)).
Proof.
  intros Hpre Hin. unfold readFull.
  destruct (length data) as [|n] eqn:Hn.
  - destruct pre; [|discriminate]. destruct data; [|discriminate].
    simpl in Hin. rewrite <- Hin, set_in_same. reflexivity.
  - rewrite (bind_Done _ _ _ _ _ (Read_push (S n) w pre post rest ltac:(lia) Hpre Hin)).
    rewrite drop_ge by lia. rewrite app_nil_r.
    unfold len. rewrite Z.eqb_refl. reflexivity.
Qed.

(** [Read] hands over a prefix of what is pending, never more than was
    asked for, and touches nothing but the input queue. *)
Lemma Read_inv (n : nat) (w : world) :
  exists got err w',
    Read n w = (Done (got, err), w') /\
    concat (conn_in w) = got ++ concat (conn_in w') /\
    (length got <= n)%nat /\
    w' = set_in w (conn_in w').
Proof.
  unfold Read. destruct n as [|n].
  - exists [], None, w. rewrite set_in_same. repeat split. simpl. lia.
  - destruct (conn_in w) as [|seg rest] eqn:Hin.
    + exists [], (Some EOF), w. rewrite Hin. repeat split; [simpl; lia|].
      rewrite <- Hin. symmetry. apply set_in_same.
    + eexists _, _, _. split; [reflexivity|]. cbn [conn_in set_in].
      rewrite concat_push. cbn [concat]. rewrite app_assoc, take_drop.
      repeat split. rewrite length_take. lia.
Qed.

Lemma readFull_inv (data : list byte) (w : world) :
  exists data' err w',
    readFull data w = (Done (data', err), w') /\
    w' = set_in w (conn_in w') /\
    (err = None ->
     length data' = length data /\
     concat (conn_in w) = data' ++ concat (conn_in w')).
Proof.
  unfold readFull.
  destruct (Read_inv (length data) w) as (got & err & w' & HR & Hcat & Hle & Hw).
  rewrite (bind_Done _ _ _ _ _ HR). cbn beta iota zeta.
  destruct err as [e|].
  - eexists _, _, _. split; [reflexivity|]. split; [exact Hw|discriminate].
  - destruct (len got =? len (got ++ drop (length got) data)) eqn:E; cbn [negb].
    + eexists _, _, _. split; [reflexivity|]. split; [exact Hw|]. intros _.
      apply Z.eqb_eq in E. unfold len in E.
      rewrite length_app, length_drop in E.
      assert (Hd : drop (length got) data = []).
      { apply length_zero_iff_nil. rewrite length_drop. lia. }
      rewrite Hd, app_nil_r. split; [|exact Hcat].
      apply (f_equal (@length byte)) in Hd. rewrite length_drop in Hd. simpl in Hd. lia.
    + eexists _, _, _. split; [reflexivity|]. split; [exact Hw|discriminate].
Qed.

(** ** The record codec *)

Lemma getRecordType_id (t : Z) : 1 <= t <= 10 -> getRecordType t = t.
Proof.
  intros H.
  assert (t = 1 \/ t = 2 \/ t = 3 \/ t = 4 \/ t = 5 \/ t = 6 \/ t = 7 \/ t = 8 \/
          t = 9 \/ t = 10) as Hc by lia.
  repeat (destruct Hc as [->|Hc]; [reflexivity|]). subst t. reflexivity.
Qed.

(** Whatever the byte, [getRecordType] answers a type from 1 to 11, and 11
    exactly when the byte is none of 1 to 10. *)
Lemma getRecordType_range (t : Z) : 1 <= getRecordType t <= 11.
Proof.
  destruct t as [|p|p]; try (vm_compute; intuition discriminate).
  do 4 (destruct p as [p|p|]; try (vm_compute; intuition discriminate)).
Qed.

Lemma getRecordType_unknown (t : Z) :
  t < 1 \/ 10 < t -> getRecordType t = FCGIUnknownType.
Proof.
  intros H. destruct t as [|p|p]; try reflexivity.
  do 4 (destruct p as [p|p|]; try reflexivity; try lia).
Qed.

Lemma byte_of_small (z : Z) : 0 <= z < 256 -> b2z (z2b z) = z.
Proof. intros H. rewrite b2z_z2b. apply Z.mod_small. exact H. Qed.

(** The two bytes [byte(z >> 8)], [byte(z)] hold a 16-bit [z]. *)
Lemma be16_split (z : Z) :
  0 <= z < 65536 -> b2z (z2b (Z.shiftr z 8)) * 256 + b2z (z2b z) = z.
Proof.
  intros H. rewrite !b2z_z2b, Z.shiftr_div_pow2 by lia. pow2.
  rewrite (Z.mod_small (z / 256)).
  - pose proof (Z.div_mod z 256 ltac:(lia)). lia.
  - split; [apply Z.div_pos; lia|apply Z.div_lt_upper_bound; lia].
Qed.

(** Reading back a record that arrives whole, header then content then
    padding, gives that record and leaves what follows it. *)
Lemma readRecord_wire (r : FCGIRecord) (w : world) (post : list byte)
    (rest : list (list byte)) :
  decoded r ->
  conn_in w = push (wire r ++ post) rest ->
  readRecord w = (Done (Ok r), set_in w (push post rest)).
Proof.
  intros (Hv & Ht & Hid & Hcl & Hclb & Hpl & Hplb & Hres) Hin.
  unfold wire in Hin. rewrite <- !app_assoc in Hin.
  unfold readRecord. rewrite bind_lift.
  change (make 8) with (Done (replicate 8 x00)). cbn beta iota zeta.
  rewrite (bind_Done _ _ _ _ _
             (readFull_push (replicate 8 x00) w (wire_header r) _ rest eq_refl Hin)).
  cbn beta iota zeta.
  rewrite bind_lift. unfold wire_header at 1.
  rewrite (index_lookup _ 0 (z2b (Version r))) by (lia || reflexivity).
  rewrite (byte_of_small (Version r)), uint8_small by lia.
  rewrite Hv. change (negb (1 =? 1)) with false. cbn beta iota zeta.
  rewrite bind_lift.
  rewrite (index_lookup _ (0 + 1) (z2b (RType r))) by (lia || reflexivity).
  rewrite (byte_of_small (RType r)), uint8_small by lia.
  rewrite (getRecordType_id _ Ht).
  replace (RType r =? FCGIUnknownType) with false
    by (symmetry; apply Z.eqb_neq; unfold FCGIUnknownType; lia).
  rewrite bind_lift.
  rewrite (index_lookup _ (0 + 1 + 1) (z2b (Z.shiftr (RequestID r) 8)))
    by (lia || reflexivity).
  rewrite bind_lift.
  rewrite (index_lookup _ (0 + 1 + 1 + 1) (z2b (RequestID r))) by (lia || reflexivity).
  rewrite uint16_idem, be16, (be16_split _ Hid).
  rewrite bind_lift.
  rewrite (index_lookup _ (0 + 1 + 1 + 2) (z2b (Z.shiftr (ContentLength r) 8)))
    by (lia || reflexivity).
  rewrite bind_lift.
  rewrite (index_lookup _ (0 + 1 + 1 + 2 + 1) (z2b (ContentLength r)))
    by (lia || reflexivity).
  pose proof (len_nonneg (ContentData r)) as Hc0.
  pose proof (len_nonneg (PaddingData r)) as Hp0.
  rewrite uint16_idem, be16, (be16_split (ContentLength r)) by lia.
  rewrite bind_lift.
  rewrite (index_lookup _ (0 + 1 + 1 + 2 + 2) (z2b (PaddingLength r)))
    by (lia || reflexivity).
  rewrite (byte_of_small (PaddingLength r)), uint8_small by lia.
  rewrite bind_lift.
  rewrite (index_lookup _ (0 + 1 + 1 + 2 + 2 + 1) (z2b (Reserved r)))
    by (lia || reflexivity).
  rewrite (byte_of_small (Reserved r)), uint8_small by lia.
  rewrite Hres. change (negb (0 =? 0)) with false. cbn beta iota zeta.
  rewrite bind_lift, make_nonneg by lia.
  erewrite bind_Done.
  2:{ apply (readFull_push _ _ (ContentData r) (PaddingData r ++ post) rest).
      - rewrite length_replicate. unfold len in Hcl. lia.
      - reflexivity. }
  cbn beta iota zeta.
  rewrite bind_lift, make_nonneg by lia.
  erewrite bind_Done.
  2:{ apply (readFull_push _ _ (PaddingData r) post rest).
      - rewrite length_replicate. unfold len in Hpl. lia.
      - reflexivity. }
  cbn beta iota zeta. unfold ret. rewrite !set_in_twice.
  destruct r; cbn in *. subst. reflexivity.
Qed.

Lemma serialize_literal (t id : Z) (c : list byte) :
  serialize (literal t id c) = wire (received t id c).
Proof. unfold wire. cbn [PaddingData received]. rewrite app_nil_r. reflexivity. Qed.

Lemma decoded_received (t id : Z) (c : list byte) :
  1 <= t <= 10 -> 0 <= id <= 65535 -> len c <= 65535 ->
  decoded (received t id c).
Proof.
  intros Ht Hid Hc. unfold decoded, received. cbn.
  pose proof (len_nonneg c). repeat split; lia.
Qed.

(** C4. For a record type from 1 to 10, a request id from 0 to 65535 and
    content of at most 65535 bytes, reading back the bytes that
    [serialize] produces succeeds and gives version 1, the same type and
    request id, the length of the content as content length, no padding,
    and the content itself; nothing is left unread. *)
Theorem serialize_readRecord_roundtrip (t id : Z) (c : list byte) (w : world) :
  1 <= t <= 10 ->
  0 <= id <= 65535 ->
  len c <= 65535 ->
  readRecord (set_in w [serialize (literal t id c)])
  = (Done (Ok {| Version := 1; RType := t; RequestID := id;
                 ContentLength := len c; PaddingLength := 0; Reserved := 0;
                 ContentData := c; PaddingData := [] |}),
     set_in w []).
Proof.
  intros Ht Hid Hc.
  apply (readRecord_wire (received t id c) (set_in w [serialize (literal t id c)])
           [] []).
  - apply decoded_received; assumption.
  - rewrite app_nil_r, serialize_literal. reflexivity.
Qed.

Lemma serialize_readRecord_roundtrip_witness :
  readRecord (set_in (connection [] None) [serialize (literal FCGIStdin 513 [x68; x69])])
  = (Done (Ok {| Version := 1; RType := FCGIStdin; RequestID := 513;
                 ContentLength := 2; PaddingLength := 0; Reserved := 0;
                 ContentData := [x68; x69]; PaddingData := [] |}),
     set_in (connection [] None) []).
Proof.
  apply (serialize_readRecord_roundtrip FCGIStdin 513 [x68; x69] (connection [] None));
    [unfold FCGIStdin; lia | lia | vm_compute; discriminate].
Defined.

(** What [readRecord] does on any input: it returns (no panic, no loop); a
    record it returns is well formed and its header, content and padding
    are, in that order, the bytes taken from the stream; a header that
    fails one of the three checks costs the eight header bytes and nothing
    more. *)
Lemma readRecord_inv (w : world) :
  exists (res : res FCGIRecord) (w' : world),
    readRecord w = (Done res, w') /\
    w' = set_in w (conn_in w') /\
    match res with
    | Ok r =>
      decoded r /\
      exists hdr, length hdr = 8%nat /\
        concat (conn_in w) = hdr ++ ContentData r ++ PaddingData r ++ concat (conn_in w')
    | Err (ErrUnexpectedVersion _)
    | Err (ErrUnknownRecordType _)
    | Err (ErrReservedNotZero _) =>
      exists hdr, length hdr = 8%nat /\ concat (conn_in w) = hdr ++ concat (conn_in w')
    | Err _ => True
    end.
Proof.
  unfold readRecord. rewrite bind_lift.
  change (make 8) with (Done (replicate 8 x00)). cbn beta iota zeta.
  destruct (readFull_inv (replicate 8 x00) w) as (hdr & err & w1 & HR & Hw1 & Hok).
  rewrite (bind_Done _ _ _ _ _ HR). cbn beta iota zeta.
  destruct err as [e|].
  { eexists _, _. split; [reflexivity|]. split; [exact Hw1|exact I]. }
  destruct (Hok eq_refl) as [Hlen Hcat]. clear Hok.
  destruct hdr as [|h0 [|h1 [|h2 [|h3 [|h4 [|h5 [|h6 [|h7 [|h8 hdr]]]]]]]]];
    try discriminate Hlen.
  rewrite bind_lift, (index_lookup _ 0 h0) by (lia || reflexivity).
  destruct (uint8 (b2z h0) =? 1) eqn:Ev; cbn [negb]; cbn beta iota zeta.
  2:{ eexists _, _. split; [reflexivity|]. split; [exact Hw1|]. eauto. }
  rewrite bind_lift, (index_lookup _ (0 + 1) h1) by (lia || reflexivity).
  destruct (getRecordType (uint8 (b2z h1)) =? FCGIUnknownType) eqn:Et.
  { eexists _, _. split; [reflexivity|]. split; [exact Hw1|]. eauto. }
  rewrite bind_lift, (index_lookup _ (0 + 1 + 1) h2) by (lia || reflexivity).
  rewrite bind_lift, (index_lookup _ (0 + 1 + 1 + 1) h3) by (lia || reflexivity).
  rewrite bind_lift, (index_lookup _ (0 + 1 + 1 + 2) h4) by (lia || reflexivity).
  rewrite bind_lift, (index_lookup _ (0 + 1 + 1 + 2 + 1) h5) by (lia || reflexivity).
  rewrite bind_lift, (index_lookup _ (0 + 1 + 1 + 2 + 2) h6) by (lia || reflexivity).
  rewrite bind_lift, (index_lookup _ (0 + 1 + 1 + 2 + 2 + 1) h7) by (lia || reflexivity).
  rewrite !uint16_idem, !be16.
  destruct (uint8 (b2z h7) =? 0) eqn:Er; cbn [negb]; cbn beta iota zeta.
  2:{ eexists _, _. split; [reflexivity|]. split; [exact Hw1|]. eauto. }
  pose proof (be16_range h2 h3) as Rid. pose proof (be16_range h4 h5) as Rcl.
  pose proof (b2z_range h6) as Rpl.
  rewrite bind_lift, make_nonneg by lia.
  destruct (readFull_inv (replicate (Z.to_nat (b2z h4 * 256 + b2z h5)) x00) w1)
    as (content & err & w2 & HR2 & Hw2 & Hok2).
  rewrite (bind_Done _ _ _ _ _ HR2). cbn beta iota zeta.
  destruct err as [e|].
  { eexists _, _. split; [reflexivity|]. split; [|exact I].
    rewrite Hw2, Hw1. reflexivity. }
  destruct (Hok2 eq_refl) as [Hlen2 Hcat2]. clear Hok2.
  rewrite uint8_b2z.
  rewrite bind_lift, make_nonneg by lia.
  destruct (readFull_inv (replicate (Z.to_nat (b2z h6)) x00) w2)
    as (padding & err & w3 & HR3 & Hw3 & Hok3).
  rewrite (bind_Done _ _ _ _ _ HR3). cbn beta iota zeta.
  destruct err as [e|].
  { eexists _, _. split; [reflexivity|]. split; [|exact I].
    rewrite Hw3, Hw2, Hw1. reflexivity. }
  destruct (Hok3 eq_refl) as [Hlen3 Hcat3]. clear Hok3.
  eexists _, _. split; [reflexivity|]. split.
  { rewrite Hw3, Hw2, Hw1. reflexivity. }
  rewrite length_replicate in Hlen2, Hlen3.
  apply Z.eqb_eq in Ev, Er. apply Z.eqb_neq in Et.
  pose proof (getRecordType_range (uint8 (b2z h1))) as Rt.
  unfold FCGIUnknownType in Et.
  split.
  - unfold decoded, len. cbn. repeat split; lia.
  - exists [h0; h1; h2; h3; h4; h5; h6; h7]. split; [reflexivity|]. cbn.
    rewrite Hcat. cbn. rewrite Hcat2, Hcat3, <- ?app_assoc. reflexivity.
Qed.

Lemma pending_concat (w : world) : Z.of_nat (pending w) = len (concat (conn_in w)).
Proof. reflexivity. Qed.

(** C2, as amended. A record that [readRecord] returns took exactly
    8 + contentLength + paddingLength bytes from the stream: the header,
    then the content, then the padding. When the version, the record type
    or the reserved byte of the header is rejected, [readRecord] returns
    the error having taken the eight header bytes only; content and
    padding stay in the stream. *)
Theorem readRecord_consumes (w w' : world) (res : res FCGIRecord) :
  readRecord w = (Done res, w') ->
  match res with
  | Ok r =>
    len (ContentData r) = ContentLength r /\
    len (PaddingData r) = PaddingLength r /\
    Z.of_nat (pending w)
      = 8 + ContentLength r + PaddingLength r + Z.of_nat (pending w') /\
    exists hdr, length hdr = 8%nat /\
      concat (conn_in w) = hdr ++ ContentData r ++ PaddingData r ++ concat (conn_in w')
  | Err (ErrUnexpectedVersion _)
  | Err (ErrUnknownRecordType _)
  | Err (ErrReservedNotZero _) =>
    Z.of_nat (pending w) = 8 + Z.of_nat (pending w') /\
    exists hdr, length hdr = 8%nat /\ concat (conn_in w) = hdr ++ concat (conn_in w')
  | Err _ => True
  end.
Proof.
  intros H.
  destruct (readRecord_inv w) as (res0 & w0 & H0 & _ & Hspec).
  rewrite H in H0. injection H0 as <- <-.
  destruct res as [r|e].
  - destruct Hspec as [(_ & _ & _ & Hcl & _ & Hpl & _ & _) (hdr & Hlen & Hcat)].
    repeat split; try congruence.
    + rewrite !pending_concat, Hcat, !len_app. unfold len at 1. lia.
    + eauto.
  - destruct e; try exact I; destruct Hspec as (hdr & Hlen & Hcat);
      (split; [rewrite !pending_concat, Hcat, len_app; unfold len at 1; lia|eauto]).
Qed.

Lemma readRecord_consumes_witness :
  let w := connection [[x01; x05; x00; x01; x00; x02; x01; x00; x68; x69; x00; xaa]] None in
  let w' := connection [[xaa]] None in
  let r := {| Version := 1; RType := 5; RequestID := 1; ContentLength := 2;
              PaddingLength := 1; Reserved := 0; ContentData := [x68; x69];
              PaddingData := [x00] |} in
  Z.of_nat (pending w) = 8 + ContentLength r + PaddingLength r + Z.of_nat (pending w').
Proof.
  intros w w' r.
  exact (proj1 (proj2 (proj2 (readRecord_consumes w w' (Ok r) eq_refl)))).
Defined.

(** C2, counterexample to the specification as written. The header below declares two content
    bytes and no padding, and has record type 0; [readRecord] rejects it
    and the two content bytes are still pending: 8 bytes were taken, not
    8 + 2 + 0. The same happens for a nonzero reserved byte. *)
Lemma readRecord_no_drain_counterexample :
  let w := connection [[x01; x00; x00; x01; x00; x02; x00; x00; x61; x62]] None in
  let v := connection [[x01; x05; x00; x01; x00; x02; x00; x07; x61; x62]] None in
  readRecord w = (Done (Err (ErrUnknownRecordType x00)), connection [[x61; x62]] None) /\
  readRecord v = (Done (Err (ErrReservedNotZero x07)), connection [[x61; x62]] None) /\
  Z.of_nat (pending w) - Z.of_nat (pending (snd (readRecord w))) <> 8 + 2 + 0 /\
  Z.of_nat (pending v) - Z.of_nat (pending (snd (readRecord v))) <> 8 + 2 + 0.
Proof. repeat split; vm_compute; congruence. Qed.

(** ** Cutting a payload into pieces *)

Lemma chunks_aux_concat (n : nat) :
  (1 <= n)%nat ->
  forall (fuel : nat) (l : list byte),
    (length l <= fuel)%nat -> concat (chunks_aux fuel n l) = l.
Proof.
  intros Hn fuel. induction fuel as [|fuel IH]; intros l Hl.
  - destruct l; [reflexivity|simpl in Hl; lia].
  - destruct l as [|b l]; [reflexivity|].
    cbn [chunks_aux concat]. rewrite IH.
    + apply take_drop.
    + rewrite length_drop. simpl in *. lia.
Qed.

Lemma chunks_aux_bounded (n : nat) :
  (1 <= n)%nat ->
  forall (fuel : nat) (l : list byte),
    Forall (fun c => (1 <= length c <= n)%nat) (chunks_aux fuel n l).
Proof.
  intros Hn fuel. induction fuel as [|fuel IH]; intros l; [constructor|].
  destruct l as [|b l]; [constructor|].
  cbn [chunks_aux]. constructor; [|apply IH].
  rewrite length_take. simpl. lia.
Qed.

(** More fuel than there are bytes changes nothing. *)
Lemma chunks_aux_fuel (n : nat) :
  (1 <= n)%nat ->
  forall (fuel : nat) (l : list byte),
    (length l <= fuel)%nat -> chunks_aux fuel n l = chunks n l.
Proof.
  intros Hn. unfold chunks.
  assert (H : forall f1 f2 (l : list byte),
             (length l <= f1)%nat -> (length l <= f2)%nat ->
             chunks_aux f1 n l = chunks_aux f2 n l).
  { induction f1 as [|f1 IH]; intros f2 l H1 H2.
    - destruct l; [|simpl in H1; lia]. destruct f2; reflexivity.
    - destruct l as [|b l]; [destruct f2; reflexivity|].
      destruct f2 as [|f2]; [simpl in H2; lia|].
      cbn [chunks_aux]. f_equal. apply IH; rewrite length_drop; simpl in *; lia. }
  intros fuel l Hl. apply H; [exact Hl|lia].
Qed.

Lemma chunks_concat (n : nat) (l : list byte) :
  (1 <= n)%nat -> concat (chunks n l) = l.
Proof. intros Hn. apply chunks_aux_concat; [exact Hn|lia]. Qed.

Lemma chunks_bounded (n : nat) (l : list byte) :
  (1 <= n)%nat -> Forall (fun c => (1 <= length c <= n)%nat) (chunks n l).
Proof. intros Hn. apply chunks_aux_bounded. exact Hn. Qed.

Lemma chunks_cons (n : nat) (l : list byte) :
  (1 <= n)%nat -> l <> [] -> chunks n l = take n l :: chunks n (drop n l).
Proof.
  intros Hn Hl. unfold chunks at 1. destruct l as [|b l]; [congruence|].
  cbn [length chunks_aux]. f_equal. apply chunks_aux_fuel; [exact Hn|].
  rewrite length_drop. simpl. lia.
Qed.

(** ** Offering bytes to the transport *)

Lemma fits_dec (room : option nat) (n : nat) : fits room n \/ ~ fits room n.
Proof. destruct room as [k|]; simpl; [lia|auto]. Qed.

Lemma fits_app (room : option nat) (a b : nat) :
  fits room (a + b) <-> fits room a /\ fits (dec room a) b.
Proof. destruct room as [k|]; simpl; [lia|tauto]. Qed.

Lemma wrote_nothing (w w' : world) : quiet w w' -> wrote w w' [].
Proof.
  intros (A1 & A2 & A3 & A4 & A5). unfold wrote.
  repeat split; try assumption.
  - rewrite A2. destruct (conn_room w); simpl; rewrite ?take_nil, app_nil_r; reflexivity.
  - rewrite A3. destruct (conn_room w); simpl; [f_equal; lia|reflexivity].
Qed.

Lemma wrote_trans (w1 w2 w3 : world) (a b : list byte) :
  wrote w1 w2 a -> wrote w2 w3 b -> wrote w1 w3 (a ++ b).
Proof.
  intros (A1 & A2 & A3 & A4 & A5) (B1 & B2 & B3 & B4 & B5). unfold wrote.
  repeat split; try congruence.
  - rewrite B4, A4, A5, <- app_assoc. f_equal.
    destruct (conn_room w1) as [k|]; simpl; [|reflexivity].
    symmetry. apply take_app.
  - rewrite B5, A5, length_app.
    destruct (conn_room w1) as [k|]; simpl; [f_equal; lia|reflexivity].
Qed.

(** Once the peer has refused bytes, offering more changes nothing. *)
Lemma wrote_stuck (w w' : world) (a b : list byte) :
  wrote w w' a -> ~ fits (conn_room w) (length a) -> wrote w w' (a ++ b).
Proof.
  intros (A1 & A2 & A3 & A4 & A5) Hno. unfold wrote.
  repeat split; try assumption.
  - rewrite A4. f_equal. destruct (conn_room w) as [k|]; simpl in *; [|tauto].
    symmetry. apply take_app_le. lia.
  - rewrite A5, length_app. destruct (conn_room w) as [k|]; simpl in *; [|tauto].
    f_equal. lia.
Qed.

Lemma wrote_quiet_l (w1 w2 w3 : world) (b : list byte) :
  quiet w1 w2 -> wrote w2 w3 b -> wrote w1 w3 b.
Proof. intros Hq Hw. apply (wrote_trans w1 w2 w3 [] b); [apply wrote_nothing, Hq|exact Hw]. Qed.

Lemma wrote_quiet_r (w1 w2 w3 : world) (b : list byte) :
  wrote w1 w2 b -> quiet w2 w3 -> wrote w1 w3 b.
Proof.
  intros Hw Hq. rewrite <- (app_nil_r b).
  apply (wrote_trans w1 w2 w3 b []); [exact Hw|apply wrote_nothing, Hq].
Qed.

(** [writeAll] offers its buffer in one write; it returns no error exactly
    when the buffer fits, and then the buffer is one entry of [conn_out]. *)
Lemma writeAll_spec (buf : list byte) (w : world) :
  exists (err : option error) (w' : world),
    writeAll buf w = (Done err, w') /\
    wrote w w' buf /\
    (fits (conn_room w) (length buf) ->
     err = None /\ conn_out w' = conn_out w ++ [buf]) /\
    (~ fits (conn_room w) (length buf) -> err = Some ErrTransport).
Proof.
  unfold writeAll. rewrite bind_log. unfold bind at 1, Write.
  cbn [conn_room add_log conn_out].
  destruct (conn_room w) as [k|] eqn:Hroom.
  - destruct (length buf <=? k)%nat eqn:Hle.
    + apply Nat.leb_le in Hle. rewrite Z.eqb_refl. cbn [negb].
      eexists _, _. split; [reflexivity|]. split; [|split].
      * unfold wrote. cbn. rewrite Hroom. cbn.
        rewrite concat_app. cbn. rewrite app_nil_r, take_ge by lia. repeat split.
      * intros _. split; reflexivity.
      * cbn. lia.
    + apply Nat.leb_gt in Hle.
      eexists _, _. split; [reflexivity|]. split; [|split].
      * unfold wrote. cbn. rewrite Hroom. cbn.
        rewrite concat_app. cbn. rewrite app_nil_r. repeat split. f_equal. lia.
      * cbn. lia.
      * intros _. reflexivity.
  - rewrite Z.eqb_refl. cbn [negb].
    eexists _, _. split; [reflexivity|]. split; [|split].
    + unfold wrote. cbn. rewrite Hroom. cbn.
      rewrite concat_app. cbn. rewrite app_nil_r. repeat split.
    + intros _. split; reflexivity.
    + cbn. tauto.
Qed.

Lemma bind_ext {A B : Type} (m : M A) (k1 k2 : A -> M B) (w : world) :
  (forall a w', k1 a w' = k2 a w') -> bind m k1 w = bind m k2 w.
Proof.
  intros H. unfold bind. destruct (m w) as [[a|p|] w']; [apply H|reflexivity..].
Qed.

(** ** The stream encoder *)

(** The loop of [sendStream] sends the pieces of the payload from [i] on:
    with a positive [maxContentSize], no wrap-around of [i] and fuel for
    every piece, it is [emit] on those pieces. *)
Lemma sendStream_loop_emit (requestID : Z) (payload : list byte)
    (writeEachRecord : bool) (maxContentSize : Z) :
  1 <= maxContentSize ->
  len payload + maxContentSize < 2 ^ 63 ->
  forall (fuel : nat) (i : Z) (buf : list byte) (w : world),
    0 <= i ->
    (length (drop (Z.to_nat i) payload) < fuel)%nat ->
    sendStream_loop fuel requestID payload writeEachRecord maxContentSize i buf w
    = emit writeEachRecord requestID
           (chunks (Z.to_nat maxContentSize) (drop (Z.to_nat i) payload)) buf w.
Proof.
  intros Hmax Hwrap fuel.
  induction fuel as [|fuel IH]; intros i buf w Hi Hfuel; [lia|].
  cbn [sendStream_loop]. unfold len in *. rewrite length_drop in Hfuel.
  destruct (i <? Z.of_nat (length payload)) eqn:Hlt.
  - apply Z.ltb_lt in Hlt.
    rewrite chunks_cons.
    2:{ lia. }
    2:{ intros Hnil. apply (f_equal (@length byte)) in Hnil.
        rewrite length_drop in Hnil. simpl in Hnil. lia. }
    cbn [emit]. rewrite int_small by (pow2; lia).
    rewrite bind_lift.
    assert (Hchunk :
      slice payload i
        (if i + maxContentSize >? Z.of_nat (length payload)
         then Z.of_nat (length payload) else i + maxContentSize)
      = Done (take (Z.to_nat maxContentSize) (drop (Z.to_nat i) payload))).
    { destruct (i + maxContentSize >? Z.of_nat (length payload)) eqn:Hgt.
      - rewrite slice_in by (unfold len; lia). f_equal.
        rewrite !take_ge by (rewrite length_drop; lia). reflexivity.
      - rewrite slice_in by (unfold len; lia). do 2 f_equal. lia. }
    rewrite Hchunk. rewrite !bind_log.
    apply bind_ext. intros [e|] w'; [reflexivity|].
    rewrite IH.
    + rewrite drop_drop. do 3 f_equal. lia.
    + lia.
    + rewrite length_drop. lia.
  - apply Z.ltb_ge in Hlt.
    rewrite drop_ge by lia. reflexivity.
Qed.

(** Without a write per record, [emit] only fills the buffer. *)
Lemma emit_buffered (requestID : Z) (cs : list (list byte)) :
  forall (buf : list byte) (w : world),
    exists w',
      emit false requestID cs buf w
      = (Done (Ok (buf ++ concat (map (fun c => serialize (literal FCGIStdout requestID c)) cs))),
         w') /\
      quiet w w'.
Proof.
  induction cs as [|c cs IH]; intros buf w.
  - exists w. cbn. rewrite app_nil_r. split; [reflexivity|apply quiet_refl].
  - cbn [emit]. rewrite bind_log, bind_ret.
    destruct (IH (buf ++ serialize (literal FCGIStdout requestID c))
                 (add_log w (LogContentDataSize (len c)))) as (w' & -> & Hq).
    exists w'. split.
    + cbn [map concat]. rewrite <- app_assoc. reflexivity.
    + eapply quiet_trans; [apply quiet_log|exact Hq].
Qed.

(** With a write per record, [emit] offers the records one after the
    other and stops at the first the peer refuses. *)
Lemma emit_each (requestID : Z) (cs : list (list byte)) :
  forall (buf : list byte) (w : world),
    let sers := map (fun c => serialize (literal FCGIStdout requestID c)) cs in
    exists (r : res (list byte)) (w' : world),
      emit true requestID cs buf w = (Done r, w') /\
      wrote w w' (concat sers) /\
      (fits (conn_room w) (length (concat sers)) ->
       r = Ok (buf ++ concat sers) /\ conn_out w' = conn_out w ++ sers) /\
      (~ fits (conn_room w) (length (concat sers)) -> exists e, r = Err e).
Proof.
  induction cs as [|c cs IH]; intros buf w sers; subst sers.
  - exists (Ok buf), w. cbn [map concat emit]. split; [reflexivity|].
    split; [apply wrote_nothing, quiet_refl|]. split.
    + intros _. rewrite !app_nil_r. split; reflexivity.
    + intros Hno. exfalso. apply Hno. destruct (conn_room w); simpl; [lia|exact I].
  - cbn [emit map concat]. rewrite bind_log.
    set (s := serialize (literal FCGIStdout requestID c)).
    set (w0 := add_log w (LogContentDataSize (len c))).
    destruct (writeAll_spec s w0) as (err & w1 & HW & Hwr & Hfit & Hno).
    rewrite (bind_Done _ _ _ _ _ HW).
    assert (Hwr' : wrote w w1 s) by (apply (wrote_quiet_l w w0 w1); [apply quiet_log|exact Hwr]).
    change (conn_room w0) with (conn_room w) in Hfit, Hno.
    destruct (fits_dec (conn_room w) (length s)) as [Hf|Hnf].
    + destruct (Hfit Hf) as [-> Hout]. clear Hfit Hno.
      destruct (IH (buf ++ s) w1) as (r & w' & HE & Hwr2 & Hfit2 & Hno2).
      exists r, w'. split; [exact HE|]. split; [|split].
      * apply (wrote_trans w w1 w'); assumption.
      * intros Hall. rewrite length_app in Hall. apply fits_app in Hall as [_ Hrest].
        destruct Hwr' as (_ & _ & _ & _ & Hroom1). rewrite <- Hroom1 in Hrest.
        destruct (Hfit2 Hrest) as [-> Hout2]. split.
        -- rewrite <- app_assoc. reflexivity.
        -- rewrite Hout2, Hout. change (conn_out w0) with (conn_out w).
           rewrite <- app_assoc. reflexivity.
      * intros Hall. apply Hno2. intros Hrest. apply Hall.
        rewrite length_app. apply fits_app. split; [exact Hf|].
        destruct Hwr' as (_ & _ & _ & _ & Hroom1). rewrite <- Hroom1. exact Hrest.
    + rewrite (Hno Hnf). eexists _, w1. split; [reflexivity|]. split; [|split].
      * apply wrote_stuck; assumption.
      * intros Hall. rewrite length_app in Hall. apply fits_app in Hall as [Hf _]. tauto.
      * intros _. eauto.
Qed.

Lemma fits_zero (room : option nat) : fits room 0.
Proof. destruct room; simpl; [lia|exact I]. Qed.

Lemma serialize_stream (requestID maxContentSize : Z) (payload : list byte) :
  map serialize (streamRecords requestID maxContentSize payload)
  = map (fun c => serialize (literal FCGIStdout requestID c))
        (chunks (Z.to_nat maxContentSize) payload)
    ++ [serialize (literal FCGIStdout requestID [])].
Proof. unfold streamRecords. rewrite map_app, map_map. reflexivity. Qed.

(** [sendStream]: the Stdout records of the payload and the empty Stdout
    record, returned as one buffer and, with a write per record, offered to
    the transport one by one. *)
Lemma sendStream_spec (requestID : Z) (payload : list byte)
    (writeEachRecord : bool) (maxContentSize : Z) (w : world) :
  1 <= maxContentSize ->
  len payload + maxContentSize < 2 ^ 63 ->
  let sers := map serialize (streamRecords requestID maxContentSize payload) in
  exists (r : res (list byte)) (w' : world),
    sendStream requestID payload writeEachRecord maxContentSize w = (Done r, w') /\
    (writeEachRecord = false -> quiet w w' /\ r = Ok (concat sers)) /\
    (writeEachRecord = true ->
     wrote w w' (concat sers) /\
     (fits (conn_room w) (length (concat sers)) ->
      r = Ok (concat sers) /\ conn_out w' = conn_out w ++ sers) /\
     (~ fits (conn_room w) (length (concat sers)) -> exists e, r = Err e)).
Proof.
  intros Hmax Hwrap sers. subst sers. rewrite serialize_stream.
  set (cs := chunks (Z.to_nat maxContentSize) payload).
  set (f := fun c => serialize (literal FCGIStdout requestID c)).
  set (t := serialize (literal FCGIStdout requestID [])).
  rewrite concat_app. cbn [concat]. rewrite app_nil_r.
  unfold sendStream. unfold bind at 1.
  rewrite (sendStream_loop_emit requestID payload writeEachRecord maxContentSize
             Hmax Hwrap) by (try lia; rewrite length_drop; lia).
  change (drop (Z.to_nat 0) payload) with payload. fold cs.
  destruct writeEachRecord.
  - destruct (emit_each requestID cs [] w) as (r & w1 & HE & Hwr & Hfit & Hno).
    fold f in HE, Hwr, Hfit, Hno. rewrite HE.
    destruct (fits_dec (conn_room w) (length (concat (map f cs)))) as [Hf|Hnf].
    + destruct (Hfit Hf) as [-> Hout]. clear Hfit Hno.
      destruct (writeAll_spec t w1) as (err & w2 & HW & Hwr2 & Hfit2 & Hno2).
      fold t. rewrite (bind_Done _ _ _ _ _ HW).
      destruct (fits_dec (conn_room w1) (length t)) as [Hf2|Hnf2].
      * destruct (Hfit2 Hf2) as [-> Hout2].
        eexists _, w2. split; [reflexivity|]. split; [discriminate|]. intros _.
        split; [apply (wrote_trans w w1 w2); assumption|]. split.
        -- intros _. split; [reflexivity|]. rewrite Hout2, Hout, app_assoc. reflexivity.
        -- intros Hall. exfalso. apply Hall. rewrite length_app. apply fits_app.
           split; [exact Hf|]. destruct Hwr as (_ & _ & _ & _ & <-). exact Hf2.
      * rewrite (Hno2 Hnf2).
        eexists _, w2. split; [reflexivity|]. split; [discriminate|]. intros _.
        split; [apply (wrote_trans w w1 w2); assumption|]. split.
        -- intros Hall. exfalso. rewrite length_app in Hall.
           apply fits_app in Hall as [_ Hall].
           destruct Hwr as (_ & _ & _ & _ & Hroom). rewrite <- Hroom in Hall. tauto.
        -- intros _. eauto.
    + destruct (Hno Hnf) as [e ->].
      eexists _, w1. split; [reflexivity|]. split; [discriminate|]. intros _.
      split; [apply wrote_stuck; assumption|]. split.
      * intros Hall. exfalso. rewrite length_app in Hall.
        apply fits_app in Hall as [Hall _]. tauto.
      * intros _. eauto.
  - destruct (emit_buffered requestID cs [] w) as (w1 & HE & Hq).
    fold f in HE. rewrite HE. rewrite bind_ret.
    eexists _, w1. split; [reflexivity|]. split; [|discriminate]. intros _.
    split; [exact Hq|reflexivity].
Qed.

Lemma len_headers : len headers = 47.
Proof. reflexivity. Qed.

Lemma len_replicate {A : Type} (n : Z) (x : A) :
  0 <= n -> len (replicate (Z.to_nat n) x) = n.
Proof. intros H. unfold len. rewrite length_replicate. lia. Qed.

(** [sendResponse]: the records of the response are offered to the
    transport, one write each or all in one write; the call returns no
    error exactly when the peer takes them all. *)
Lemma sendResponse_spec (requestID bodySize : Z) (writeEachRecord : bool)
    (maxContentSize : Z) (w : world) :
  0 <= bodySize ->
  1 <= maxContentSize ->
  bodySize + maxContentSize < 2 ^ 62 ->
  let sers := map serialize (responseRecords requestID bodySize maxContentSize) in
  exists (err : option error) (w' : world),
    sendResponse requestID bodySize writeEachRecord maxContentSize w = (Done err, w') /\
    wrote w w' (concat sers) /\
    (fits (conn_room w) (length (concat sers)) ->
     err = None /\
     conn_out w' = conn_out w ++ (if writeEachRecord then sers else [concat sers])) /\
    (~ fits (conn_room w) (length (concat sers)) -> exists e, err = Some e).
Proof.
  intros Hbody Hmax Hwrap sers. subst sers.
  unfold responseRecords. rewrite map_app, concat_app. cbn [map concat].
  rewrite app_nil_r.
  set (ss := map serialize (streamRecords requestID maxContentSize (payloadOf bodySize))).
  set (e8 := serialize (literal FCGIEndRequest requestID (replicate 8 x00))).
  unfold sendResponse.
  rewrite bind_lift, make_nonneg by lia. rewrite fmap_replicate.
  rewrite len_replicate, len_headers by lia.
  rewrite int_small by (pow2; lia).
  rewrite bind_lift. unfold make_cap.
  replace ((0 <? 0) || (bodySize + 47 <? 0)) with false
    by (symmetry; apply orb_false_iff; split; [reflexivity|apply Z.ltb_ge; lia]).
  change ((replicate (Z.to_nat 0) x00 ++ headers) ++ replicate (Z.to_nat bodySize) "a"%byte)
    with (payloadOf bodySize).
  assert (Hp : len (payloadOf bodySize) + maxContentSize < 2 ^ 63).
  { unfold payloadOf. rewrite len_app, len_headers, len_replicate by lia. pow2. lia. }
  destruct (sendStream_spec requestID (payloadOf bodySize) writeEachRecord
              maxContentSize w Hmax Hp) as (r & w1 & HS & Hbuf & Heach).
  fold ss in Hbuf, Heach.
  rewrite (bind_Done _ _ _ _ _ HS).
  destruct writeEachRecord.
  - destruct (Heach eq_refl) as (Hwr & Hfit & Hno). clear Hbuf Heach.
    destruct (fits_dec (conn_room w) (length (concat ss))) as [Hf|Hnf].
    + destruct (Hfit Hf) as [-> Hout].
      rewrite bind_lift. change (make 8) with (Done (replicate 8 x00)).
      cbn beta iota zeta. fold e8.
      destruct (writeAll_spec e8 w1) as (err & w2 & HW & Hwr2 & Hfit2 & Hno2).
      rewrite (bind_Done _ _ _ _ _ HW).
      destruct (fits_dec (conn_room w1) (length e8)) as [Hf2|Hnf2].
      * destruct (Hfit2 Hf2) as [-> Hout2]. cbn [negb]. rewrite bind_ret.
        eexists _, w2. split; [reflexivity|].
        split; [apply (wrote_trans w w1 w2); assumption|]. split.
        -- intros _. split; [reflexivity|]. rewrite Hout2, Hout, <- app_assoc. reflexivity.
        -- intros Hall. exfalso. apply Hall. rewrite length_app. apply fits_app.
           split; [exact Hf|]. destruct Hwr as (_ & _ & _ & _ & <-). exact Hf2.
      * rewrite (Hno2 Hnf2).
        eexists _, w2. split; [reflexivity|].
        split; [apply (wrote_trans w w1 w2); assumption|]. split.
        -- intros Hall. exfalso. rewrite length_app in Hall.
           apply fits_app in Hall as [_ Hall].
           destruct Hwr as (_ & _ & _ & _ & Hroom). rewrite <- Hroom in Hall. tauto.
        -- intros _. eauto.
    + destruct (Hno Hnf) as [e ->].
      eexists _, w1. split; [reflexivity|].
      split; [apply wrote_stuck; assumption|]. split.
      * intros Hall. exfalso. rewrite length_app in Hall.
        apply fits_app in Hall as [Hall _]. tauto.
      * intros _. eauto.
  - destruct (Hbuf eq_refl) as [Hq ->]. clear Hbuf Heach.
    rewrite bind_lift. change (make 8) with (Done (replicate 8 x00)).
    cbn beta iota zeta. fold e8. rewrite bind_ret. cbn [negb].
    destruct (writeAll_spec (concat ss ++ e8) w1) as (err & w2 & HW & Hwr2 & Hfit2 & Hno2).
    rewrite (bind_Done _ _ _ _ _ HW).
    assert (Hroom : conn_room w1 = conn_room w) by (destruct Hq as (_ & _ & H & _); exact H).
    assert (Hout1 : conn_out w1 = conn_out w) by (destruct Hq as (_ & H & _); exact H).
    rewrite Hroom in Hfit2, Hno2.
    destruct (fits_dec (conn_room w) (length (concat ss ++ e8))) as [Hf|Hnf].
    + destruct (Hfit2 Hf) as [-> Hout2].
      eexists _, w2. split; [reflexivity|].
      split; [apply (wrote_quiet_l w w1 w2); assumption|]. split.
      * intros _. split; [reflexivity|]. rewrite Hout2, Hout1. reflexivity.
      * tauto.
    + rewrite (Hno2 Hnf).
      eexists _, w2. split; [reflexivity|].
      split; [apply (wrote_quiet_l w w1 w2); assumption|]. split.
      * tauto.
      * intros _. eauto.
Qed.

(** What [getArgs] accepts can be sent, unless the body is too large for
    any memory. *)
Lemma getArgs_sendable (bodySize : Z) (writeEachRecord : bool)
    (maxContentSize : Z) (args : Args) :
  getArgs bodySize writeEachRecord maxContentSize = Ok args ->
  bodySize < 2 ^ 61 ->
  0 <= BodySize args /\ 1 <= MaxContentSize args /\
  BodySize args + MaxContentSize args < 2 ^ 62.
Proof.
  unfold getArgs. intros H Hb.
  destruct (bodySize <=? 0) eqn:E1; [discriminate|].
  destruct (maxContentSize <=? 0) eqn:E2; [discriminate|].
  destruct (maxContentSize >? 65535) eqn:E3; [discriminate|].
  injection H as <-. cbn. change (2 ^ 61) with 2305843009213693952 in Hb. pow2. lia.
Qed.

(** On a transport that takes everything, [sendStream] succeeds. *)
Lemma sendStream_unbounded (requestID : Z) (payload : list byte)
    (writeEachRecord : bool) (maxContentSize : Z) (w : world) :
  conn_room w = None ->
  1 <= maxContentSize ->
  len payload + maxContentSize < 2 ^ 63 ->
  let sers := map serialize (streamRecords requestID maxContentSize payload) in
  exists w',
    sendStream requestID payload writeEachRecord maxContentSize w
    = (Done (Ok (concat sers)), w') /\
    conn_out w' = conn_out w ++ (if writeEachRecord then sers else []) /\
    conn_in w' = conn_in w /\ conn_room w' = None /\
    conn_closed w' = conn_closed w /\ conn_close_err w' = conn_close_err w.
Proof.
  intros Hroom Hmax Hwrap sers.
  destruct (sendStream_spec requestID payload writeEachRecord maxContentSize w
              Hmax Hwrap) as (r & w' & HS & Hbuf & Heach).
  fold sers in Hbuf, Heach. exists w'. destruct writeEachRecord.
  - destruct (Heach eq_refl) as ((A1 & A2 & A3 & _ & A5) & Hfit & _).
    rewrite Hroom in Hfit, A5. destruct (Hfit I) as [-> Hout].
    repeat split; assumption.
  - destruct (Hbuf eq_refl) as [(A1 & A2 & A3 & A4 & A5) ->].
    rewrite app_nil_r. repeat split; congruence.
Qed.

(** On a transport that takes everything, [sendResponse] succeeds. *)
Lemma sendResponse_unbounded (requestID bodySize : Z) (writeEachRecord : bool)
    (maxContentSize : Z) (w : world) :
  conn_room w = None ->
  0 <= bodySize ->
  1 <= maxContentSize ->
  bodySize + maxContentSize < 2 ^ 62 ->
  let sers := map serialize (responseRecords requestID bodySize maxContentSize) in
  exists w',
    sendResponse requestID bodySize writeEachRecord maxContentSize w = (Done None, w') /\
    conn_out w' = conn_out w ++ (if writeEachRecord then sers else [concat sers]) /\
    conn_in w' = conn_in w /\ conn_room w' = None /\
    conn_closed w' = conn_closed w /\ conn_close_err w' = conn_close_err w.
Proof.
  intros Hroom Hbody Hmax Hwrap sers.
  destruct (sendResponse_spec requestID bodySize writeEachRecord maxContentSize w
              Hbody Hmax Hwrap) as (err & w' & HS & (A1 & A2 & A3 & _ & A5) & Hfit & _).
  fold sers in Hfit, A5. rewrite Hroom in Hfit, A5.
  destruct (Hfit I) as [-> Hout]. exists w'. repeat split; assumption.
Qed.

(** C5. On a transport that takes everything: a payload of 10 bytes with
    a limit of 4 makes [sendStream] produce three Stdout records whose
    contents are the first four, the next four and the last two bytes,
    then one Stdout record without content; for any payload and positive
    limit the pieces are between one byte and the limit long and
    concatenate to the payload; and [sendResponse] puts one EndRequest
    record, whose body is eight zero bytes, after the stream of its
    payload. With a write per record each record is one write, otherwise
    nothing is written by [sendStream] and everything in one write by
    [sendResponse]. *)
Theorem response_chunking (requestID : Z) (writeEachRecord : bool) (w : world) :
  conn_room w = None ->
  (forall payload : list byte,
     length payload = 10%nat ->
     exists (c1 c2 c3 : list byte) (w' : world),
       payload = c1 ++ c2 ++ c3 /\
       length c1 = 4%nat /\ length c2 = 4%nat /\ length c3 = 2%nat /\
       let records :=
         [literal FCGIStdout requestID c1; literal FCGIStdout requestID c2;
          literal FCGIStdout requestID c3; literal FCGIStdout requestID []] in
       sendStream requestID payload writeEachRecord 4 w
       = (Done (Ok (concat (map serialize records))), w') /\
       conn_out w' = conn_out w ++ (if writeEachRecord then map serialize records else []))
  /\
  (forall (payload : list byte) (maxContentSize : Z),
     1 <= maxContentSize ->
     len payload + maxContentSize < 2 ^ 63 ->
     let pieces := chunks (Z.to_nat maxContentSize) payload in
     let records := map (literal FCGIStdout requestID) pieces
                    ++ [literal FCGIStdout requestID []] in
     concat pieces = payload /\
     Forall (fun c => 1 <= len c <= maxContentSize) pieces /\
     exists w',
       sendStream requestID payload writeEachRecord maxContentSize w
       = (Done (Ok (concat (map serialize records))), w') /\
       conn_out w' = conn_out w ++ (if writeEachRecord then map serialize records else []))
  /\
  (forall bodySize maxContentSize : Z,
     0 <= bodySize ->
     1 <= maxContentSize ->
     bodySize + maxContentSize < 2 ^ 62 ->
     let payload := headers ++ replicate (Z.to_nat bodySize) "a"%byte in
     let records :=
       map (literal FCGIStdout requestID) (chunks (Z.to_nat maxContentSize) payload)
       ++ [literal FCGIStdout requestID []]
       ++ [literal FCGIEndRequest requestID [x00; x00; x00; x00; x00; x00; x00; x00]] in
     exists w',
       sendResponse requestID bodySize writeEachRecord maxContentSize w = (Done None, w') /\
       conn_out w' = conn_out w ++ (if writeEachRecord then map serialize records
                                    else [concat (map serialize records)])).
Proof.
  intros Hroom. split; [|split].
  - intros payload Hlen.
    destruct payload as [|b0 [|b1 [|b2 [|b3 [|b4 [|b5 [|b6 [|b7 [|b8 [|b9 [|b10 l]]]]]]]]]]];
      try discriminate Hlen.
    exists [b0; b1; b2; b3], [b4; b5; b6; b7], [b8; b9].
    destruct (sendStream_unbounded requestID [b0; b1; b2; b3; b4; b5; b6; b7; b8; b9]
                writeEachRecord 4 w Hroom ltac:(lia) ltac:(vm_compute; reflexivity))
      as (w' & HS & Hout & _).
    exists w'. repeat split; assumption.
  - intros payload maxContentSize Hmax Hwrap pieces records.
    split; [apply chunks_concat; lia|]. split.
    + eapply Forall_impl; [apply (chunks_bounded (Z.to_nat maxContentSize)); lia|].
      intros c Hc. simpl in Hc. unfold len. lia.
    + destruct (sendStream_unbounded requestID payload writeEachRecord maxContentSize w
                  Hroom Hmax Hwrap) as (w' & HS & Hout & _).
      exists w'. split; assumption.
  - intros bodySize maxContentSize Hbody Hmax Hwrap payload records.
    destruct (sendResponse_unbounded requestID bodySize writeEachRecord maxContentSize w
                Hroom Hbody Hmax Hwrap) as (w' & HS & Hout & _).
    exists w'. split; [exact HS|].
    subst records. rewrite app_assoc. exact Hout.
Qed.

Lemma response_chunking_witness :
  exists w',
    sendStream 1 (list_byte_of_string "0123456789") true 4 (connection [] None)
    = (Done (Ok (concat (map serialize
                   [literal FCGIStdout 1 (list_byte_of_string "0123");
                    literal FCGIStdout 1 (list_byte_of_string "4567");
                    literal FCGIStdout 1 (list_byte_of_string "89");
                    literal FCGIStdout 1 []]))), w').
Proof.
  destruct (response_chunking 1 true (connection [] None) eq_refl) as (Hsample & _ & _).
  destruct (Hsample (list_byte_of_string "0123456789") eq_refl)
    as (c1 & c2 & c3 & w' & Hp & H1 & H2 & H3 & HS & _).
  exists w'. rewrite HS.
  destruct c1 as [|x0 [|x1 [|x2 [|x3 [|x4 c1]]]]]; try discriminate H1.
  destruct c2 as [|y0 [|y1 [|y2 [|y3 [|y4 c2]]]]]; try discriminate H2.
  destruct c3 as [|z0 [|z1 [|z2 c3]]]; try discriminate H3.
  injection Hp as <- <- <- <- <- <- <- <- <- <-. reflexivity.
Defined.

(** C6. For a body size and a content limit that [getArgs] accepts (and
    sizes that do not wrap), the two settings of [writeEachRecord] put the
    same bytes on the transport, however much the peer accepts: the bytes
    of the response records, as far as there is room. Both calls return an
    error or neither does, and they leave the same room. When everything
    fits, one setting has written one record per write and the other all
    records in one write. *)
Theorem sendResponse_modes_agree (requestID bodySize maxContentSize : Z) (w : world) :
  0 <= bodySize ->
  1 <= maxContentSize ->
  bodySize + maxContentSize < 2 ^ 62 ->
  let bytes := responseBytes requestID bodySize maxContentSize in
  exists (err1 err2 : option error) (w1 w2 : world),
    sendResponse requestID bodySize true maxContentSize w = (Done err1, w1) /\
    sendResponse requestID bodySize false maxContentSize w = (Done err2, w2) /\
    concat (conn_out w1) = concat (conn_out w2) /\
    concat (conn_out w1) = concat (conn_out w) ++ sent (conn_room w) bytes /\
    (err1 = None <-> err2 = None) /\
    conn_room w1 = conn_room w2 /\
    (fits (conn_room w) (length bytes) ->
     err1 = None /\ err2 = None /\
     conn_out w1 = conn_out w
                   ++ map serialize (responseRecords requestID bodySize maxContentSize) /\
     conn_out w2 = conn_out w ++ [bytes]).
Proof.
  intros Hbody Hmax Hwrap bytes.
  destruct (sendResponse_spec requestID bodySize true maxContentSize w Hbody Hmax Hwrap)
    as (err1 & w1 & H1 & (_ & _ & _ & O1 & R1) & F1 & N1).
  destruct (sendResponse_spec requestID bodySize false maxContentSize w Hbody Hmax Hwrap)
    as (err2 & w2 & H2 & (_ & _ & _ & O2 & R2) & F2 & N2).
  fold (responseBytes requestID bodySize maxContentSize) in O1, R1, F1, N1, O2, R2, F2, N2.
  fold bytes in O1, R1, F1, N1, O2, R2, F2, N2.
  exists err1, err2, w1, w2.
  split; [exact H1|]. split; [exact H2|]. split; [congruence|]. split; [exact O1|].
  split; [|split; [congruence|]].
  - destruct (fits_dec (conn_room w) (length bytes)) as [Hf|Hnf].
    + destruct (F1 Hf) as [-> _]. destruct (F2 Hf) as [-> _]. tauto.
    + destruct (N1 Hnf) as [e1 ->]. destruct (N2 Hnf) as [e2 ->].
      split; discriminate.
  - intros Hf. destruct (F1 Hf) as [-> Ho1]. destruct (F2 Hf) as [-> Ho2].
    repeat split; assumption.
Qed.

Lemma sendResponse_modes_agree_witness :
  concat (conn_out (snd (sendResponse 1 3 true 20 (connection [] (Some 40%nat)))))
  = concat (conn_out (snd (sendResponse 1 3 false 20 (connection [] (Some 40%nat))))).
Proof.
  destruct (sendResponse_modes_agree 1 3 20 (connection [] (Some 40%nat))
              ltac:(lia) ltac:(lia) ltac:(vm_compute; reflexivity))
    as (err1 & err2 & w1 & w2 & H1 & H2 & Heq & _).
  rewrite H1, H2. exact Heq.
Defined.

(** ** The connection handler, record by record *)

Lemma handleRecord_greeting (record : FCGIRecord) (w : world) {B : Type}
    (k : unit -> M B) :
  bind (if RequestID record =? 0 then log LogManagementRecord
        else log (LogApplicationRecord (RequestID record))) k w
  = k tt (add_log w (greeting record)).
Proof. unfold greeting. destruct (RequestID record =? 0); reflexivity. Qed.

(** A BeginRequest record whose content names the Responder role: the flag
    of bit 0 is stored under the request id of the record, whatever that
    id is and whatever was stored before. *)
Lemma handleRecord_begin (args : Args) (t : gmap Z bool) (record : FCGIRecord)
    (w : world) (c0 c1 c2 : byte) (tail : list byte) :
  RType record = FCGIBeginRequest ->
  ContentData record = c0 :: c1 :: c2 :: tail ->
  b2z c0 * 256 + b2z c1 = FCGIResponder ->
  handleRecord args t record w
  = (Done (Continue (<[RequestID record := Z.testbit (b2z c2) 0]> t)),
     add_log (add_log w (greeting record)) LogBeginRequestResponder).
Proof.
  intros Ht Hc Hrole. unfold handleRecord.
  rewrite handleRecord_greeting.
  rewrite Ht. change (FCGIBeginRequest =? FCGIBeginRequest) with true. cbn iota.
  rewrite bind_lift, (parseBeginRequest_three record c0 c1 c2 tail Hc).
  cbn zeta. rewrite Hrole. cbn.
  do 3 f_equal. destruct c2; reflexivity.
Qed.

(** A BeginRequest record that passes leaves the Responder role and three
    content bytes or more behind it. *)
Lemma handleRecord_begin_inv (args : Args) (t t' : gmap Z bool)
    (record : FCGIRecord) (w w' : world) :
  RType record = FCGIBeginRequest ->
  handleRecord args t record w = (Done (Continue t'), w') ->
  exists c0 c1 c2 tail,
    ContentData record = c0 :: c1 :: c2 :: tail /\
    b2z c0 * 256 + b2z c1 = FCGIResponder /\
    t' = <[RequestID record := Z.testbit (b2z c2) 0]> t /\
    w' = add_log (add_log w (greeting record)) LogBeginRequestResponder.
Proof.
  intros Ht H.
  destruct (ContentData record) as [|c0 [|c1 [|c2 tail]]] eqn:Hc.
  1-3: exfalso; revert H; unfold handleRecord;
       rewrite handleRecord_greeting;
       rewrite Ht; change (FCGIBeginRequest =? FCGIBeginRequest) with true; cbn iota;
       rewrite bind_lift; unfold parseBeginRequest; rewrite Hc.
  - cbn. discriminate.
  - cbn. discriminate.
  - rewrite (index_lookup _ 0 c0), (index_lookup _ (0 + 1) c1) by (lia || reflexivity).
    cbn [bindO]. destruct (getRole _ =? FCGIUnknownRole); [cbn; discriminate|].
    rewrite (index_out _ (0 + 2)) by (right; vm_compute; discriminate). cbn. discriminate.
  - exists c0, c1, c2, tail. split; [reflexivity|].
    assert (Hrole : b2z c0 * 256 + b2z c1 = FCGIResponder).
    { revert H. unfold handleRecord. rewrite handleRecord_greeting.
      rewrite Ht. change (FCGIBeginRequest =? FCGIBeginRequest) with true. cbn iota.
      rewrite bind_lift, (parseBeginRequest_three record c0 c1 c2 tail Hc). cbn zeta.
      pose proof (getRole_known (b2z c0 * 256 + b2z c1)) as Hk.
      destruct (getRole (b2z c0 * 256 + b2z c1) =? FCGIUnknownRole) eqn:Eu;
        [cbn; discriminate|].
      cbn [Role]. destruct (getRole (b2z c0 * 256 + b2z c1) =? FCGIResponder) eqn:Er;
        [|cbn; discriminate].
      intros _. apply Z.eqb_eq in Er.
      destruct (b2z c0 * 256 + b2z c1 =? 1) eqn:E1; [apply Z.eqb_eq in E1; exact E1|].
      destruct (b2z c0 * 256 + b2z c1 =? 2) eqn:E2;
        [apply Z.eqb_eq in E2; rewrite E2 in Er; discriminate|].
      destruct (b2z c0 * 256 + b2z c1 =? 3) eqn:E3;
        [apply Z.eqb_eq in E3; rewrite E3 in Er; discriminate|].
      discriminate. }
    split; [exact Hrole|].
    rewrite (handleRecord_begin args t record w c0 c1 c2 tail Ht Hc Hrole) in H.
    injection H as <- <-. split; reflexivity.
Qed.

(** A Params record is parsed and nothing else happens. *)
Lemma handleRecord_params (args : Args) (t : gmap Z bool) (record : FCGIRecord)
    (w : world) :
  RType record = FCGIParams ->
  len (ContentData record) < 2 ^ 62 ->
  exists w', quiet w w' /\
    (handleRecord args t record w = (Done (Continue t), w') \/
     exists p, handleRecord args t record w = (Panic p, w')).
Proof.
  intros Ht Hlen. unfold handleRecord.
  rewrite handleRecord_greeting.
  rewrite Ht. change (FCGIParams =? FCGIBeginRequest) with false.
  change (FCGIParams =? FCGIParams) with true. cbn iota.
  destruct (parseParams_nil_or_panic record (add_log w (greeting record)) Hlen)
    as (w1 & Hq & [HP|[p HP]]).
  - rewrite (bind_Done _ _ _ _ _ HP). rewrite bind_log.
    eexists. split; [|left; reflexivity].
    eapply quiet_trans; [apply quiet_log|].
    eapply quiet_trans; [exact Hq|apply quiet_log].
  - rewrite (bind_Panic _ _ _ _ _ HP).
    exists w1. split; [|right; eauto].
    eapply quiet_trans; [apply quiet_log|exact Hq].
Qed.

Lemma parseStdin_eq (record : FCGIRecord) (w : world) :
  parseStdin record w = (Done None, add_log w (LogStdinLength (ContentLength record))).
Proof. reflexivity. Qed.

(** A Stdin record is answered at once, whatever its content and whatever
    the table holds; the table only decides what follows. *)
Lemma handleRecord_stdin (args : Args) (t : gmap Z bool) (record : FCGIRecord)
    (w : world) :
  RType record = FCGIStdin ->
  sendable args ->
  conn_room w = None ->
  exists w',
    handleRecord args t record w
    = (Done (if default false (t !! RequestID record) then Break
             else Continue (delete (RequestID record) t)), w') /\
    conn_out w' = conn_out w ++ responseWrites args (RequestID record) /\
    conn_in w' = conn_in w /\ conn_room w' = None /\
    conn_closed w' = conn_closed w /\ conn_close_err w' = conn_close_err w.
Proof.
  intros Ht (Hbody & Hmax & Hwrap) Hroom. unfold handleRecord.
  rewrite handleRecord_greeting.
  rewrite Ht. change (FCGIStdin =? FCGIBeginRequest) with false.
  change (FCGIStdin =? FCGIParams) with false.
  change (FCGIStdin =? FCGIStdin) with true. cbn iota.
  rewrite (bind_Done _ _ _ _ _ (parseStdin_eq record _)). rewrite bind_log.
  set (w0 := add_log _ LogReceivedStdin).
  destruct (sendResponse_unbounded (RequestID record) (BodySize args)
              (WriteEachRecord args) (MaxContentSize args) w0 Hroom Hbody Hmax Hwrap)
    as (w1 & HS & Hout & Hin & Hr & Hcl & Hce).
  rewrite (bind_Done _ _ _ _ _ HS). rewrite bind_log.
  destruct (default false (t !! RequestID record)).
  - rewrite bind_log. eexists. split; [reflexivity|].
    cbn. repeat split; assumption.
  - rewrite bind_log. eexists. split; [reflexivity|].
    cbn. repeat split; assumption.
Qed.

(** Every other record type ends the loop. *)
Lemma handleRecord_other (args : Args) (t : gmap Z bool) (record : FCGIRecord)
    (w : world) :
  RType record <> FCGIBeginRequest ->
  RType record <> FCGIParams ->
  RType record <> FCGIStdin ->
  handleRecord args t record w
  = (Done Break,
     add_log (add_log w (greeting record))
             (LogUnhandledRecordType (RType record) record)).
Proof.
  intros H1 H2 H3. unfold handleRecord.
  rewrite handleRecord_greeting.
  apply Z.eqb_neq in H1, H2, H3. rewrite H1, H2, H3. reflexivity.
Qed.

(** The same for any amount of room: the response is offered to the
    transport, and when the peer does not take all of it the loop ends. *)
Lemma handleRecord_stdin_room (args : Args) (t : gmap Z bool) (record : FCGIRecord)
    (w : world) :
  RType record = FCGIStdin ->
  sendable args ->
  let bytes := responseBytes (RequestID record) (BodySize args) (MaxContentSize args) in
  exists (f : flow) (w' : world),
    handleRecord args t record w = (Done f, w') /\
    wrote w w' bytes /\
    (fits (conn_room w) (length bytes) ->
     f = if default false (t !! RequestID record) then Break
         else Continue (delete (RequestID record) t)) /\
    (~ fits (conn_room w) (length bytes) -> f = Break).
Proof.
  intros Ht (Hbody & Hmax & Hwrap) bytes. unfold handleRecord.
  rewrite handleRecord_greeting.
  rewrite Ht. change (FCGIStdin =? FCGIBeginRequest) with false.
  change (FCGIStdin =? FCGIParams) with false.
  change (FCGIStdin =? FCGIStdin) with true. cbn iota.
  rewrite (bind_Done _ _ _ _ _ (parseStdin_eq record _)). rewrite bind_log.
  set (w0 := add_log _ LogReceivedStdin).
  destruct (sendResponse_spec (RequestID record) (BodySize args)
              (WriteEachRecord args) (MaxContentSize args) w0 Hbody Hmax Hwrap)
    as (err & w1 & HS & Hwr & Hfit & Hno).
  fold (responseBytes (RequestID record) (BodySize args) (MaxContentSize args))
    in Hwr, Hfit, Hno.
  fold bytes in Hwr, Hfit, Hno.
  rewrite (bind_Done _ _ _ _ _ HS).
  assert (Hq0 : quiet w w0).
  { eapply quiet_trans; [apply quiet_log|].
    eapply quiet_trans; [apply quiet_log|apply quiet_log]. }
  assert (Hwr' : wrote w w1 bytes) by (apply (wrote_quiet_l w w0 w1); assumption).
  change (conn_room w0) with (conn_room w) in Hfit, Hno.
  destruct (fits_dec (conn_room w) (length bytes)) as [Hf|Hnf].
  - destruct (Hfit Hf) as [-> _]. rewrite bind_log.
    destruct (default false (t !! RequestID record)); rewrite bind_log;
      (eexists _, _; split; [reflexivity|]; split;
       [apply (wrote_quiet_r w w1); [exact Hwr'|];
        eapply quiet_trans; apply quiet_log
       |split; [intros _; reflexivity|tauto]]).
  - destruct (Hno Hnf) as [e ->]. rewrite bind_log.
    eexists _, _. split; [reflexivity|]. split.
    + apply (wrote_quiet_r w w1); [exact Hwr'|apply quiet_log].
    + split; [tauto|intros _; reflexivity].
Qed.

(** ** Traces *)

Lemma decoded_len (r : FCGIRecord) : decoded r -> len (ContentData r) < 2 ^ 62.
Proof. intros (_ & _ & _ & Hcl & Hb & _). rewrite <- Hcl. pow2. lia. Qed.

(** A turn that continues has not touched the input beyond the record. *)
Lemma handleRecord_continue_in (args : Args) (t t' : gmap Z bool)
    (record : FCGIRecord) (w w' : world) :
  decoded record ->
  sendable args ->
  handleRecord args t record w = (Done (Continue t'), w') ->
  conn_in w' = conn_in w /\ conn_closed w' = conn_closed w /\
  (conn_room w = None -> conn_room w' = None).
Proof.
  intros Hd Hs H.
  destruct (Z.eq_dec (RType record) FCGIBeginRequest) as [Hb|Hnb].
  { destruct (handleRecord_begin_inv args t t' record w w' Hb H)
      as (c0 & c1 & c2 & tail & _ & _ & _ & ->).
    repeat split. intros Hr. exact Hr. }
  destruct (Z.eq_dec (RType record) FCGIParams) as [Hp|Hnp].
  { destruct (handleRecord_params args t record w Hp (decoded_len _ Hd))
      as (w1 & (A1 & A2 & A3 & A4 & A5) & [HP|[p HP]]); rewrite HP in H;
      [|discriminate].
    injection H as _ <-. repeat split; congruence. }
  destruct (Z.eq_dec (RType record) FCGIStdin) as [Hi|Hni].
  { destruct (handleRecord_stdin_room args t record w Hi Hs)
      as (f & w1 & HR & (A1 & A2 & A3 & A4 & A5) & _).
    rewrite HR in H. injection H as _ <-. repeat split; try assumption.
    intros Hr. rewrite A5, Hr. reflexivity. }
  rewrite (handleRecord_other args t record w Hnb Hnp Hni) in H. discriminate.
Qed.

(** A turn that continues has taken a whole record, eight bytes or more,
    from the input. *)
Lemma turn_pending (args : Args) (t t' : gmap Z bool) (record : FCGIRecord)
    (w w' : world) :
  sendable args ->
  turn args t w record t' w' ->
  decoded record /\ (pending w' + 8 <= pending w)%nat /\
  (conn_room w = None -> conn_room w' = None).
Proof.
  intros Hs (w0 & HR & HH).
  destruct (readRecord_inv w) as (res & w0' & HR' & Hw0 & Hspec).
  rewrite HR in HR'. injection HR' as <- <-.
  destruct Hspec as [Hd (hdr & Hlen & Hcat)].
  destruct (handleRecord_continue_in args t t' record w0 w' Hd Hs HH) as (Hin & _ & Hroom).
  split; [exact Hd|]. split.
  - unfold pending. rewrite Hin, Hcat, !length_app. lia.
  - intros Hr. apply Hroom. rewrite Hw0. exact Hr.
Qed.

Lemma reads_pending (args : Args) (t t' : gmap Z bool) (records : list FCGIRecord)
    (w w' : world) :
  sendable args ->
  reads args t w records t' w' ->
  (pending w' + 8 * length records <= pending w)%nat /\
  (conn_room w = None -> conn_room w' = None).
Proof.
  intros Hs H. induction H as [t w|t w r t1 w1 rs t2 w2 Hturn Hreads IH].
  - simpl. split; [lia|auto].
  - destruct (turn_pending args t t1 r w w1 Hs Hturn) as (_ & Hp & Hr).
    destruct IH as [IHp IHr]. cbn [length]. split; [lia|auto].
Qed.

Lemma loopBody_turn (args : Args) (t t' : gmap Z bool) (record : FCGIRecord)
    (w w' : world) :
  turn args t w record t' w' -> loopBody args t w = (Done (Continue t'), w').
Proof.
  intros (w0 & HR & HH). unfold loopBody. rewrite (bind_Done _ _ _ _ _ HR). exact HH.
Qed.

(** The loop follows a trace: after the turns of the trace it goes on from
    where the trace ends. *)
Lemma reads_loop (args : Args) (t t' : gmap Z bool) (records : list FCGIRecord)
    (w w' : world) :
  reads args t w records t' w' ->
  forall fuel : nat,
    handleConnection_loop (length records + fuel) args t w
    = handleConnection_loop fuel args t' w'.
Proof.
  intros H. induction H as [t w|t w r t1 w1 rs t2 w2 Hturn Hreads IH]; intros fuel.
  - reflexivity.
  - cbn [length Nat.add handleConnection_loop].
    rewrite (bind_Done _ _ _ _ _ (loopBody_turn _ _ _ _ _ _ Hturn)). apply IH.
Qed.

Lemma reads_app (args : Args) (t1 t2 t3 : gmap Z bool) (r1 r2 : list FCGIRecord)
    (w1 w2 w3 : world) :
  reads args t1 w1 r1 t2 w2 -> reads args t2 w2 r2 t3 w3 ->
  reads args t1 w1 (r1 ++ r2) t3 w3.
Proof.
  intros H1 H2. induction H1; [exact H2|].
  cbn [app]. econstructor; [eassumption|]. apply IHreads. exact H2.
Qed.

(** The world in which [handleConnection] leaves a connection whose loop
    ended in [w]. *)
Lemma handleConnection_break (args : Args) (t : gmap Z bool)
    (records : list FCGIRecord) (w0 w w' : world) :
  sendable args ->
  reads args ∅ (add_log w0 LogNewConnection) records t w ->
  loopBody args t w = (Done Break, w') ->
  exists wf,
    handleConnection args w0 = (Done tt, wf) /\
    conn_closed wf = true /\ conn_in wf = conn_in w' /\ conn_out wf = conn_out w'.
Proof.
  intros Hs Hreads Hbreak. unfold handleConnection. rewrite bind_log.
  set (w1 := add_log w0 LogNewConnection) in *.
  destruct (reads_pending args _ _ _ _ _ Hs Hreads) as [Hp _].
  unfold bind at 1.
  replace (S (pending w1)) with (length records + S (pending w1 - length records))%nat
    by lia.
  rewrite (reads_loop args _ _ _ _ _ Hreads).
  cbn [handleConnection_loop]. rewrite (bind_Done _ _ _ _ _ Hbreak).
  unfold ret at 1. unfold bind at 1, Close.
  destruct (conn_close_err w') as [e|]; eexists; (split; [reflexivity|]);
    repeat split.
Qed.

Lemma readRecord_closed (w w' : world) (r : res FCGIRecord) :
  readRecord w = (Done r, w') ->
  conn_closed w' = conn_closed w /\ conn_out w' = conn_out w /\
  conn_room w' = conn_room w.
Proof.
  intros H. destruct (readRecord_inv w) as (r0 & w0 & H0 & Hw & _).
  rewrite H in H0. injection H0 as <- <-. rewrite Hw. repeat split.
Qed.

Lemma turn_closed (args : Args) (t t' : gmap Z bool) (record : FCGIRecord)
    (w w' : world) :
  sendable args -> turn args t w record t' w' -> conn_closed w' = conn_closed w.
Proof.
  intros Hs Hturn. destruct (turn_pending args t t' record w w' Hs Hturn) as (Hd & _).
  destruct Hturn as (w0 & HR & HH).
  destruct (handleRecord_continue_in args t t' record w0 w' Hd Hs HH) as (_ & Hc & _).
  destruct (readRecord_closed w w0 _ HR) as (Hc0 & _). congruence.
Qed.

Lemma reads_closed (args : Args) (t t' : gmap Z bool) (records : list FCGIRecord)
    (w w' : world) :
  sendable args -> reads args t w records t' w' -> conn_closed w' = conn_closed w.
Proof.
  intros Hs H. induction H as [t w|t w r t1 w1 rs t2 w2 Hturn Hreads IH];
    [reflexivity|].
  rewrite IH. apply (turn_closed args t t1 r w w1 Hs Hturn).
Qed.

(** The entry of a request id changes only in turns that read a
    BeginRequest or a Stdin record of that id. *)
Lemma turn_keeps_entry (args : Args) (t t' : gmap Z bool) (record : FCGIRecord)
    (w w' : world) (id : Z) :
  sendable args ->
  turn args t w record t' w' ->
  (RequestID record = id ->
   RType record <> FCGIBeginRequest /\ RType record <> FCGIStdin) ->
  t' !! id = t !! id.
Proof.
  intros Hs Hturn Hid.
  destruct (turn_pending args t t' record w w' Hs Hturn) as (Hd & _).
  destruct Hturn as (w0 & HR & HH).
  destruct (Z.eq_dec (RType record) FCGIBeginRequest) as [Hb|Hnb].
  { destruct (handleRecord_begin_inv args t t' record w0 w' Hb HH)
      as (c0 & c1 & c2 & tail & _ & _ & -> & _).
    apply lookup_insert_ne. intros Heq. destruct (Hid Heq) as [Hno _]. tauto. }
  destruct (Z.eq_dec (RType record) FCGIParams) as [Hp|Hnp].
  { destruct (handleRecord_params args t record w0 Hp (decoded_len _ Hd))
      as (w1 & _ & [HP|[p HP]]); rewrite HP in HH; [|discriminate].
    injection HH as <- _. reflexivity. }
  destruct (Z.eq_dec (RType record) FCGIStdin) as [Hi|Hni].
  { destruct (handleRecord_stdin_room args t record w0 Hi Hs)
      as (f & w1 & HS & _ & Hfit & Hno).
    rewrite HS in HH. injection HH as -> _.
    destruct (fits_dec (conn_room w0)
                (length (responseBytes (RequestID record) (BodySize args)
                           (MaxContentSize args)))) as [Hf|Hnf].
    - specialize (Hfit Hf).
      destruct (default false (t !! RequestID record)); [discriminate|].
      injection Hfit as ->. apply lookup_delete_ne.
      intros Heq. destruct (Hid Heq) as [_ Hno']. tauto.
    - specialize (Hno Hnf). discriminate. }
  rewrite (handleRecord_other args t record w0 Hnb Hnp Hni) in HH. discriminate.
Qed.

Lemma reads_keeps_entry (args : Args) (t t' : gmap Z bool)
    (records : list FCGIRecord) (w w' : world) (id : Z) :
  sendable args ->
  reads args t w records t' w' ->
  Forall (fun r => RequestID r = id ->
                   RType r <> FCGIBeginRequest /\ RType r <> FCGIStdin) records ->
  t' !! id = t !! id.
Proof.
  intros Hs H. induction H as [t w|t w r t1 w1 rs t2 w2 Hturn Hreads IH]; intros HF.
  - reflexivity.
  - apply Forall_cons in HF as [Hr HF]. rewrite (IH HF).
    apply (turn_keeps_entry args t t1 r w w1 id Hs Hturn Hr).
Qed.

(** A BeginRequest record for the Responder role that arrives whole is a
    turn of the loop, whatever its request id and whatever the table
    holds. *)
Lemma turn_begin (args : Args) (t : gmap Z bool) (w : world) (next : FCGIRecord)
    (post : list byte) (rest : list (list byte)) (c0 c1 c2 : byte)
    (tail : list byte) :
  decoded next ->
  RType next = FCGIBeginRequest ->
  ContentData next = c0 :: c1 :: c2 :: tail ->
  b2z c0 * 256 + b2z c1 = FCGIResponder ->
  conn_in w = push (wire next ++ post) rest ->
  exists w', turn args t w next (<[RequestID next := Z.testbit (b2z c2) 0]> t) w'.
Proof.
  intros Hd Ht Hc Hrole Hin. eexists. unfold turn. eexists. split.
  - apply (readRecord_wire next w post rest Hd Hin).
  - apply (handleRecord_begin args t next _ c0 c1 c2 tail Ht Hc Hrole).
Qed.

(** C7, as amended. Take a turn of the loop that reads a BeginRequest
    record for some request id, then any turns that read neither a
    BeginRequest nor a Stdin record of that id, then a Stdin record of
    that id, on a transport that takes every write. The response for the
    id is written. If bit 0 of the flags byte of that BeginRequest record
    is set, the loop ends there, without another read, and
    [handleConnection] closes the connection. If it is clear, the entry
    of the id is removed, the connection is as open as before and the
    loop goes on reading; a BeginRequest record that arrives next, with
    the same or another request id, is taken as a further turn. *)
Theorem close_after_request (args : Args) (t t1 t2 : gmap Z bool)
    (w w1 w2 w3 : world) (begin stdin : FCGIRecord) (mid : list FCGIRecord) :
  sendable args ->
  conn_room w = None ->
  RType begin = FCGIBeginRequest ->
  turn args t w begin t1 w1 ->
  reads args t1 w1 mid t2 w2 ->
  Forall (fun r => RequestID r = RequestID begin ->
                   RType r <> FCGIBeginRequest /\ RType r <> FCGIStdin) mid ->
  readRecord w2 = (Done (Ok stdin), w3) ->
  RType stdin = FCGIStdin ->
  RequestID stdin = RequestID begin ->
  exists (flags : byte) (w4 : world),
    ContentData begin !! 2%nat = Some flags /\
    conn_out w4 = conn_out w3 ++ responseWrites args (RequestID begin) /\
    conn_in w4 = conn_in w3 /\
    if Z.testbit (b2z flags) 0
    then
      loopBody args t2 w2 = (Done Break, w4) /\
      (forall fuel, handleConnection_loop (S fuel) args t2 w2 = (Done tt, w4)) /\
      (forall (w0 : world) (pre : list FCGIRecord),
         reads args ∅ (add_log w0 LogNewConnection) pre t w ->
         exists wf,
           handleConnection args w0 = (Done tt, wf) /\
           conn_closed wf = true /\ conn_in wf = conn_in w3 /\
           conn_out wf = conn_out w4)
    else
      turn args t2 w2 stdin (delete (RequestID begin) t2) w4 /\
      delete (RequestID begin) t2 !! RequestID begin = None /\
      conn_closed w4 = conn_closed w /\
      (forall fuel,
         handleConnection_loop (S fuel) args t2 w2
         = handleConnection_loop fuel args (delete (RequestID begin) t2) w4) /\
      (forall (next : FCGIRecord) (post : list byte) (rest : list (list byte))
              (c0 c1 c2 : byte) (tail : list byte),
         decoded next ->
         RType next = FCGIBeginRequest ->
         ContentData next = c0 :: c1 :: c2 :: tail ->
         b2z c0 * 256 + b2z c1 = FCGIResponder ->
         conn_in w4 = push (wire next ++ post) rest ->
         exists w5,
           turn args (delete (RequestID begin) t2) w4 next
                (<[RequestID next := Z.testbit (b2z c2) 0]>
                   (delete (RequestID begin) t2)) w5).
Proof.
  intros Hs Hroom Hb Hturn Hreads Hmid Hread Hi Hid.
  pose proof Hturn as (w0 & HR0 & HH0).
  destruct (handleRecord_begin_inv args t t1 begin w0 w1 Hb HH0)
    as (c0 & c1 & flags & tail & Hc & _ & Ht1 & _).
  assert (Hentry : t2 !! RequestID begin = Some (Z.testbit (b2z flags) 0)).
  { rewrite (reads_keeps_entry args t1 t2 mid w1 w2 _ Hs Hreads Hmid), Ht1.
    apply lookup_insert_eq. }
  destruct (turn_pending args t t1 begin w w1 Hs Hturn) as (_ & _ & Hroom1).
  destruct (reads_pending args t1 t2 mid w1 w2 Hs Hreads) as (_ & Hroom2).
  destruct (readRecord_closed w2 w3 _ Hread) as (Hcl3 & _ & Hroom3).
  assert (Hr3 : conn_room w3 = None) by (rewrite Hroom3; auto).
  destruct (handleRecord_stdin args t2 stdin w3 Hi Hs Hr3)
    as (w4 & HH & Hout & Hin & _ & Hcl4 & _).
  rewrite Hid in HH, Hout. rewrite Hentry in HH. cbn [default] in HH.
  assert (Hbody : loopBody args t2 w2
                  = (Done (if Z.testbit (b2z flags) 0 then Break
                           else Continue (delete (RequestID begin) t2)), w4)).
  { unfold loopBody. rewrite (bind_Done _ _ _ _ _ Hread). exact HH. }
  exists flags, w4. split; [rewrite Hc; reflexivity|].
  split; [exact Hout|]. split; [exact Hin|].
  destruct (Z.testbit (b2z flags) 0).
  - split; [exact Hbody|]. split.
    + intros fuel. cbn [handleConnection_loop].
      rewrite (bind_Done _ _ _ _ _ Hbody). reflexivity.
    + intros wi pre Hpre.
      destruct (handleConnection_break args t2 (pre ++ begin :: mid) wi w2 w4 Hs)
        as (wf & Hf & Hclosed & Hinf & Houtf).
      * apply (reads_app args _ t _ pre (begin :: mid) _ w _ Hpre).
        econstructor; eassumption.
      * exact Hbody.
      * exists wf. repeat split; congruence.
  - assert (Hturn2 : turn args t2 w2 stdin (delete (RequestID begin) t2) w4).
    { exists w3. split; assumption. }
    split; [exact Hturn2|]. split; [apply lookup_delete_eq|]. split.
    + rewrite Hcl4, Hcl3, (reads_closed args t1 t2 mid w1 w2 Hs Hreads).
      apply (turn_closed args t t1 begin w w1 Hs Hturn).
    + split.
      * intros fuel. cbn [handleConnection_loop].
        rewrite (bind_Done _ _ _ _ _ Hbody). reflexivity.
      * intros next post rest d0 d1 d2 dtail Hd Hnb Hnc Hrole Hnin.
        apply (turn_begin args _ w4 next post rest d0 d1 d2 dtail); assumption.
Qed.

Lemma sendable_smallArgs (writeEachRecord : bool) : sendable (smallArgs writeEachRecord).
Proof. unfold sendable, smallArgs. cbn. pow2. lia. Qed.

Lemma close_after_request_witness :
  let w0 := connection [wire (beginRecord 1 x01) ++ wire (stdinRecord 1) ++ [xff]] None in
  exists wf,
    handleConnection (smallArgs true) w0 = (Done tt, wf) /\
    conn_closed wf = true /\ conn_in wf = [[xff]].
Proof.
  intros w0.
  set (args := smallArgs true).
  set (w := add_log w0 LogNewConnection).
  assert (Hturn : turn args ∅ w (beginRecord 1 x01) (<[1 := true]> ∅)
                       (snd (loopBody args ∅ w))).
  { exists (snd (readRecord w)). split; vm_compute; reflexivity. }
  assert (Hread : readRecord (snd (loopBody args ∅ w))
                  = (Done (Ok (stdinRecord 1)), snd (readRecord (snd (loopBody args ∅ w)))))
    by (vm_compute; reflexivity).
  destruct (close_after_request args ∅ _ _ w _ _ _ (beginRecord 1 x01) (stdinRecord 1) []
              (sendable_smallArgs true) eq_refl eq_refl Hturn
              (reads_nil _ _ _) ltac:(constructor) Hread eq_refl eq_refl)
    as (flags & w4 & Hfl & _ & _ & Hif).
  injection Hfl as <-.
  change (Z.testbit (b2z x01) 0) with true in Hif. cbn iota in Hif.
  destruct Hif as (_ & _ & Hclose).
  destruct (Hclose w0 [] (reads_nil _ _ _)) as (wf & Hf & Hc & Hi & _).
  exists wf. split; [exact Hf|]. split; [exact Hc|]. rewrite Hi.
  vm_compute. reflexivity.
Defined.

(** C7, counterexample to the specification as written. The peer sends BeginRequest for id 1
    with bit 0 of the flags set, then BeginRequest for id 1 again with
    the bit clear, then Stdin for id 1, then one more byte. A BeginRequest
    record for id 1 carried the bit and a response for id 1 is served
    afterwards, yet the turn that serves it continues: the loop reads
    again (the last byte is taken by that read) before the connection is
    closed. *)
Lemma close_after_request_counterexample :
  let args := smallArgs false in
  let w := connection [wire (beginRecord 1 x01) ++ wire (beginRecord 1 x00)
                       ++ wire (stdinRecord 1) ++ [xff]] None in
  let w1 := snd (loopBody args ∅ w) in
  let w2 := snd (loopBody args {[1 := true]} w1) in
  let w3 := snd (loopBody args {[1 := false]} w2) in
  fst (loopBody args ∅ w) = Done (Continue {[1 := true]}) /\
  fst (loopBody args {[1 := true]} w1) = Done (Continue {[1 := false]}) /\
  fst (loopBody args {[1 := false]} w2) = Done (Continue ∅) /\
  conn_out w3 = responseWrites args 1 /\
  conn_closed w3 = false /\
  conn_in w3 = [[xff]] /\
  conn_in (snd (handleConnection args w)) = [].
Proof. repeat split; vm_compute; reflexivity. Qed.

Lemma responseRecords_eq (requestID bodySize maxContentSize : Z) :
  responseRecords requestID bodySize maxContentSize
  = map (literal FCGIStdout requestID)
        (chunks (Z.to_nat maxContentSize) (payloadOf bodySize))
    ++ [literal FCGIStdout requestID [];
        literal FCGIEndRequest requestID [x00; x00; x00; x00; x00; x00; x00; x00]].
Proof. unfold responseRecords, streamRecords. rewrite <- app_assoc. reflexivity. Qed.

(** C10. On a transport that takes every write, a Stdin record whose
    request id has no entry in the table is answered like any other: the
    Stdout records of the payload, the empty Stdout record and the
    EndRequest record for that id are written, the loop continues with the
    table as it was, and the connection is not closed. A second Stdin
    record of that id is answered again. The entry is also missing after
    a response that found it with the flag clear, and on a connection
    whose first record is the Stdin record. *)
Theorem stdin_without_entry (args : Args) (t : gmap Z bool) (record : FCGIRecord)
    (w : world) :
  RType record = FCGIStdin ->
  t !! RequestID record = None ->
  sendable args ->
  conn_room w = None ->
  let id := RequestID record in
  responseRecords id (BodySize args) (MaxContentSize args)
  = map (literal FCGIStdout id)
        (chunks (Z.to_nat (MaxContentSize args)) (payloadOf (BodySize args)))
    ++ [literal FCGIStdout id [];
        literal FCGIEndRequest id [x00; x00; x00; x00; x00; x00; x00; x00]]
  /\
  (exists w',
     handleRecord args t record w = (Done (Continue t), w') /\
     conn_out w' = conn_out w ++ responseWrites args id /\
     conn_in w' = conn_in w /\ conn_closed w' = conn_closed w /\
     forall again : FCGIRecord,
       RType again = FCGIStdin -> RequestID again = id ->
       exists w'',
         handleRecord args t again w' = (Done (Continue t), w'') /\
         conn_out w'' = conn_out w' ++ responseWrites args id /\
         conn_closed w'' = conn_closed w)
  /\
  (forall t0 : gmap Z bool,
     t0 !! id = Some false ->
     exists w',
       handleRecord args t0 record w = (Done (Continue (delete id t0)), w') /\
       delete id t0 !! id = None)
  /\
  (forall (post : list byte) (rest : list (list byte)),
     decoded record ->
     conn_in w = push (wire record ++ post) rest ->
     exists w',
       loopBody args ∅ w = (Done (Continue ∅), w') /\
       conn_out w' = conn_out w ++ responseWrites args id /\
       conn_in w' = push post rest /\ conn_closed w' = conn_closed w).
Proof.
  intros Ht Hnone Hs Hroom id. subst id. split; [apply responseRecords_eq|]. split; [|split].
  - destruct (handleRecord_stdin args t record w Ht Hs Hroom)
      as (w' & HH & Hout & Hin & Hr & Hcl & _).
    rewrite Hnone in HH. cbn [default] in HH.
    rewrite (delete_id t _ Hnone) in HH.
    exists w'. repeat split; try assumption.
    intros again Hta Hida.
    destruct (handleRecord_stdin args t again w' Hta Hs Hr)
      as (w'' & HH2 & Hout2 & _ & _ & Hcl2 & _).
    rewrite Hida in HH2, Hout2. rewrite Hnone in HH2. cbn [default] in HH2.
    rewrite (delete_id t _ Hnone) in HH2.
    exists w''. repeat split; congruence.
  - intros t0 Ht0.
    destruct (handleRecord_stdin args t0 record w Ht Hs Hroom) as (w' & HH & _).
    rewrite Ht0 in HH. cbn [default] in HH.
    exists w'. split; [exact HH|apply lookup_delete_eq].
  - intros post rest Hd Hin.
    pose proof (readRecord_wire record w post rest Hd Hin) as HR.
    destruct (handleRecord_stdin args ∅ record (set_in w (push post rest)) Ht Hs Hroom)
      as (w' & HH & Hout & Hin' & _ & Hcl & _).
    rewrite lookup_empty in HH. cbn [default] in HH.
    rewrite delete_empty in HH.
    exists w'. split.
    + unfold loopBody. rewrite (bind_Done _ _ _ _ _ HR). exact HH.
    + repeat split; assumption.
Qed.

Lemma stdin_without_entry_witness :
  exists w',
    handleRecord (smallArgs true) ∅ (stdinRecord 7) (connection [] None)
    = (Done (Continue ∅), w') /\
    conn_out w' = responseWrites (smallArgs true) 7.
Proof.
  destruct (stdin_without_entry (smallArgs true) ∅ (stdinRecord 7) (connection [] None)
              eq_refl (lookup_empty _) (sendable_smallArgs true) eq_refl)
    as (_ & (w' & HH & Hout & _) & _).
  exists w'. split; [exact HH|exact Hout].
Defined.

(** C1, as amended. A record whose request id is 0 is announced as a
    management record and then handled by its type alone, as any other
    record is. A Params record with id 0 leaves the table and the
    transport alone and the loop continues (or its content makes the
    decoder panic). A BeginRequest record with id 0 for the Responder
    role stores its flag under id 0 and the loop continues; nothing is
    written. A Stdin record with id 0 is answered with a response for
    id 0. A record of any other type, GetValues included, ends the loop;
    nothing is written. *)
Theorem management_record_dispatch (args : Args) (t : gmap Z bool)
    (record : FCGIRecord) (w : world) :
  RequestID record = 0 ->
  decoded record ->
  sendable args ->
  conn_room w = None ->
  greeting record = LogManagementRecord /\
  (RType record = FCGIParams ->
   exists w', quiet w w' /\
     (handleRecord args t record w = (Done (Continue t), w') \/
      exists p, handleRecord args t record w = (Panic p, w')))
  /\
  (RType record = FCGIBeginRequest ->
   forall (c0 c1 c2 : byte) (tail : list byte),
     ContentData record = c0 :: c1 :: c2 :: tail ->
     b2z c0 * 256 + b2z c1 = FCGIResponder ->
     exists w', quiet w w' /\
       handleRecord args t record w
       = (Done (Continue (<[0 := Z.testbit (b2z c2) 0]> t)), w') /\
       (<[0 := Z.testbit (b2z c2) 0]> t) !! 0 = Some (Z.testbit (b2z c2) 0))
  /\
  (RType record = FCGIStdin ->
   exists w',
     handleRecord args t record w
     = (Done (if default false (t !! 0) then Break else Continue (delete 0 t)), w') /\
     conn_out w' = conn_out w ++ responseWrites args 0)
  /\
  (RType record <> FCGIParams -> RType record <> FCGIBeginRequest ->
   RType record <> FCGIStdin ->
   exists w', quiet w w' /\ handleRecord args t record w = (Done Break, w')).
Proof.
  intros Hid Hd Hs Hroom. split; [|split; [|split; [|split]]].
  - unfold greeting. rewrite Hid. reflexivity.
  - intros Ht. apply handleRecord_params; [exact Ht|apply decoded_len, Hd].
  - intros Ht c0 c1 c2 tail Hc Hrole.
    rewrite (handleRecord_begin args t record w c0 c1 c2 tail Ht Hc Hrole), Hid.
    eexists. split; [|split; [reflexivity|apply lookup_insert_eq]].
    eapply quiet_trans; apply quiet_log.
  - intros Ht.
    destruct (handleRecord_stdin args t record w Ht Hs Hroom) as (w' & HH & Hout & _).
    rewrite Hid in HH, Hout. exists w'. split; assumption.
  - intros Hnp Hnb Hni. rewrite (handleRecord_other args t record w Hnb Hnp Hni).
    eexists. split; [|reflexivity]. eapply quiet_trans; apply quiet_log.
Qed.

Lemma management_record_dispatch_witness :
  exists w',
    handleRecord (smallArgs true) ∅ (stdinRecord 0) (connection [] None)
    = (Done (Continue ∅), w') /\
    conn_out w' = responseWrites (smallArgs true) 0.
Proof.
  destruct (management_record_dispatch (smallArgs true) ∅ (stdinRecord 0)
              (connection [] None) eq_refl
              ltac:(vm_compute; intuition discriminate)
              (sendable_smallArgs true) eq_refl)
    as (_ & _ & _ & Hstdin & _).
  destruct (Hstdin eq_refl) as (w' & HH & Hout).
  exists w'. split; [|exact Hout].
  rewrite HH. vm_compute. reflexivity.
Defined.

(** C1, counterexample to the specification as written. Three records with request id 0, each
    handled from an empty table on a fresh connection: the Stdin record is
    answered with a response (bytes are written); the BeginRequest record
    puts an entry for id 0 into the table; the GetValues record ends the
    loop. On the wire, the Stdin record alone makes [handleConnection]
    write the response for id 0. *)
Lemma management_record_counterexample :
  let args := smallArgs true in
  let w := connection [] None in
  RequestID (stdinRecord 0) = 0 /\
  conn_out (snd (handleRecord args ∅ (stdinRecord 0) w)) = responseWrites args 0 /\
  responseWrites args 0 <> [] /\
  fst (handleRecord args ∅ (beginRecord 0 x01) w) = Done (Continue {[0 := true]}) /\
  ({[0 := true]} : gmap Z bool) !! 0 = Some true /\
  fst (handleRecord args ∅ (received FCGIGetValues 0 []) w) = Done Break /\
  conn_out (snd (handleConnection args (connection [wire (stdinRecord 0)] None)))
  = responseWrites args 0.
Proof. repeat split; vm_compute; (reflexivity || discriminate). Qed.

(** ** The fuel of the connection loop is enough *)

Lemma parseBeginRequest_returns (record : FCGIRecord) :
  parseBeginRequest record <> OutOfFuel.
Proof.
  unfold parseBeginRequest.
  destruct (index_total (ContentData record) 0) as [[c0 ->]| ->]; [|discriminate].
  cbn [bindO].
  destruct (index_total (ContentData record) (0 + 1)) as [[c1 ->]| ->]; [|discriminate].
  cbn [bindO]. destruct (getRole _ =? FCGIUnknownRole); [discriminate|].
  destruct (index_total (ContentData record) (0 + 2)) as [[c2 ->]| ->]; discriminate.
Qed.

(** Acting on a record that [readRecord] returned ends, normally or in a
    panic, and leaves the input alone. *)
Lemma handleRecord_returns (args : Args) (t : gmap Z bool) (record : FCGIRecord)
    (w : world) :
  decoded record ->
  sendable args ->
  exists (o : outcome flow) (w' : world),
    handleRecord args t record w = (o, w') /\ o <> OutOfFuel /\
    conn_in w' = conn_in w.
Proof.
  intros Hd Hs.
  destruct (Z.eq_dec (RType record) FCGIBeginRequest) as [Hb|Hnb].
  { unfold handleRecord. rewrite handleRecord_greeting.
    rewrite Hb. change (FCGIBeginRequest =? FCGIBeginRequest) with true. cbn iota.
    rewrite bind_lift. pose proof (parseBeginRequest_returns record) as Hne.
    destruct (parseBeginRequest record) as [[br|e]|p|]; [| | |congruence].
    - destruct (negb (Role br =? FCGIResponder)); rewrite bind_log;
        (eexists _, _; split; [reflexivity|]; split; [discriminate|reflexivity]).
    - rewrite bind_log.
      eexists _, _. split; [reflexivity|]. split; [discriminate|reflexivity].
    - eexists _, _. split; [reflexivity|]. split; [discriminate|reflexivity]. }
  destruct (Z.eq_dec (RType record) FCGIParams) as [Hp|Hnp].
  { destruct (handleRecord_params args t record w Hp (decoded_len _ Hd))
      as (w1 & (A1 & _) & [HP|[p HP]]); rewrite HP;
      (eexists _, _; split; [reflexivity|]; split; [discriminate|exact A1]). }
  destruct (Z.eq_dec (RType record) FCGIStdin) as [Hi|Hni].
  { destruct (handleRecord_stdin_room args t record w Hi Hs)
      as (f & w1 & HR & (A1 & _) & _).
    rewrite HR. eexists _, _. split; [reflexivity|]. split; [discriminate|exact A1]. }
  rewrite (handleRecord_other args t record w Hnb Hnp Hni).
  eexists _, _. split; [reflexivity|]. split; [discriminate|reflexivity].
Qed.

Lemma handleConnection_loop_returns (args : Args) :
  sendable args ->
  forall (fuel : nat) (t : gmap Z bool) (w : world),
    (pending w < fuel)%nat ->
    fst (handleConnection_loop fuel args t w) <> OutOfFuel.
Proof.
  intros Hs fuel. induction fuel as [|fuel IH]; intros t w Hfuel; [lia|].
  cbn [handleConnection_loop]. unfold bind at 1, loopBody.
  destruct (readRecord_inv w) as (res & w0 & HR & Hw0 & Hspec).
  rewrite (bind_Done _ _ _ _ _ HR).
  destruct res as [record|e].
  - destruct Hspec as [Hd (hdr & Hlen & Hcat)].
    destruct (handleRecord_returns args t record w0 Hd Hs) as (o & w1 & HH & Hne & Hin).
    rewrite HH. destruct o as [[t'|]|p|]; [| | |congruence].
    + apply IH. unfold pending in *. rewrite Hin.
      rewrite Hcat, !length_app in Hfuel. lia.
    + discriminate.
    + discriminate.
  - rewrite bind_log. discriminate.
Qed.

(** Whatever the peer sends, however it is cut into segments and however
    much the peer accepts, [handleConnection] ends: it returns, or the
    process panics. *)
Lemma handleConnection_returns (args : Args) (w : world) :
  sendable args -> fst (handleConnection args w) <> OutOfFuel.
Proof.
  intros Hs. unfold handleConnection. rewrite bind_log.
  set (w1 := add_log w LogNewConnection).
  unfold bind at 1.
  pose proof (handleConnection_loop_returns args Hs (S (pending w1)) ∅ w1 ltac:(lia)) as Hne.
  destruct (handleConnection_loop (S (pending w1)) args ∅ w1) as [[[]|p|] w2];
    [|discriminate|exact Hne].
  unfold bind at 1, Close. cbn.
  destruct (conn_close_err w2); discriminate.
Qed.

(** ** Sample runs *)

(** Two length bytes, then the name and the value. *)
Example parseParams_pair :
  console (snd (parseParams
                  (literal FCGIParams 1
                     ([x03; x03] ++ list_byte_of_string "foo" ++ list_byte_of_string "bar"))
                  (connection [] None)))
  = [LogNameValue (list_byte_of_string "foo") (list_byte_of_string "bar")].
Proof. vm_compute. reflexivity. Qed.

(** BeginRequest with the flag clear, empty Params and one Stdin record
    for id 1, all in one segment: the response for id 1 is written, one
    record per write, and the handler closes the connection only when the
    peer has nothing more to send. *)
Example keep_alive_request :
  let w := connection [wire (beginRecord 1 x00) ++ wire (received FCGIParams 1 [])
                       ++ wire (received FCGIStdin 1 [x68; x69])] None in
  let wf := snd (handleConnection (smallArgs true) w) in
  fst (handleConnection (smallArgs true) w) = Done tt /\
  conn_out wf = map serialize
                    [literal FCGIStdout 1 (headers ++ [x61]);
                     literal FCGIStdout 1 [];
                     literal FCGIEndRequest 1 (replicate 8 x00)] /\
  conn_closed wf = true /\
  last (console wf) = Some LogConnectionClosed /\
  In (LogReadingRecord (ErrReadingHeader EOF)) (console wf).
Proof.
  repeat split; try (vm_compute; reflexivity).
  vm_compute. tauto.
Qed.

(** * Further properties *)

(** ** Reading records *)

(** X1. On any input [readRecord] returns: it never panics. What it
    returns as a record has version 1, a type from 1 to 10, a 16-bit
    request id, no reserved bits, and content and padding of exactly the
    lengths in its header. Only the input queue is touched: nothing is
    written, printed or closed. *)
Theorem readRecord_result_well_formed (w : world) :
  exists (res : res FCGIRecord) (w' : world),
    readRecord w = (Done res, w') /\
    conn_out w' = conn_out w /\ conn_room w' = conn_room w /\
    conn_closed w' = conn_closed w /\ console w' = console w /\
    match res with
    | Ok r =>
      Version r = 1 /\ 1 <= RType r <= 10 /\ 0 <= RequestID r <= 65535 /\
      Reserved r = 0 /\
      0 <= ContentLength r <= 65535 /\ len (ContentData r) = ContentLength r /\
      0 <= PaddingLength r <= 255 /\ len (PaddingData r) = PaddingLength r
    | Err _ => True
    end.
Proof.
  destruct (readRecord_inv w) as (res & w' & HR & Hw & Hspec).
  exists res, w'. split; [exact HR|]. rewrite Hw. cbn.
  repeat split.
  destruct res as [r|e]; [|exact I].
  destruct Hspec as [(Hv & Ht & Hid & Hcl & Hclb & Hpl & Hplb & Hres) _].
  pose proof (len_nonneg (ContentData r)). pose proof (len_nonneg (PaddingData r)).
  repeat split; lia.
Qed.

(** X2. A record that arrives whole in one segment, its eight header
    bytes in wire order, then its content, then its padding, is read as
    that record, whatever follows it in the segment and in later
    segments; what follows stays pending. *)
Theorem readRecord_padded_roundtrip (r : FCGIRecord) (w : world)
    (post : list byte) (rest : list (list byte)) :
  decoded r ->
  readRecord (set_in w ((wire r ++ post) :: rest))
  = (Done (Ok r), set_in w (push post rest)).
Proof.
  intros Hd.
  rewrite (readRecord_wire r (set_in w ((wire r ++ post) :: rest)) post rest Hd).
  - reflexivity.
  - reflexivity.
Qed.

Lemma readRecord_padded_roundtrip_witness :
  readRecord (set_in (connection [] None)
                [[x01; x05; x00; x07; x00; x02; x03; x00; x68; x69; x00; x00; x00; xaa];
                 [xbb]])
  = (Done (Ok {| Version := 1; RType := 5; RequestID := 7; ContentLength := 2;
                 PaddingLength := 3; Reserved := 0; ContentData := [x68; x69];
                 PaddingData := [x00; x00; x00] |}),
     set_in (connection [] None) [[xaa]; [xbb]]).
Proof.
  apply (readRecord_padded_roundtrip
           {| Version := 1; RType := 5; RequestID := 7; ContentLength := 2;
              PaddingLength := 3; Reserved := 0; ContentData := [x68; x69];
              PaddingData := [x00; x00; x00] |}
           (connection [] None) [xaa] [[xbb]]).
  vm_compute. intuition discriminate.
Defined.

(** X3. The header checks of [readRecord], in the order in which they are
    made, for a header that arrives whole: a version byte other than 1 is
    an unexpected-version error, whatever the rest of the header says;
    with version 1, a type byte outside 1..10 is an unknown-record-type
    error; with both in order, a nonzero last header byte is a
    reserved-value error. Each of them leaves everything after the eight
    header bytes pending. *)
Theorem readRecord_header_checks (w : world) (h0 h1 h2 h3 h4 h5 h6 h7 : byte)
    (tail : list byte) (rest : list (list byte)) :
  conn_in w = ([h0; h1; h2; h3; h4; h5; h6; h7] ++ tail) :: rest ->
  (b2z h0 <> 1 ->
   readRecord w = (Done (Err (ErrUnexpectedVersion h0)), set_in w (push tail rest)))
  /\
  (b2z h0 = 1 -> ~ 1 <= b2z h1 <= 10 ->
   readRecord w = (Done (Err (ErrUnknownRecordType h1)), set_in w (push tail rest)))
  /\
  (b2z h0 = 1 -> 1 <= b2z h1 <= 10 -> b2z h7 <> 0 ->
   readRecord w = (Done (Err (ErrReservedNotZero h7)), set_in w (push tail rest))).
Proof.
  intros Hin.
  assert (Hstart : forall k : list byte * option error -> M (res FCGIRecord),
            bind (lift (make 8)) (fun header => bind (readFull header) k) w
            = k ([h0; h1; h2; h3; h4; h5; h6; h7], None) (set_in w (push tail rest))).
  { intros k. rewrite bind_lift. change (make 8) with (Done (replicate 8 x00)).
    cbn beta iota.
    rewrite (bind_Done _ _ _ _ _
               (readFull_push (replicate 8 x00) w [h0; h1; h2; h3; h4; h5; h6; h7]
                  tail rest eq_refl Hin)).
    reflexivity. }
  split; [|split].
  - intros Hv. unfold readRecord. cbn zeta. rewrite Hstart. cbn beta iota.
    rewrite bind_lift, (index_lookup _ 0 h0) by (lia || reflexivity).
    rewrite uint8_b2z. apply Z.eqb_neq in Hv. rewrite Hv. reflexivity.
  - intros Hv Ht. unfold readRecord. cbn zeta. rewrite Hstart. cbn beta iota.
    rewrite bind_lift, (index_lookup _ 0 h0) by (lia || reflexivity).
    rewrite uint8_b2z, Hv. change (negb (1 =? 1)) with false. cbn iota.
    rewrite bind_lift, (index_lookup _ (0 + 1) h1) by (lia || reflexivity).
    rewrite uint8_b2z, getRecordType_unknown by lia. reflexivity.
  - intros Hv Ht Hr. unfold readRecord. cbn zeta. rewrite Hstart. cbn beta iota.
    rewrite bind_lift, (index_lookup _ 0 h0) by (lia || reflexivity).
    rewrite uint8_b2z, Hv. change (negb (1 =? 1)) with false. cbn iota.
    rewrite bind_lift, (index_lookup _ (0 + 1) h1) by (lia || reflexivity).
    rewrite uint8_b2z, getRecordType_id by lia.
    replace (b2z h1 =? FCGIUnknownType) with false
      by (symmetry; apply Z.eqb_neq; unfold FCGIUnknownType; lia).
    rewrite bind_lift, (index_lookup _ (0 + 1 + 1) h2) by (lia || reflexivity).
    rewrite bind_lift, (index_lookup _ (0 + 1 + 1 + 1) h3) by (lia || reflexivity).
    rewrite bind_lift, (index_lookup _ (0 + 1 + 1 + 2) h4) by (lia || reflexivity).
    rewrite bind_lift, (index_lookup _ (0 + 1 + 1 + 2 + 1) h5) by (lia || reflexivity).
    rewrite bind_lift, (index_lookup _ (0 + 1 + 1 + 2 + 2) h6) by (lia || reflexivity).
    rewrite bind_lift, (index_lookup _ (0 + 1 + 1 + 2 + 2 + 1) h7) by (lia || reflexivity).
    rewrite (uint8_b2z h7). apply Z.eqb_neq in Hr. rewrite Hr. reflexivity.
Qed.

Lemma readRecord_header_checks_witness :
  readRecord (connection [[x02; x0b; x00; x01; x00; x02; x00; x09; x61; x62]] None)
  = (Done (Err (ErrUnexpectedVersion x02)), connection [[x61; x62]] None).
Proof.
  exact (proj1 (readRecord_header_checks
                  (connection [[x02; x0b; x00; x01; x00; x02; x00; x09; x61; x62]] None)
                  x02 x0b x00 x01 x00 x02 x00 x09 [x61; x62] [] eq_refl)
               ltac:(vm_compute; discriminate)).
Defined.

Lemma readFull_eof (data : list byte) (w : world) :
  conn_in w = [] -> data <> [] -> readFull data w = (Done (data, Some EOF), w).
Proof.
  intros Hin Hd. unfold readFull, bind, Read.
  destruct data as [|d data]; [congruence|]. cbn [length]. rewrite Hin. reflexivity.
Qed.

Lemma readFull_short (data seg : list byte) (rest : list (list byte)) (w : world) :
  conn_in w = seg :: rest ->
  (length seg < length data)%nat ->
  readFull data w
  = (Done (seg ++ drop (length seg) data, Some (ErrShortRead (len seg) (len data))),
     set_in w rest).
Proof.
  intros Hin Hlen. unfold readFull, bind, Read.
  destruct (length data) as [|n] eqn:Hn; [lia|]. rewrite Hin.
  rewrite (take_ge seg (S n)), (drop_ge seg (S n)) by lia. cbn [push].
  assert (Hl : length (seg ++ drop (length seg) data) = length data).
  { rewrite length_app, length_drop. lia. }
  unfold len. rewrite Hl, Hn.
  replace (Z.of_nat (length seg) =? Z.of_nat (S n)) with false
    by (symmetry; apply Z.eqb_neq; lia).
  reflexivity.
Qed.

(** X4. [readFull] makes one [Read] and does not ask again. On an
    exhausted stream [readRecord] fails with the end-of-file error; when
    the next segment holds fewer than eight bytes it fails with a short
    read of the header, although later segments may hold the rest; and
    when the segment ends before the declared content does, it fails with
    a short read of the content. In all three cases the bytes of that
    segment are gone from the stream. *)
Theorem readRecord_short_reads (w : world) :
  (conn_in w = [] ->
   readRecord w = (Done (Err (ErrReadingHeader EOF)), w))
  /\
  (forall (seg : list byte) (rest : list (list byte)),
     conn_in w = seg :: rest -> (length seg < 8)%nat ->
     readRecord w
     = (Done (Err (ErrReadingHeader (ErrShortRead (len seg) 8))), set_in w rest))
  /\
  (forall (r : FCGIRecord) (got : list byte) (rest : list (list byte)),
     decoded r ->
     conn_in w = (wire_header r ++ got) :: rest ->
     got <> [] ->
     len got < ContentLength r ->
     readRecord w
     = (Done (Err (ErrReadingContent (ErrShortRead (len got) (ContentLength r)))),
        set_in w rest)).
Proof.
  split; [|split].
  - intros Hin. unfold readRecord. cbn zeta. rewrite bind_lift.
    change (make 8) with (Done (replicate 8 x00)). cbn beta iota.
    rewrite (bind_Done _ _ _ _ _ (readFull_eof (replicate 8 x00) w Hin ltac:(discriminate))).
    reflexivity.
  - intros seg rest Hin Hlen. unfold readRecord. cbn zeta. rewrite bind_lift.
    change (make 8) with (Done (replicate 8 x00)). cbn beta iota.
    rewrite (bind_Done _ _ _ _ _ (readFull_short (replicate 8 x00) seg rest w Hin Hlen)).
    reflexivity.
  - intros r got rest (Hv & Ht & Hid & Hcl & Hclb & Hpl & Hplb & Hres) Hin Hne Hshort.
    assert (Hin' : conn_in w = push (wire_header r ++ got) rest) by (rewrite Hin; reflexivity).
    unfold readRecord. rewrite bind_lift.
    change (make 8) with (Done (replicate 8 x00)). cbn beta iota zeta.
    rewrite (bind_Done _ _ _ _ _
               (readFull_push (replicate 8 x00) w (wire_header r) _ rest eq_refl Hin')).
    cbn beta iota zeta.
    rewrite bind_lift. unfold wire_header at 1.
    rewrite (index_lookup _ 0 (z2b (Version r))) by (lia || reflexivity).
    rewrite (byte_of_small (Version r)), uint8_small by lia.
    rewrite Hv. change (negb (1 =? 1)) with false. cbn beta iota zeta.
    rewrite bind_lift.
    rewrite (index_lookup _ (0 + 1) (z2b (RType r))) by (lia || reflexivity).
    rewrite (byte_of_small (RType r)), uint8_small by lia.
    rewrite (getRecordType_id _ Ht).
    replace (RType r =? FCGIUnknownType) with false
      by (symmetry; apply Z.eqb_neq; unfold FCGIUnknownType; lia).
    rewrite bind_lift.
    rewrite (index_lookup _ (0 + 1 + 1) (z2b (Z.shiftr (RequestID r) 8)))
      by (lia || reflexivity).
    rewrite bind_lift.
    rewrite (index_lookup _ (0 + 1 + 1 + 1) (z2b (RequestID r))) by (lia || reflexivity).
    rewrite uint16_idem, be16, (be16_split _ Hid).
    rewrite bind_lift.
    rewrite (index_lookup _ (0 + 1 + 1 + 2) (z2b (Z.shiftr (ContentLength r) 8)))
      by (lia || reflexivity).
    rewrite bind_lift.
    rewrite (index_lookup _ (0 + 1 + 1 + 2 + 1) (z2b (ContentLength r)))
      by (lia || reflexivity).
    pose proof (len_nonneg (ContentData r)) as Hc0.
    pose proof (len_nonneg (PaddingData r)) as Hp0.
    rewrite uint16_idem, be16, (be16_split (ContentLength r)) by lia.
    rewrite bind_lift.
    rewrite (index_lookup _ (0 + 1 + 1 + 2 + 2) (z2b (PaddingLength r)))
      by (lia || reflexivity).
    rewrite (byte_of_small (PaddingLength r)), uint8_small by lia.
    rewrite bind_lift.
    rewrite (index_lookup _ (0 + 1 + 1 + 2 + 2 + 1) (z2b (Reserved r)))
      by (lia || reflexivity).
    rewrite (byte_of_small (Reserved r)), uint8_small by lia.
    rewrite Hres. change (negb (0 =? 0)) with false. cbn beta iota zeta.
    rewrite bind_lift, make_nonneg by lia.
    destruct got as [|g got]; [congruence|].
    erewrite bind_Done.
    2:{ apply (readFull_short _ (g :: got) rest).
        - reflexivity.
        - rewrite length_replicate. unfold len in Hshort. lia. }
    cbn beta iota zeta. rewrite len_replicate by lia. reflexivity.
Qed.

Lemma readRecord_short_reads_witness :
  readRecord (connection [[x01; x05; x00]; [x01; x00; x00; x00; x00]] None)
  = (Done (Err (ErrReadingHeader (ErrShortRead 3 8))),
     connection [[x01; x00; x00; x00; x00]] None).
Proof.
  exact (proj1 (proj2 (readRecord_short_reads
                         (connection [[x01; x05; x00]; [x01; x00; x00; x00; x00]] None)))
               [x01; x05; x00] [[x01; x00; x00; x00; x00]] eq_refl
               ltac:(vm_compute; lia)).
Defined.

Lemma getRecordType_known (t : Z) :
  getRecordType t <> FCGIUnknownType -> getRecordType t = t.
Proof.
  intros H. destruct t as [|p|p]; try (exfalso; apply H; reflexivity).
  do 4 (destruct p as [p|p|]; try reflexivity; try (exfalso; apply H; reflexivity)).
Qed.

Lemma z2b_mod (z : Z) : z2b (z mod 256) = z2b z.
Proof.
  unfold z2b, uint8. change (2 ^ 8) with 256. rewrite Z.mod_mod by lia. reflexivity.
Qed.

Lemma z2b_be16_hi (hi lo : byte) : z2b (Z.shiftr (b2z hi * 256 + b2z lo) 8) = hi.
Proof.
  pose proof (b2z_range hi). pose proof (b2z_range lo).
  rewrite Z.shiftr_div_pow2 by lia. change (2 ^ 8) with 256.
  replace ((b2z hi * 256 + b2z lo) / 256) with (b2z hi).
  - apply z2b_b2z.
  - apply Z.div_unique with (b2z lo); lia.
Qed.

Lemma z2b_be16_lo (hi lo : byte) : z2b (b2z hi * 256 + b2z lo) = lo.
Proof.
  pose proof (b2z_range lo).
  rewrite <- z2b_mod.
  replace ((b2z hi * 256 + b2z lo) mod 256) with (b2z lo).
  - apply z2b_b2z.
  - symmetry. rewrite Z.add_comm, Z.mod_add by lia. apply Z.mod_small. lia.
Qed.

(** The bytes [readRecord] takes for a record are the record's own wire
    form. *)
Lemma readRecord_takes_wire (w w' : world) (r : FCGIRecord) :
  readRecord w = (Done (Ok r), w') ->
  concat (conn_in w) = wire r ++ concat (conn_in w').
Proof.
  unfold readRecord. rewrite bind_lift.
  change (make 8) with (Done (replicate 8 x00)). cbn beta iota zeta.
  destruct (readFull_inv (replicate 8 x00) w) as (hdr & err & w1 & HR & Hw1 & Hok).
  rewrite (bind_Done _ _ _ _ _ HR). cbn beta iota zeta.
  destruct err as [e|]; [discriminate|].
  destruct (Hok eq_refl) as [Hlen Hcat]. clear Hok.
  destruct hdr as [|h0 [|h1 [|h2 [|h3 [|h4 [|h5 [|h6 [|h7 [|h8 hdr]]]]]]]]];
    try discriminate Hlen.
  rewrite bind_lift, (index_lookup _ 0 h0) by (lia || reflexivity).
  destruct (uint8 (b2z h0) =? 1) eqn:Ev; cbn [negb]; cbn beta iota zeta;
    [|discriminate].
  rewrite bind_lift, (index_lookup _ (0 + 1) h1) by (lia || reflexivity).
  destruct (getRecordType (uint8 (b2z h1)) =? FCGIUnknownType) eqn:Et; [discriminate|].
  rewrite bind_lift, (index_lookup _ (0 + 1 + 1) h2) by (lia || reflexivity).
  rewrite bind_lift, (index_lookup _ (0 + 1 + 1 + 1) h3) by (lia || reflexivity).
  rewrite bind_lift, (index_lookup _ (0 + 1 + 1 + 2) h4) by (lia || reflexivity).
  rewrite bind_lift, (index_lookup _ (0 + 1 + 1 + 2 + 1) h5) by (lia || reflexivity).
  rewrite bind_lift, (index_lookup _ (0 + 1 + 1 + 2 + 2) h6) by (lia || reflexivity).
  rewrite bind_lift, (index_lookup _ (0 + 1 + 1 + 2 + 2 + 1) h7) by (lia || reflexivity).
  rewrite !uint16_idem, !be16.
  destruct (uint8 (b2z h7) =? 0) eqn:Er; cbn [negb]; cbn beta iota zeta;
    [|discriminate].
  pose proof (be16_range h4 h5) as Rcl. pose proof (b2z_range h6) as Rpl.
  rewrite bind_lift, make_nonneg by lia.
  destruct (readFull_inv (replicate (Z.to_nat (b2z h4 * 256 + b2z h5)) x00) w1)
    as (content & err & w2 & HR2 & Hw2 & Hok2).
  rewrite (bind_Done _ _ _ _ _ HR2). cbn beta iota zeta.
  destruct err as [e|]; [discriminate|].
  destruct (Hok2 eq_refl) as [Hlen2 Hcat2]. clear Hok2.
  rewrite uint8_b2z.
  rewrite bind_lift, make_nonneg by lia.
  destruct (readFull_inv (replicate (Z.to_nat (b2z h6)) x00) w2)
    as (padding & err & w3 & HR3 & Hw3 & Hok3).
  rewrite (bind_Done _ _ _ _ _ HR3). cbn beta iota zeta.
  destruct err as [e|]; [discriminate|].
  destruct (Hok3 eq_refl) as [Hlen3 Hcat3]. clear Hok3.
  unfold ret. intros H. injection H as <- <-.
  apply Z.eqb_eq in Ev, Er. apply Z.eqb_neq in Et.
  unfold wire, wire_header. cbn [Version RType RequestID ContentLength PaddingLength
                                 Reserved ContentData PaddingData].
  rewrite (getRecordType_known _ Et), !uint8_b2z, !z2b_b2z.
  rewrite !z2b_be16_hi, !z2b_be16_lo.
  rewrite Hcat. cbn [app]. rewrite Hcat2, Hcat3, <- ?app_assoc. reflexivity.
Qed.

Lemma z2b_congr (a b : Z) : a mod 256 = b mod 256 -> z2b a = z2b b.
Proof. intros H. rewrite <- (z2b_mod a), <- (z2b_mod b), H. reflexivity. Qed.

(** The bytes of [serialize], written out. *)
Lemma serialize_bytes (r : FCGIRecord) :
  serialize r
  = [z2b 1; z2b (RType r); z2b (Z.shiftr (RequestID r) 8); z2b (RequestID r);
     z2b (Z.shiftr (len (ContentData r)) 8); z2b (len (ContentData r));
     z2b 0; z2b 0] ++ ContentData r.
Proof. reflexivity. Qed.

Lemma serialize_wire (r : FCGIRecord) :
  Version r = 1 -> ContentLength r = len (ContentData r) ->
  PaddingLength r = 0 -> Reserved r = 0 -> PaddingData r = [] ->
  serialize r = wire r.
Proof.
  intros Hv Hc Hp Hr Hd. unfold wire, wire_header.
  rewrite Hv, Hc, Hp, Hr, Hd, app_nil_r. reflexivity.
Qed.

(** X5. Reading then writing gives the bytes back: for a record that
    [readRecord] returned with no padding, [serialize] produces exactly
    the bytes that were taken from the stream for it. Whatever the
    padding, it produces eight bytes more than the content, and its
    seventh and eighth bytes (padding length and reserved) are zero. *)
Theorem readRecord_serialize_roundtrip (w w' : world) (r : FCGIRecord) :
  readRecord w = (Done (Ok r), w') ->
  len (serialize r) = 8 + ContentLength r /\
  serialize r !! 6%nat = Some x00 /\ serialize r !! 7%nat = Some x00 /\
  (PaddingLength r = 0 ->
   concat (conn_in w) = serialize r ++ concat (conn_in w')).
Proof.
  intros H.
  destruct (readRecord_inv w) as (res & w0 & H0 & _ & Hspec).
  rewrite H in H0. injection H0 as <- <-.
  destruct Hspec as [(Hv & Ht & Hid & Hcl & Hclb & Hpl & Hplb & Hres) _].
  split; [|split; [|split]].
  - unfold serialize. rewrite len_app. rewrite Hcl. reflexivity.
  - reflexivity.
  - reflexivity.
  - intros Hp0. rewrite (readRecord_takes_wire w w' r H). f_equal.
    symmetry. apply serialize_wire; try assumption.
    apply length_zero_iff_nil. unfold len in Hpl. lia.
Qed.

Lemma readRecord_serialize_roundtrip_witness :
  let w := connection [[x01; x05; x00; x07; x00; x02; x00; x00; x68; x69; xaa]] None in
  concat (conn_in w)
  = serialize (received FCGIStdin 7 [x68; x69]) ++ [xaa].
Proof.
  intros w.
  exact (proj2 (proj2 (proj2 (readRecord_serialize_roundtrip w (connection [[xaa]] None)
                                (received FCGIStdin 7 [x68; x69]) eq_refl)))
               eq_refl).
Defined.

(** X6. [serialize] writes the content length into two bytes without any
    check, so the length of longer content wraps: read back, the bytes of
    a record with content [c] give a record whose content is only the
    first [len c mod 65536] bytes of [c], and the rest of [c] is left in
    the stream as if it were the next record. For content of at most
    65535 bytes that is all of [c]. *)
Theorem serialize_length_wraps (t id : Z) (c : list byte) (w : world) :
  1 <= t <= 10 ->
  0 <= id <= 65535 ->
  let n := len c mod 65536 in
  readRecord (set_in w [serialize (literal t id c)])
  = (Done (Ok (received t id (take (Z.to_nat n) c))),
     set_in w (push (drop (Z.to_nat n) c) [])).
Proof.
  intros Ht Hid n.
  pose proof (len_nonneg c) as Hc.
  pose proof (Z.mod_pos_bound (len c) 65536 ltac:(lia)) as Hn. fold n in Hn.
  assert (Hle : n <= len c) by (apply Z.mod_le; lia).
  assert (Hlen : len (take (Z.to_nat n) c) = n).
  { unfold len in *. rewrite length_take. lia. }
  assert (H1 : (len c / 256) mod 256 = (n / 256) mod 256).
  { subst n. change 65536 with (256 * 256).
    rewrite Z.rem_mul_r by lia.
    rewrite (Z.mul_comm 256 ((len c / 256) mod 256)), Z.div_add by lia.
    rewrite (Z.div_small (len c mod 256)) by (apply Z.mod_pos_bound; lia).
    rewrite Z.add_0_l, Z.mod_mod by lia. reflexivity. }
  assert (H2 : len c mod 256 = n mod 256).
  { subst n. change 65536 with (256 * 256).
    rewrite Z.rem_mul_r by lia.
    rewrite (Z.mul_comm 256 ((len c / 256) mod 256)), Z.mod_add by lia.
    rewrite Z.mod_mod by lia. reflexivity. }
  assert (Hser : serialize (literal t id c)
                 = wire (received t id (take (Z.to_nat n) c)) ++ drop (Z.to_nat n) c).
  { rewrite serialize_bytes. unfold wire, wire_header, received, literal.
    cbn [Version RType RequestID ContentLength PaddingLength Reserved ContentData
         PaddingData]. rewrite app_nil_r, Hlen, <- app_assoc, take_drop.
    rewrite !Z.shiftr_div_pow2 by lia. change (2 ^ 8) with 256.
    rewrite (z2b_congr (len c / 256) (n / 256) H1), (z2b_congr (len c) n H2).
    reflexivity. }
  rewrite (readRecord_wire (received t id (take (Z.to_nat n) c))
             (set_in w [serialize (literal t id c)]) (drop (Z.to_nat n) c) []).
  - reflexivity.
  - unfold decoded, received.
    cbn [Version RType RequestID ContentLength PaddingLength Reserved ContentData
         PaddingData]. rewrite Hlen. cbn. repeat split; lia.
  - cbn [conn_in set_in]. rewrite Hser.
    destruct (wire _ ++ _) eqn:E; [|reflexivity].
    apply (f_equal (@length byte)) in E. revert E. unfold wire, wire_header.
    cbn. discriminate.
Qed.

Lemma serialize_length_wraps_witness :
  readRecord (set_in (connection [] None) [serialize (literal FCGIStdout 1 [x61; x62])])
  = (Done (Ok (received FCGIStdout 1 [x61; x62])), set_in (connection [] None) []).
Proof.
  exact (serialize_length_wraps FCGIStdout 1 [x61; x62] (connection [] None)
           ltac:(unfold FCGIStdout; lia) ltac:(lia)).
Defined.

(** ** Body decoders *)

(** X7. With three content bytes or more [parseBeginRequest] does not
    panic. It reads the first two bytes as a big-endian role: for roles
    1, 2 and 3 it returns the role and, as flags, the third byte; for
    every other role, 0 and 4 included, it returns the unknown-role error
    naming the two bytes. Bytes after the third play no part. *)
Theorem parseBeginRequest_three_bytes (record : FCGIRecord) (c0 c1 c2 : byte)
    (tail : list byte) :
  ContentData record = c0 :: c1 :: c2 :: tail ->
  let role := b2z c0 * 256 + b2z c1 in
  (1 <= role <= 3 ->
   parseBeginRequest record = Done (Ok {| Role := role; Flags := b2z c2 |}))
  /\
  (role < 1 \/ 3 < role ->
   parseBeginRequest record = Done (Err (ErrUnknownRole c0 c1))).
Proof.
  intros Hc role. rewrite (parseBeginRequest_three record c0 c1 c2 tail Hc).
  cbn zeta. fold role. split.
  - intros Hr. rewrite (getRole_id role Hr).
    replace (role =? FCGIUnknownRole) with false
      by (symmetry; apply Z.eqb_neq; unfold FCGIUnknownRole; lia).
    reflexivity.
  - intros Hr. rewrite (getRole_unknown role Hr). reflexivity.
Qed.

Lemma parseBeginRequest_three_bytes_witness :
  parseBeginRequest (literal FCGIBeginRequest 1 [x00; x04; x01; x00; x00; x00; x00; x00])
  = Done (Err (ErrUnknownRole x00 x04)).
Proof.
  exact (proj2 (parseBeginRequest_three_bytes
                  (literal FCGIBeginRequest 1 [x00; x04; x01; x00; x00; x00; x00; x00])
                  x00 x04 x01 [x00; x00; x00; x00; x00] eq_refl)
               ltac:(right; vm_compute; reflexivity)).
Defined.

(** X8. Whatever the content, [parseParams] ends, and it ends in one of
    two ways: it returns no error, or it panics. It never returns an
    error, so neither of its two short-copy errors can be seen by the
    caller; and it leaves the connection alone, only the console
    changes. *)
Theorem parseParams_never_errors (record : FCGIRecord) (w : world) :
  len (ContentData record) < 2 ^ 62 ->
  (forall e, fst (parseParams record w) <> Done (Some e)) /\
  fst (parseParams record w) <> OutOfFuel /\
  quiet w (snd (parseParams record w)).
Proof.
  intros Hlen.
  destruct (parseParams_nil_or_panic record w Hlen) as (w' & Hq & [H|[p H]]);
    rewrite H; cbn [fst snd];
    (split; [intros e; discriminate|split; [discriminate|exact Hq]]).
Qed.

Lemma parseParams_never_errors_witness :
  fst (parseParams (literal FCGIParams 1 [x05; x00; x61]) (connection [] None))
  <> OutOfFuel.
Proof.
  exact (proj1 (proj2 (parseParams_never_errors
                         (literal FCGIParams 1 [x05; x00; x61]) (connection [] None)
                         ltac:(vm_compute; reflexivity)))).
Defined.

(** X11. What [readLength] returns is a length from 0 to [2 ^ 31 - 1]
    and an offset that is one or four more than the one given and not
    beyond the end of the content. At an offset outside the content it
    panics, and so it does when the first byte announces four bytes and
    fewer than four are left. *)
Theorem readLength_bounds (record : FCGIRecord) (idx : Z) :
  len (ContentData record) < 2 ^ 62 ->
  (forall v idx',
     0 <= idx ->
     readLength record idx = Done (v, idx') ->
     0 <= v < 2 ^ 31 /\ (idx' = idx + 1 \/ idx' = idx + 4) /\
     idx' <= len (ContentData record))
  /\
  (idx < 0 \/ len (ContentData record) <= idx ->
   readLength record idx = Panic (IndexOutOfRange idx (len (ContentData record))))
  /\
  (forall c0,
     0 <= idx ->
     ContentData record !! Z.to_nat idx = Some c0 ->
     Z.testbit (b2z c0) 7 = true ->
     len (ContentData record) < idx + 4 ->
     exists p, readLength record idx = Panic p).
Proof.
  intros Hlen. split; [|split].
  - intros v idx' Hidx H.
    destruct (index_total (ContentData record) idx) as [[c0 H0]|H0].
    2:{ unfold readLength in H. rewrite H0 in H. discriminate. }
    apply index_Done in H0 as [Hr L0].
    destruct (Z.testbit (b2z c0) 7) eqn:Hmsb.
    + destruct (readLength_cases record idx Hlen Hidx)
        as [(v1 & i1 & H1 & B1 & V1)|[p Hp]]; [|congruence].
      rewrite H in H1. injection H1 as <- <-.
      split; [exact V1|]. split; [|lia]. right.
      unfold readLength in H. rewrite (index_lookup _ idx c0) in H by (lia || assumption).
      cbn [bindO] in H. destruct (msb_set _ Hmsb) as (Hs & _ & _). rewrite Hs in H.
      change (1 =? 0) with false in H. cbn beta iota zeta in H.
      destruct (index _ (int (idx + 1))); [|discriminate..]. cbn [bindO] in H.
      destruct (index _ (int (idx + 2))); [|discriminate..]. cbn [bindO] in H.
      destruct (index _ (int (idx + 3))); [|discriminate..]. cbn [bindO] in H.
      injection H as _ <-. apply int_small. pow2. lia.
    + rewrite (readLength_short record idx c0) in H by (assumption || (pow2; lia)).
      injection H as <- <-. pose proof (b2z_range c0).
      destruct (msb_clear _ Hmsb). split; [pow2; lia|]. split; [left; reflexivity|lia].
  - intros Hout. unfold readLength. rewrite index_out by exact Hout. reflexivity.
  - intros c0 Hidx L0 Hmsb Hcut.
    destruct (readLength_cases record idx Hlen Hidx)
      as [(v1 & i1 & H1 & B1 & V1)|[p Hp]]; [|eauto].
    exfalso. pose proof H1 as H.
    unfold readLength in H. rewrite (index_lookup _ idx c0) in H by (lia || assumption).
    cbn [bindO] in H. destruct (msb_set _ Hmsb) as (Hs & _ & _). rewrite Hs in H.
    change (1 =? 0) with false in H. cbn beta iota zeta in H.
    destruct (index _ (int (idx + 1))); [|discriminate..]. cbn [bindO] in H.
    destruct (index _ (int (idx + 2))); [|discriminate..]. cbn [bindO] in H.
    destruct (index _ (int (idx + 3))); [|discriminate..]. cbn [bindO] in H.
    injection H as _ Hi. rewrite int_small in Hi by (pow2; lia). lia.
Qed.

Lemma readLength_bounds_witness :
  exists p, readLength (literal FCGIParams 1 [x80; x00; x01]) 0 = Panic p.
Proof.
  exact (proj2 (proj2 (readLength_bounds (literal FCGIParams 1 [x80; x00; x01]) 0
                         ltac:(vm_compute; reflexivity)))
               x80 ltac:(lia) eq_refl eq_refl ltac:(vm_compute; reflexivity)).
Defined.

Lemma msb_test (c : byte) : Z.testbit (b2z c) 7 = (128 <=? b2z c).
Proof. destruct c; reflexivity. Qed.

Lemma len_encodeLength (n : Z) :
  len (encodeLength n) = if n <? 128 then 1 else 4.
Proof. unfold encodeLength. destruct (n <? 128); reflexivity. Qed.

(** A value below [2 ^ 31] is the sum of its four big-endian bytes. *)
Lemma be32_split (n : Z) :
  0 <= n ->
  n / 2 ^ 24 * 2 ^ 24 + (n / 2 ^ 16) mod 256 * 2 ^ 16
  + (n / 2 ^ 8) mod 256 * 2 ^ 8 + n mod 256 = n.
Proof.
  intros Hn. pow2. change (2 ^ 24) with 16777216.
  pose proof (Z.div_mod n 256 ltac:(lia)) as E0.
  pose proof (Z.div_mod (n / 256) 256 ltac:(lia)) as E1.
  pose proof (Z.div_mod (n / 65536) 256 ltac:(lia)) as E2.
  rewrite Z.div_div in E1 by lia. change (256 * 256) with 65536 in E1.
  rewrite Z.div_div in E2 by lia. change (65536 * 256) with 16777216 in E2.
  lia.
Qed.

Lemma lookup_middle (pre l post : list byte) (i : nat) (b : byte) :
  l !! i = Some b -> (pre ++ l ++ post) !! (length pre + i)%nat = Some b.
Proof.
  intros H. rewrite lookup_app_r by lia.
  replace (length pre + i - length pre)%nat with i by lia.
  apply lookup_app_l_Some. exact H.
Qed.

(** [readLength] at the place of an encoded length. *)
Lemma readLength_encoded (record : FCGIRecord) (pre post : list byte) (n : Z) :
  0 <= n < 2 ^ 31 ->
  len (ContentData record) < 2 ^ 63 ->
  ContentData record = pre ++ encodeLength n ++ post ->
  readLength record (len pre) = Done (n, len pre + len (encodeLength n)).
Proof.
  intros Hn Hlen Hc. pose proof (len_nonneg pre) as Hp.
  rewrite len_encodeLength. unfold encodeLength in Hc.
  destruct (n <? 128) eqn:Hsmall.
  - apply Z.ltb_lt in Hsmall.
    assert (Hb : b2z (z2b n) = n) by (apply byte_of_small; lia).
    rewrite (readLength_short record (len pre) (z2b n));
      [rewrite Hb; reflexivity|lia|exact Hlen| |].
    + rewrite Hc. unfold len. rewrite Nat2Z.id.
      replace (length pre) with (length pre + 0)%nat by lia.
      apply lookup_middle. reflexivity.
    + rewrite msb_test, Hb. apply Z.leb_gt. lia.
  - apply Z.ltb_ge in Hsmall.
    assert (Hhi : 0 <= Z.shiftr n 24 < 128).
    { rewrite Z.shiftr_div_pow2 by lia. split; [apply Z.div_pos; lia|].
      apply Z.div_lt_upper_bound; [lia|]. pow2. change (2 ^ 24) with 16777216. lia. }
    assert (Hb0 : b2z (z2b (Z.shiftr n 24 + 128)) = Z.shiftr n 24 + 128)
      by (apply byte_of_small; lia).
    assert (Hmsb : Z.testbit (b2z (z2b (Z.shiftr n 24 + 128))) 7 = true).
    { rewrite msb_test, Hb0. apply Z.leb_le. lia. }
    rewrite (readLength_long record (len pre) (z2b (Z.shiftr n 24 + 128))
               (z2b (Z.shiftr n 16)) (z2b (Z.shiftr n 8)) (z2b n)).
    + destruct (msb_set _ Hmsb) as (_ & -> & _). rewrite Hb0, !b2z_z2b.
      rewrite !Z.shiftr_div_pow2 by lia.
      replace (n / 2 ^ 24 + 128 - 128) with (n / 2 ^ 24) by lia.
      rewrite be32_split by lia. reflexivity.
    + lia.
    + exact Hlen.
    + rewrite Hc. unfold len. rewrite Nat2Z.id.
      replace (length pre) with (length pre + 0)%nat by lia.
      apply lookup_middle. reflexivity.
    + rewrite Hc. unfold len. replace (Z.to_nat (Z.of_nat (length pre) + 1))
        with (length pre + 1)%nat by lia. apply lookup_middle. reflexivity.
    + rewrite Hc. unfold len. replace (Z.to_nat (Z.of_nat (length pre) + 2))
        with (length pre + 2)%nat by lia. apply lookup_middle. reflexivity.
    + rewrite Hc. unfold len. replace (Z.to_nat (Z.of_nat (length pre) + 3))
        with (length pre + 3)%nat by lia. apply lookup_middle. reflexivity.
    + exact Hmsb.
Qed.

(** X9. [readLength] undoes the length encoding: where the content holds
    the encoding of a length [n] below [2 ^ 31], one byte for [n] below
    128 and four bytes otherwise, [readLength] at that place returns [n]
    and the offset just after the encoding. *)
Theorem readLength_encodeLength (record : FCGIRecord) (pre post : list byte) (n : Z) :
  0 <= n < 2 ^ 31 ->
  len (ContentData record) < 2 ^ 63 ->
  ContentData record = pre ++ encodeLength n ++ post ->
  readLength record (len pre)
  = Done (n, len pre + (if n <? 128 then 1 else 4)) /\
  len (encodeLength n) = (if n <? 128 then 1 else 4).
Proof.
  intros Hn Hlen Hc. rewrite <- len_encodeLength. split; [|reflexivity].
  exact (readLength_encoded record pre post n Hn Hlen Hc).
Qed.

Lemma readLength_encodeLength_witness :
  readLength (literal FCGIParams 1 ([x61] ++ encodeLength 300 ++ [x62])) 1
  = Done (300, 5).
Proof.
  exact (proj1 (readLength_encodeLength
                  (literal FCGIParams 1 ([x61] ++ encodeLength 300 ++ [x62]))
                  [x61] [x62] 300 ltac:(vm_compute; intuition discriminate)
                  ltac:(vm_compute; reflexivity) eq_refl)).
Defined.

Lemma slice_middle (pre m post : list byte) :
  slice (pre ++ m ++ post) (len pre) (len pre + len m) = Done m.
Proof.
  rewrite slice_in.
  - unfold len. f_equal.
    replace (Z.to_nat (Z.of_nat (length pre) + Z.of_nat (length m) - Z.of_nat (length pre)))
      with (length m) by lia.
    rewrite Nat2Z.id, drop_app_length, take_app_length. reflexivity.
  - apply len_nonneg.
  - pose proof (len_nonneg m). lia.
  - rewrite !len_app. pose proof (len_nonneg post). lia.
Qed.

Lemma encodeLength_nonempty (n : Z) : 1 <= len (encodeLength n).
Proof. rewrite len_encodeLength. destruct (n <? 128); lia. Qed.

(** The loop of [parseParams] on content that is a sequence of encoded
    pairs prints the pairs, first to last. *)
Lemma parseParams_loop_decodes (record : FCGIRecord) :
  len (ContentData record) < 2 ^ 62 ->
  forall (ps : list (list byte * list byte)) (pre : list byte) (fuel : nat) (w : world),
    ContentData record = pre ++ encodeParams ps ->
    Forall (fun p => len (fst p) < 2 ^ 31 /\ len (snd p) < 2 ^ 31) ps ->
    (length (encodeParams ps) < fuel)%nat ->
    exists w',
      parseParams_loop fuel record (len pre) w = (Done None, w') /\
      quiet w w' /\
      console w' = console w ++ map (fun p => LogNameValue (fst p) (snd p)) ps.
Proof.
  intros Hlen ps.
  induction ps as [|[name value] ps IH]; intros pre fuel w Hc Hps Hfuel.
  - destruct fuel as [|fuel]; [lia|]. cbn [parseParams_loop].
    rewrite Hc. cbn [encodeParams map concat]. rewrite app_nil_r.
    rewrite Z.ltb_irrefl. exists w.
    split; [reflexivity|]. split; [apply quiet_refl|]. cbn. rewrite app_nil_r. reflexivity.
  - destruct fuel as [|fuel]; [lia|]. cbn [parseParams_loop].
    apply Forall_cons in Hps as [[Hn Hv] Hps]. cbn [fst snd] in Hn, Hv.
    assert (Hc' : ContentData record
                  = pre ++ encodeLength (len name) ++ encodeLength (len value)
                        ++ name ++ value ++ encodeParams ps).
    { rewrite Hc. unfold encodeParams. cbn [map concat]. unfold encodePair.
      cbn [fst snd]. rewrite <- !app_assoc. reflexivity. }
    pose proof (len_nonneg pre) as Hp0. pose proof (len_nonneg name) as Hn0.
    pose proof (len_nonneg value) as Hv0.
    pose proof (encodeLength_nonempty (len name)) as He1.
    pose proof (encodeLength_nonempty (len value)) as He2.
    pose proof (len_nonneg (encodeParams ps)) as Hr0.
    assert (Htotal : len (ContentData record)
                     = len pre + len (encodeLength (len name))
                       + len (encodeLength (len value)) + len name + len value
                       + len (encodeParams ps)).
    { rewrite Hc', !len_app. lia. }
    replace (len pre <? len (ContentData record)) with true
      by (symmetry; apply Z.ltb_lt; lia).
    assert (Hlen63 : len (ContentData record) < 2 ^ 63) by (pow2; lia).
    rewrite bind_lift.
    rewrite (readLength_encoded record pre
               (encodeLength (len value) ++ name ++ value ++ encodeParams ps)
               (len name) ltac:(lia) Hlen63 Hc').
    cbn beta iota zeta.
    rewrite bind_lift.
    rewrite <- len_app.
    rewrite (readLength_encoded record (pre ++ encodeLength (len name))
               (name ++ value ++ encodeParams ps) (len value) ltac:(lia) Hlen63).
    2:{ rewrite Hc', <- app_assoc. reflexivity. }
    cbn beta iota zeta. rewrite <- len_app.
    rewrite bind_lift, make_nonneg by lia.
    set (P := (pre ++ encodeLength (len name)) ++ encodeLength (len value)).
    assert (HP : len P = len pre + len (encodeLength (len name))
                         + len (encodeLength (len value))).
    { unfold P. rewrite !len_app. reflexivity. }
    assert (HcP : ContentData record = P ++ name ++ value ++ encodeParams ps).
    { rewrite Hc'. unfold P. rewrite <- !app_assoc. reflexivity. }
    assert (HcP' : ContentData record = (P ++ name) ++ value ++ encodeParams ps).
    { rewrite HcP, <- app_assoc. reflexivity. }
    assert (Hs1 : slice (ContentData record) (len P) (len P + len name) = Done name)
      by (rewrite HcP; apply slice_middle).
    assert (Hs2 : slice (ContentData record) (len P + len name)
                    (len P + len name + len value) = Done value).
    { rewrite HcP', <- len_app. apply slice_middle. }
    rewrite !int_small by (pow2; lia).
    rewrite bind_lift, Hs1.
    rewrite copy_full by lia. rewrite Z.eqb_refl. cbn [negb].
    rewrite bind_lift, make_nonneg by lia.
    rewrite bind_lift, Hs2.
    rewrite copy_full by lia. rewrite Z.eqb_refl. cbn [negb].
    rewrite bind_log.
    replace (len P + len name + len value) with (len ((P ++ name) ++ value))
      by (rewrite !len_app; reflexivity).
    destruct (IH ((P ++ name) ++ value) fuel (add_log w (LogNameValue name value)))
      as (w' & HL & Hq & Hcon).
    + rewrite HcP', <- !app_assoc. reflexivity.
    + exact Hps.
    + change (encodeParams ((name, value) :: ps))
        with ((encodeLength (len name) ++ encodeLength (len value) ++ name ++ value)
              ++ encodeParams ps) in Hfuel.
      rewrite !length_app in Hfuel. unfold len at 1 in He1. lia.
    + exists w'. split; [exact HL|]. split.
      * eapply quiet_trans; [apply quiet_log|exact Hq].
      * rewrite Hcon. cbn [console add_log map fst snd]. rewrite <- app_assoc.
        reflexivity.
Qed.

(** X10. [parseParams] decodes what the length encoding encodes: on
    content that is a sequence of pairs, each written as the encoded
    length of the name, the encoded length of the value, the name and the
    value, it returns no error and prints exactly those pairs, in order;
    the connection is left alone. *)
Theorem parseParams_decodes (record : FCGIRecord)
    (ps : list (list byte * list byte)) (w : world) :
  ContentData record = encodeParams ps ->
  len (ContentData record) < 2 ^ 62 ->
  Forall (fun p => len (fst p) < 2 ^ 31 /\ len (snd p) < 2 ^ 31) ps ->
  exists w',
    parseParams record w = (Done None, w') /\
    quiet w w' /\
    console w' = console w ++ map (fun p => LogNameValue (fst p) (snd p)) ps.
Proof.
  intros Hc Hlen Hps. unfold parseParams.
  apply (parseParams_loop_decodes record Hlen ps [] _ w).
  - exact Hc.
  - exact Hps.
  - rewrite Hc. lia.
Qed.

Lemma parseParams_decodes_witness :
  exists w',
    parseParams
      (literal FCGIParams 1
         (encodeParams [(list_byte_of_string "HOST", list_byte_of_string "a.example");
                        (list_byte_of_string "EMPTY", [])]))
      (connection [] None) = (Done None, w') /\
    console w' = [LogNameValue (list_byte_of_string "HOST") (list_byte_of_string "a.example");
                  LogNameValue (list_byte_of_string "EMPTY") []].
Proof.
  destruct (parseParams_decodes
              (literal FCGIParams 1
                 (encodeParams [(list_byte_of_string "HOST", list_byte_of_string "a.example");
                                (list_byte_of_string "EMPTY", [])]))
              [(list_byte_of_string "HOST", list_byte_of_string "a.example");
               (list_byte_of_string "EMPTY", [])]
              (connection [] None) eq_refl ltac:(vm_compute; reflexivity)
              ltac:(repeat constructor; vm_compute; reflexivity))
    as (w' & H & _ & Hcon).
  exists w'. split; [exact H|exact Hcon].
Defined.

(** ** The stream encoder *)

(** Piece [i] of a payload is the [n] bytes from offset [i * n], or what
    is left of the payload there. *)
Lemma chunks_lookup (n : nat) :
  (1 <= n)%nat ->
  forall (i : nat) (l c : list byte),
    chunks n l !! i = Some c -> c = take n (drop (i * n) l) /\ (i * n < length l)%nat.
Proof.
  intros Hn. induction i as [|i IH]; intros l c H.
  - destruct l as [|b l]; [discriminate|].
    rewrite chunks_cons in H by (lia || discriminate).
    injection H as <-. split; [reflexivity|simpl; lia].
  - destruct l as [|b l]; [discriminate|].
    rewrite chunks_cons in H by (lia || discriminate). cbn [lookup list_lookup] in H.
    destruct (IH _ _ H) as [-> Hlt]. rewrite drop_drop, length_drop in *.
    split; [f_equal; f_equal; lia|lia].
Qed.

Lemma chunks_length (n : nat) :
  (1 <= n)%nat ->
  forall (l : list byte), length (chunks n l) = ((length l + n - 1) / n)%nat.
Proof.
  intros Hn l. remember (length l) as k eqn:Hk. revert l Hk.
  induction k as [k IH] using lt_wf_ind. intros l Hk.
  destruct l as [|b l].
  - simpl in Hk. subst k. cbn. symmetry. apply Nat.div_small. lia.
  - rewrite chunks_cons by (lia || discriminate). cbn [length].
    rewrite (IH (length (drop n (b :: l)))).
    + rewrite length_drop. rewrite <- Hk.
      destruct (le_lt_dec n k) as [Hle|Hlt].
      * replace (k + n - 1)%nat with ((k - n + n - 1) + 1 * n)%nat by lia.
        rewrite Nat.div_add by lia. lia.
      * replace (k - n + n - 1)%nat with (n - 1)%nat by lia.
        rewrite (Nat.div_small (n - 1)) by lia.
        assert (k + n - 1 = (k - 1) + 1 * n)%nat as -> by (simpl in Hk; lia).
        rewrite Nat.div_add by lia. rewrite Nat.div_small by lia. reflexivity.
    + rewrite length_drop, <- Hk. simpl in Hk. lia.
    + reflexivity.
Qed.

(** X12. On a transport that takes everything, [sendStream] cuts the
    payload at every multiple of [maxContentSize]: it produces
    ceil(len / maxContentSize) Stdout records, record [i] carrying the
    bytes from offset [i * maxContentSize] up to the next multiple or the
    end of the payload, so that every record but the last is full, and
    then the one empty Stdout record. An empty payload gives the empty
    record alone. *)
Theorem sendStream_pieces (requestID : Z) (payload : list byte)
    (writeEachRecord : bool) (maxContentSize : Z) (w : world) :
  conn_room w = None ->
  1 <= maxContentSize ->
  len payload + maxContentSize < 2 ^ 63 ->
  exists (pieces : list (list byte)) (w' : world),
    sendStream requestID payload writeEachRecord maxContentSize w
    = (Done (Ok (concat (map (fun c => serialize (literal FCGIStdout requestID c)) pieces)
                 ++ serialize (literal FCGIStdout requestID []))), w') /\
    len pieces = (len payload + maxContentSize - 1) / maxContentSize /\
    (forall (i : nat) (c : list byte),
       pieces !! i = Some c ->
       Z.of_nat i * maxContentSize < len payload /\
       slice payload (Z.of_nat i * maxContentSize)
             (Z.min (Z.of_nat i * maxContentSize + maxContentSize) (len payload))
       = Done c) /\
    (payload = [] -> pieces = []).
Proof.
  intros Hroom Hmax Hwrap.
  destruct (sendStream_unbounded requestID payload writeEachRecord maxContentSize w
              Hroom Hmax Hwrap) as (w' & HS & _).
  rewrite serialize_stream, concat_app in HS. cbn [concat] in HS.
  rewrite app_nil_r in HS.
  exists (chunks (Z.to_nat maxContentSize) payload), w'.
  split; [exact HS|]. split; [|split].
  - unfold len. rewrite chunks_length by lia.
    rewrite Nat2Z.inj_div.
    replace (Z.of_nat (length payload + Z.to_nat maxContentSize - 1))
      with (Z.of_nat (length payload) + maxContentSize - 1) by lia.
    rewrite Z2Nat.id by lia. reflexivity.
  - intros i c Hi.
    destruct (chunks_lookup (Z.to_nat maxContentSize) ltac:(lia) i payload c Hi)
      as [-> Hlt].
    assert (Hlt' : Z.of_nat i * maxContentSize < len payload).
    { unfold len. nia. }
    split; [exact Hlt'|].
    rewrite slice_in by (unfold len in *; lia). f_equal.
    replace (Z.to_nat (Z.of_nat i * maxContentSize)) with (i * Z.to_nat maxContentSize)%nat
      by nia.
    destruct (Z.min_spec (Z.of_nat i * maxContentSize + maxContentSize) (len payload))
      as [[Hm ->]|[Hm ->]].
    + f_equal. lia.
    + rewrite !take_ge; [reflexivity| |]; rewrite length_drop; unfold len in *; nia.
  - intros ->. reflexivity.
Qed.

Lemma sendStream_pieces_witness :
  exists (pieces : list (list byte)) (w' : world),
    sendStream 1 (list_byte_of_string "0123456789") false 4 (connection [] None)
    = (Done (Ok (concat (map (fun c => serialize (literal FCGIStdout 1 c)) pieces)
                 ++ serialize (literal FCGIStdout 1 []))), w') /\
    len pieces = 3.
Proof.
  destruct (sendStream_pieces 1 (list_byte_of_string "0123456789") false 4
              (connection [] None) eq_refl ltac:(lia) ltac:(vm_compute; reflexivity))
    as (pieces & w' & HS & Hn & _).
  exists pieces, w'. split; [exact HS|exact Hn].
Defined.

(** With a content limit of zero every turn of the loop of [sendStream]
    produces an empty Stdout record and leaves [i] where it was. *)
Lemma sendStream_loop_zero (requestID : Z) (payload : list byte)
    (writeEachRecord : bool) (i : Z) :
  0 <= i < len payload ->
  len payload < 2 ^ 63 ->
  forall (fuel : nat) (buf : list byte) (w : world),
    conn_room w = None ->
    exists w',
      sendStream_loop fuel requestID payload writeEachRecord 0 i buf w = (OutOfFuel, w') /\
      conn_out w' = conn_out w
                    ++ (if writeEachRecord
                        then replicate fuel (serialize (literal FCGIStdout requestID []))
                        else []).
Proof.
  intros Hi Hlen fuel. induction fuel as [|fuel IH]; intros buf w Hroom.
  - exists w. split; [reflexivity|]. destruct writeEachRecord; cbn; rewrite app_nil_r;
      reflexivity.
  - cbn [sendStream_loop].
    replace (i <? len payload) with true by (symmetry; apply Z.ltb_lt; lia).
    rewrite Z.add_0_r, int_small by (pow2; lia).
    replace (i >? len payload) with false by (symmetry; rewrite Z.gtb_ltb; apply Z.ltb_ge; lia).
    rewrite bind_lift, slice_in by lia. rewrite Z.sub_diag. cbn [Z.to_nat take].
    rewrite bind_log.
    destruct writeEachRecord.
    + destruct (writeAll_spec (serialize (literal FCGIStdout requestID []))
                  (add_log w (LogContentDataSize (len (@nil byte)))))
        as (err & w1 & HW & (_ & _ & _ & _ & Hr1) & Hfit & _).
      cbn [conn_room add_log] in Hfit, Hr1. rewrite Hroom in Hfit, Hr1.
      destruct (Hfit I) as [-> Hout1].
      rewrite (bind_Done _ _ _ _ _ HW).
      destruct (IH (buf ++ serialize (literal FCGIStdout requestID [])) w1 Hr1)
        as (w' & HL & Hout).
      exists w'. split; [exact HL|].
      rewrite Hout, Hout1. cbn [conn_out add_log replicate]. rewrite <- app_assoc.
      reflexivity.
    + rewrite bind_ret.
      destruct (IH (buf ++ serialize (literal FCGIStdout requestID []))
                   (add_log w (LogContentDataSize (len (@nil byte)))) Hroom)
        as (w' & HL & Hout).
      exists w'. split; [exact HL|exact Hout].
Qed.

(** X13. With a content limit of zero the loop of [sendStream] does not
    end on a payload that is not empty: whatever the number of turns
    allowed, it has not finished after them. Each turn produces a Stdout
    record without content, and with a write per record that record goes
    out on the transport each time. [sendStream] and [sendResponse]
    therefore do not return. *)
Theorem sendStream_zero_limit_loops (requestID : Z) (payload : list byte)
    (writeEachRecord : bool) (w : world) :
  payload <> [] ->
  len payload < 2 ^ 63 ->
  conn_room w = None ->
  (forall fuel : nat,
     exists w',
       sendStream_loop fuel requestID payload writeEachRecord 0 0 [] w = (OutOfFuel, w') /\
       conn_out w' = conn_out w
                     ++ (if writeEachRecord
                         then replicate fuel (serialize (literal FCGIStdout requestID []))
                         else []))
  /\
  fst (sendStream requestID payload writeEachRecord 0 w) = OutOfFuel
  /\
  (forall bodySize, 0 <= bodySize < 2 ^ 62 ->
     fst (sendResponse requestID bodySize writeEachRecord 0 w) = OutOfFuel).
Proof.
  intros Hne Hlen Hroom.
  assert (Hpos : 0 <= 0 < len payload).
  { destruct payload; [congruence|]. unfold len. simpl. lia. }
  split; [|split].
  - intros fuel. apply sendStream_loop_zero; assumption.
  - unfold sendStream.
    destruct (sendStream_loop_zero requestID payload writeEachRecord 0 Hpos Hlen
                (S (length payload)) [] w Hroom) as (w' & HL & _).
    unfold bind. rewrite HL. reflexivity.
  - intros bodySize Hb. unfold sendResponse.
    rewrite bind_lift, make_nonneg by lia. rewrite fmap_replicate.
    rewrite len_replicate, len_headers by lia.
    rewrite int_small by (pow2; lia).
    rewrite bind_lift. unfold make_cap.
    replace ((0 <? 0) || (bodySize + 47 <? 0)) with false
      by (symmetry; apply orb_false_iff; split; [reflexivity|apply Z.ltb_ge; lia]).
    change ((replicate (Z.to_nat 0) x00 ++ headers) ++ replicate (Z.to_nat bodySize) "a"%byte)
      with (payloadOf bodySize).
    assert (Hp : len (payloadOf bodySize) = 47 + bodySize).
    { unfold payloadOf. rewrite len_app, len_headers, len_replicate by lia. reflexivity. }
    unfold sendStream.
    destruct (sendStream_loop_zero requestID (payloadOf bodySize) writeEachRecord 0
                ltac:(lia) ltac:(pow2; lia) (S (length (payloadOf bodySize))) [] w Hroom)
      as (w' & HL & _).
    unfold bind. rewrite HL. reflexivity.
Qed.

Lemma sendStream_zero_limit_loops_witness :
  fst (sendStream 1 [x61] true 0 (connection [] None)) = OutOfFuel.
Proof.
  exact (proj1 (proj2 (sendStream_zero_limit_loops 1 [x61] true (connection [] None)
                         ltac:(discriminate) ltac:(vm_compute; reflexivity) eq_refl))).
Defined.

(** X14. Negative sizes panic before anything is written or printed: a
    negative content limit makes the first slice expression of
    [sendStream] panic when there is a payload, and a negative body size
    makes the first [make] of [sendResponse] panic. With an empty payload
    the loop of [sendStream] is not entered and the limit plays no part:
    the empty Stdout record is all that is produced. *)
Theorem negative_sizes_panic (requestID : Z) (writeEachRecord : bool)
    (maxContentSize : Z) (w : world) :
  (forall payload : list byte,
     payload <> [] -> len payload < 2 ^ 63 ->
     - 2 ^ 63 <= maxContentSize < 0 ->
     sendStream requestID payload writeEachRecord maxContentSize w
     = (Panic (SliceOutOfRange 0 maxContentSize (len payload)), w))
  /\
  (forall bodySize : Z,
     bodySize < 0 ->
     sendResponse requestID bodySize writeEachRecord maxContentSize w
     = (Panic (MakeLenOutOfRange bodySize), w))
  /\
  (conn_room w = None ->
   exists w',
     sendStream requestID [] writeEachRecord maxContentSize w
     = (Done (Ok (serialize (literal FCGIStdout requestID []))), w') /\
     conn_out w' = conn_out w
                   ++ (if writeEachRecord
                       then [serialize (literal FCGIStdout requestID [])] else [])).
Proof.
  split; [|split].
  - intros payload Hne Hlen Hmax. unfold sendStream.
    assert (Hpos : 0 < len payload).
    { destruct payload; [congruence|]. unfold len. simpl. lia. }
    cbn [sendStream_loop].
    replace (0 <? len payload) with true by (symmetry; apply Z.ltb_lt; lia).
    rewrite Z.add_0_l, int_small by (pow2; lia).
    replace (maxContentSize >? len payload) with false
      by (symmetry; rewrite Z.gtb_ltb; apply Z.ltb_ge; lia).
    unfold bind at 1. rewrite bind_lift, slice_out by lia. reflexivity.
  - intros bodySize Hb. unfold sendResponse. rewrite bind_lift. unfold make.
    replace (bodySize <? 0) with true by (symmetry; apply Z.ltb_lt; lia).
    reflexivity.
  - intros Hroom. unfold sendStream. cbn [length sendStream_loop].
    change (0 <? len (@nil byte)) with false. cbn iota. rewrite bind_ret.
    cbn [app].
    destruct writeEachRecord.
    + destruct (writeAll_spec (serialize (literal FCGIStdout requestID [])) w)
        as (err & w1 & HW & _ & Hfit & _).
      rewrite Hroom in Hfit. destruct (Hfit I) as [-> Hout].
      rewrite (bind_Done _ _ _ _ _ HW). exists w1. split; [reflexivity|exact Hout].
    + rewrite bind_ret. exists w. split; [reflexivity|]. rewrite app_nil_r. reflexivity.
Qed.

Lemma negative_sizes_panic_witness :
  sendStream 1 [x61; x62] true (-1) (connection [] None)
  = (Panic (SliceOutOfRange 0 (-1) 2), connection [] None).
Proof.
  exact (proj1 (negative_sizes_panic 1 true (-1) (connection [] None)) [x61; x62]
               ltac:(discriminate) ltac:(vm_compute; reflexivity)
               ltac:(vm_compute; intuition discriminate)).
Defined.

(** ** Reading a response back *)

Lemma set_in_same_in (w : world) : set_in w (conn_in w) = w.
Proof. destruct w; reflexivity. Qed.

(** Well-formed records that arrive in one segment are read back one by
    one, and what follows them stays pending. *)
Lemma readRecords_wire (records : list FCGIRecord) (post : list byte)
    (rest : list (list byte)) :
  Forall decoded records ->
  forall w : world,
    conn_in w = push (concat (map wire records) ++ post) rest ->
    readRecords (length records) w = (Done (Ok records), set_in w (push post rest)).
Proof.
  induction 1 as [|r rs Hr Hrs IH]; intros w Hin.
  - cbn in *. rewrite <- Hin, set_in_same_in. reflexivity.
  - cbn [length readRecords map concat] in *. rewrite <- app_assoc in Hin.
    rewrite (bind_Done _ _ _ _ _ (readRecord_wire r w _ rest Hr Hin)).
    rewrite (bind_Done _ _ _ _ _ (IH (set_in w (push (concat (map wire rs) ++ post) rest))
                                       eq_refl)).
    reflexivity.
Qed.

(** X15. A response is read back by [readRecord]. With arguments that
    [getArgs] accepts and a request id of sixteen bits, what
    [sendResponse] hands to a transport that takes everything, in either
    mode, is decoded by repeated [readRecord] into: one Stdout record per
    piece of the payload, the Stdout record without content, and the
    EndRequest record with eight zero bytes; nothing is left over. *)
Theorem sendResponse_reads_back (bodySize : Z) (writeEachRecord : bool)
    (maxContentSize : Z) (args : Args) (requestID : Z) (w : world) :
  getArgs bodySize writeEachRecord maxContentSize = Ok args ->
  bodySize < 2 ^ 61 ->
  0 <= requestID <= 65535 ->
  conn_room w = None ->
  exists w',
    sendResponse requestID (BodySize args) (WriteEachRecord args)
                 (MaxContentSize args) w = (Done None, w') /\
    let out := concat (drop (length (conn_out w)) (conn_out w')) in
    let pieces := chunks (Z.to_nat (MaxContentSize args)) (payloadOf (BodySize args)) in
    concat pieces = payloadOf (BodySize args) /\
    forall v : world,
      readRecords (length pieces + 2) (set_in v [out])
      = (Done (Ok (map (received FCGIStdout requestID) pieces
                   ++ [received FCGIStdout requestID [];
                       received FCGIEndRequest requestID (replicate 8 x00)])),
         set_in v []).
Proof.
  intros Hargs Hbody Hid Hroom.
  unfold getArgs in Hargs.
  destruct (bodySize <=? 0) eqn:Hb; [discriminate|].
  destruct ((maxContentSize <=? 0) || (maxContentSize >? 65535)) eqn:Hm; [discriminate|].
  injection Hargs as <-. cbn [BodySize WriteEachRecord MaxContentSize].
  apply Z.leb_gt in Hb. apply orb_false_iff in Hm. destruct Hm as [Hm1 Hm2].
  apply Z.leb_gt in Hm1. rewrite Z.gtb_ltb in Hm2. apply Z.ltb_ge in Hm2.
  destruct (sendResponse_unbounded requestID bodySize writeEachRecord maxContentSize w
              Hroom ltac:(lia) ltac:(lia) ltac:(pow2; lia))
    as (w' & HS & Hout & _).
  exists w'. split; [exact HS|]. cbn zeta.
  assert (Hn : (1 <= Z.to_nat maxContentSize)%nat) by lia.
  split; [apply chunks_concat; exact Hn|].
  intros v.
  set (pieces := chunks (Z.to_nat maxContentSize) (payloadOf bodySize)) in *.
  set (records := map (received FCGIStdout requestID) pieces
                  ++ [received FCGIStdout requestID [];
                      received FCGIEndRequest requestID (replicate 8 x00)]).
  assert (Hbytes : concat (drop (length (conn_out w)) (conn_out w'))
                   = concat (map wire records)).
  { rewrite Hout, drop_app_length.
    assert (Hs : map serialize (responseRecords requestID bodySize maxContentSize)
                 = map wire records).
    { unfold responseRecords, streamRecords, records. fold pieces.
      rewrite !map_app, !map_map. cbn [map app]. rewrite <- app_assoc. cbn [app].
      f_equal. apply map_ext. intros c. apply serialize_literal. }
    destruct writeEachRecord.
    - rewrite Hs. reflexivity.
    - cbn [concat]. rewrite app_nil_r, Hs. reflexivity. }
  assert (Hdec : Forall decoded records).
  { unfold records. apply Forall_app. split.
    - apply Forall_map. 
      eapply Forall_impl; [apply (chunks_bounded _ (payloadOf bodySize) Hn)|].
      intros c Hc. cbn beta in Hc. apply decoded_received.
      + vm_compute. intuition discriminate.
      + exact Hid.
      + unfold len. fold pieces. lia.
    - repeat constructor; apply decoded_received;
        try exact Hid; vm_compute; intuition discriminate. }
  assert (Hlen : (length pieces + 2)%nat = length records).
  { unfold records. rewrite length_app, length_map. reflexivity. }
  rewrite Hlen, Hbytes.
  assert (Hne : exists b l, concat (map wire records) = b :: l).
  { unfold records. destruct pieces; cbn; eauto. }
  destruct Hne as (b & l & Hne).
  rewrite (readRecords_wire records [] [] Hdec (set_in v [concat (map wire records)])).
  - reflexivity.
  - cbn [conn_in set_in]. rewrite app_nil_r, Hne. reflexivity.
Qed.

Lemma sendResponse_reads_back_witness :
  exists w',
    sendResponse 1 5 true 20 (connection [] None) = (Done None, w') /\
    forall v : world,
      readRecords (length (chunks 20 (payloadOf 5)) + 2)
                  (set_in v [concat (drop 0 (conn_out w'))])
      = (Done (Ok (map (received FCGIStdout 1) (chunks 20 (payloadOf 5))
                   ++ [received FCGIStdout 1 [];
                       received FCGIEndRequest 1 (replicate 8 x00)])),
         set_in v []).
Proof.
  destruct (sendResponse_reads_back 5 true 20 _ 1 (connection [] None) eq_refl
              ltac:(vm_compute; reflexivity) ltac:(lia) eq_refl)
    as (w' & HS & _ & HR).
  exists w'. split; [exact HS|exact HR].
Defined.

(** ** Runs of the connection handler *)

(** What one continuing turn does to the table and to the output. *)
Lemma turn_effect (args : Args) (t t' : gmap Z bool) (record : FCGIRecord)
    (w w' : world) :
  sendable args ->
  conn_room w = None ->
  turn args t w record t' w' ->
  t' = track t record /\
  conn_out w' = conn_out w ++ (if RType record =? FCGIStdin
                               then responseWrites args (RequestID record) else []) /\
  (RType record = FCGIBeginRequest \/ RType record = FCGIParams \/
   RType record = FCGIStdin).
Proof.
  intros Hs Hroom Hturn.
  destruct (turn_pending args t t' record w w' Hs Hturn) as (Hd & _).
  destruct Hturn as (w0 & HR & HH).
  destruct (readRecord_closed w w0 (Ok record) HR) as (_ & Hout0 & Hroom0).
  rewrite Hroom in Hroom0. unfold track.
  destruct (Z.eq_dec (RType record) FCGIBeginRequest) as [Hb|Hnb].
  { destruct (handleRecord_begin_inv args t t' record w0 w' Hb HH)
      as (c0 & c1 & c2 & tail & Hc & _ & -> & ->).
    rewrite Hb, Hc. cbn. rewrite app_nil_r. auto. }
  replace (RType record =? FCGIBeginRequest) with false
    by (symmetry; apply Z.eqb_neq; exact Hnb).
  destruct (Z.eq_dec (RType record) FCGIParams) as [Hp|Hnp].
  { destruct (handleRecord_params args t record w0 Hp (decoded_len _ Hd))
      as (w1 & (_ & A2 & _) & [HP|[p HP]]); rewrite HP in HH; [|discriminate].
    injection HH as <- <-. rewrite Hp. cbn. rewrite app_nil_r, A2. auto. }
  destruct (Z.eq_dec (RType record) FCGIStdin) as [Hi|Hni].
  { destruct (handleRecord_stdin args t record w0 Hi Hs Hroom0)
      as (w1 & HS & Hout1 & _).
    rewrite HS in HH. rewrite Hi. change (FCGIStdin =? FCGIStdin) with true. cbn iota.
    destruct (default false (t !! RequestID record)); [discriminate|].
    injection HH as <- <-. rewrite Hout1, Hout0. auto. }
  rewrite (handleRecord_other args t record w0 Hnb Hnp Hni) in HH. discriminate.
Qed.

(** X16. Along a run of turns on which the loop continues, on a transport
    that takes everything, the output grows by exactly one response per
    Stdin record, in the order of the Stdin records and for their request
    ids, and by nothing else; the table is the starting table with every
    record applied in order (BeginRequest stores bit 0 of the flags byte,
    Stdin removes the id); every record of the run is a BeginRequest,
    Params or Stdin record; and the connection is not closed on the
    way. *)
Theorem reads_table_and_output (args : Args) (t t' : gmap Z bool)
    (records : list FCGIRecord) (w w' : world) :
  sendable args ->
  conn_room w = None ->
  reads args t w records t' w' ->
  t' = fold_left track records t /\
  conn_out w' = conn_out w ++ served args records /\
  conn_closed w' = conn_closed w /\
  Forall (fun r => RType r = FCGIBeginRequest \/ RType r = FCGIParams \/
                   RType r = FCGIStdin) records.
Proof.
  intros Hs Hroom Hreads. induction Hreads as [t w|t w r t1 w1 rs t2 w2 Hturn Hrs IH].
  - unfold served. cbn. rewrite app_nil_r. repeat split. constructor.
  - destruct (turn_effect args t t1 r w w1 Hs Hroom Hturn) as (Ht1 & Hout1 & Hty).
    destruct (turn_pending args t t1 r w w1 Hs Hturn) as (_ & _ & Hr1).
    destruct (IH (Hr1 Hroom)) as (Ht2 & Hout2 & Hcl2 & Hall).
    split; [|split; [|split]].
    + cbn [fold_left]. rewrite <- Ht1. exact Ht2.
    + rewrite Hout2, Hout1. unfold served. cbn [map concat].
      rewrite <- app_assoc. reflexivity.
    + rewrite Hcl2. exact (turn_closed args t t1 r w w1 Hs Hturn).
    + constructor; assumption.
Qed.

Lemma reads_table_and_output_witness :
  let args := smallArgs true in
  let w := connection [wire (beginRecord 1 x00) ++ wire (stdinRecord 1)
                       ++ wire (beginRecord 2 x01)] None in
  let w1 := snd (loopBody args ∅ w) in
  let w2 := snd (loopBody args {[1 := false]} w1) in
  let w3 := snd (loopBody args ∅ w2) in
  conn_out w3 = responseWrites args 1 /\
  ({[2 := true]} : gmap Z bool) = track (track (track ∅ (beginRecord 1 x00)) (stdinRecord 1))
                                        (beginRecord 2 x01).
Proof.
  intros args w w1 w2 w3.
  assert (H1 : turn args ∅ w (beginRecord 1 x00) {[1 := false]} w1).
  { exists (snd (readRecord w)). split; vm_compute; reflexivity. }
  assert (H2 : turn args {[1 := false]} w1 (stdinRecord 1) ∅ w2).
  { exists (snd (readRecord w1)). split; vm_compute; reflexivity. }
  assert (H3 : turn args ∅ w2 (beginRecord 2 x01) {[2 := true]} w3).
  { exists (snd (readRecord w2)). split; vm_compute; reflexivity. }
  destruct (reads_table_and_output args ∅ {[2 := true]}
              [beginRecord 1 x00; stdinRecord 1; beginRecord 2 x01] w w3
              (sendable_smallArgs true) eq_refl
              (reads_cons _ _ _ _ _ _ _ _ _ H1
                 (reads_cons _ _ _ _ _ _ _ _ _ H2
                    (reads_cons _ _ _ _ _ _ _ _ _ H3 (reads_nil _ _ _)))))
    as (Ht & Hout & _).
  split.
  - rewrite Hout. unfold served. cbn. rewrite app_nil_r. reflexivity.
  - exact Ht.
Defined.

(** No branch of the loop body closes the connection or changes what
    closing it will return. *)
Lemma handleRecord_keeps_open (args : Args) (t : gmap Z bool) (record : FCGIRecord)
    (w : world) :
  decoded record ->
  sendable args ->
  conn_closed (snd (handleRecord args t record w)) = conn_closed w /\
  conn_close_err (snd (handleRecord args t record w)) = conn_close_err w.
Proof.
  intros Hd Hs.
  destruct (Z.eq_dec (RType record) FCGIBeginRequest) as [Hb|Hnb].
  { unfold handleRecord. rewrite handleRecord_greeting.
    rewrite Hb. change (FCGIBeginRequest =? FCGIBeginRequest) with true. cbn iota.
    rewrite bind_lift.
    destruct (parseBeginRequest record) as [[br|e]|p|].
    - destruct (negb (Role br =? FCGIResponder)); rewrite bind_log; split; reflexivity.
    - rewrite bind_log. split; reflexivity.
    - split; reflexivity.
    - split; reflexivity. }
  destruct (Z.eq_dec (RType record) FCGIParams) as [Hp|Hnp].
  { destruct (handleRecord_params args t record w Hp (decoded_len _ Hd))
      as (w1 & (_ & _ & _ & A4 & A5) & [HP|[p HP]]); rewrite HP;
      (split; [exact A5|exact A4]). }
  destruct (Z.eq_dec (RType record) FCGIStdin) as [Hi|Hni].
  { destruct (handleRecord_stdin_room args t record w Hi Hs)
      as (f & w1 & HR & (_ & A2 & A3 & _) & _).
    rewrite HR. split; [exact A3|exact A2]. }
  rewrite (handleRecord_other args t record w Hnb Hnp Hni). split; reflexivity.
Qed.

Lemma handleConnection_loop_keeps_open (args : Args) :
  sendable args ->
  forall (fuel : nat) (t : gmap Z bool) (w : world),
    conn_closed (snd (handleConnection_loop fuel args t w)) = conn_closed w /\
    conn_close_err (snd (handleConnection_loop fuel args t w)) = conn_close_err w.
Proof.
  intros Hs fuel. induction fuel as [|fuel IH]; intros t w; [split; reflexivity|].
  destruct (handleConnection_loop (S fuel) args t w) as [o wf] eqn:HL.
  cbn [handleConnection_loop snd] in *. unfold bind at 1, loopBody in HL.
  destruct (readRecord_inv w) as (res & w0 & HR & Hw0 & Hspec).
  rewrite (bind_Done _ _ _ _ _ HR) in HL.
  assert (Hc0 : conn_closed w0 = conn_closed w /\ conn_close_err w0 = conn_close_err w).
  { rewrite Hw0. split; reflexivity. }
  destruct Hc0 as [Hc0 He0].
  destruct res as [record|e].
  - destruct Hspec as [Hd _].
    destruct (handleRecord_keeps_open args t record w0 Hd Hs) as [Hc1 He1].
    destruct (handleRecord args t record w0) as [[[t'|]|p|] w1]; cbn [snd] in *.
    + destruct (IH t' w1) as [Hc2 He2]. rewrite HL in Hc2, He2. cbn [snd] in *.
      split; congruence.
    + injection HL as <- <-. split; congruence.
    + injection HL as <- <-. split; congruence.
    + injection HL as <- <-. split; congruence.
  - rewrite bind_log in HL. injection HL as <- <-. cbn. split; assumption.
Qed.

(** X17. With arguments that [getArgs] can produce, [handleConnection]
    ends on every input: it returns or it panics, whatever the peer
    sends. When it returns, the connection has been closed and the last
    line printed is the one for the result of closing it. When it panics,
    the connection has not been closed. *)
Theorem handleConnection_ends (args : Args) (w : world) :
  sendable args ->
  exists (o : outcome unit) (wf : world),
    handleConnection args w = (o, wf) /\
    o <> OutOfFuel /\
    match o with
    | Done _ =>
      conn_closed wf = true /\
      last (console wf) = Some (match conn_close_err w with
                                | Some e => LogCloseError e
                                | None => LogConnectionClosed
                                end)
    | _ => conn_closed wf = conn_closed w
    end.
Proof.
  intros Hs. unfold handleConnection. rewrite bind_log.
  set (w1 := add_log w LogNewConnection).
  unfold bind at 1.
  pose proof (handleConnection_loop_returns args Hs (S (pending w1)) ∅ w1 ltac:(lia)) as Hne.
  destruct (handleConnection_loop_keeps_open args Hs (S (pending w1)) ∅ w1) as [Hc He].
  destruct (handleConnection_loop (S (pending w1)) args ∅ w1) as [[[]|p|] w2];
    cbn [fst snd] in *.
  - unfold bind at 1, Close. cbn [set_closed].
    change (conn_close_err w1) with (conn_close_err w) in He. rewrite <- He.
    destruct (conn_close_err w2) as [e|]; eexists _, _;
      (split; [reflexivity|]); (split; [discriminate|]);
      (split; [reflexivity|]); unfold log, add_log; cbn [console];
      apply last_snoc.
  - eexists _, _. split; [reflexivity|]. split; [discriminate|]. exact Hc.
  - congruence.
Qed.

Lemma handleConnection_ends_witness :
  exists (o : outcome unit) (wf : world),
    handleConnection (smallArgs true) (connection [[x01; x01]] None) = (o, wf) /\
    o <> OutOfFuel /\
    match o with
    | Done _ =>
      conn_closed wf = true /\ last (console wf) = Some LogConnectionClosed
    | _ => conn_closed wf = false
    end.
Proof.
  exact (handleConnection_ends (smallArgs true) (connection [[x01; x01]] None)
                               (sendable_smallArgs true)).
Defined.

(** An unknown role is reported from the first two content bytes alone. *)
Lemma parseBeginRequest_unknown_role (record : FCGIRecord) (c0 c1 : byte)
    (tail : list byte) :
  ContentData record = c0 :: c1 :: tail ->
  b2z c0 * 256 + b2z c1 < 1 \/ 3 < b2z c0 * 256 + b2z c1 ->
  parseBeginRequest record = Done (Err (ErrUnknownRole c0 c1)).
Proof.
  intros Hc Hr. unfold parseBeginRequest. rewrite Hc.
  rewrite (index_lookup _ 0 c0) by (cbn; (lia || reflexivity)).
  rewrite (index_lookup _ (0 + 1) c1) by (cbn; (lia || reflexivity)).
  cbn [bindO]. rewrite be16, (uint16_small _ (be16_range c0 c1)).
  rewrite (getRole_unknown _ Hr). reflexivity.
Qed.

(** X18. How a connection ends without a response. After any run of
    continuing turns, the loop ends, the connection is closed and nothing
    more is written when the next read fails (end of input, a short read,
    a bad header), when the next record has a type other than
    BeginRequest, Params and Stdin, or when it is a BeginRequest whose
    role is not Responder: the Authorizer and Filter roles with a flags
    byte present, and every unknown role. In the last two cases what
    follows the record on the input is left unread. *)
Theorem connection_ends_without_response (args : Args) (records : list FCGIRecord)
    (t : gmap Z bool) (w0 w : world) :
  sendable args ->
  reads args ∅ (add_log w0 LogNewConnection) records t w ->
  (forall (e : error) (w1 : world),
     readRecord w = (Done (Err e), w1) ->
     exists wf,
       handleConnection args w0 = (Done tt, wf) /\
       conn_closed wf = true /\ conn_out wf = conn_out w /\ conn_in wf = conn_in w1)
  /\
  (forall (r : FCGIRecord) (post : list byte) (rest : list (list byte)),
     decoded r ->
     conn_in w = push (wire r ++ post) rest ->
     (RType r <> FCGIBeginRequest /\ RType r <> FCGIParams /\ RType r <> FCGIStdin) \/
     (RType r = FCGIBeginRequest /\
      exists (c0 c1 : byte) (tail : list byte),
        ContentData r = c0 :: c1 :: tail /\
        (b2z c0 * 256 + b2z c1 < 1 \/ 3 < b2z c0 * 256 + b2z c1 \/
         (2 <= b2z c0 * 256 + b2z c1 <= 3 /\ tail <> []))) ->
     exists wf,
       handleConnection args w0 = (Done tt, wf) /\
       conn_closed wf = true /\ conn_out wf = conn_out w /\ conn_in wf = push post rest).
Proof.
  intros Hs Hreads. split.
  - intros e w1 HR.
    destruct (readRecord_closed w w1 (Err e) HR) as (_ & Hout & _).
    destruct (handleConnection_break args t records w0 w
                (add_log w1 (LogReadingRecord e)) Hs Hreads) as (wf & HC & Hcl & Hin & Ho).
    { unfold loopBody. rewrite (bind_Done _ _ _ _ _ HR). rewrite bind_log. reflexivity. }
    exists wf. split; [exact HC|]. split; [exact Hcl|]. split; [|exact Hin].
    rewrite Ho. exact Hout.
  - intros r post rest Hd Hin Hcase.
    pose proof (readRecord_wire r w post rest Hd Hin) as HR.
    assert (HB : exists w', handleRecord args t r (set_in w (push post rest)) = (Done Break, w')
                   /\ conn_out w' = conn_out w /\ conn_in w' = push post rest).
    { destruct Hcase as [(Hnb & Hnp & Hni)|(Hb & c0 & c1 & tail & Hc & Hrole)].
      - rewrite (handleRecord_other args t r _ Hnb Hnp Hni).
        eexists. split; [reflexivity|]. split; reflexivity.
      - unfold handleRecord. rewrite handleRecord_greeting.
        rewrite Hb. change (FCGIBeginRequest =? FCGIBeginRequest) with true. cbn iota.
        rewrite bind_lift.
        destruct Hrole as [Hlo|[Hhi|[Hmid Hne]]].
        + rewrite (parseBeginRequest_unknown_role r c0 c1 tail Hc (or_introl Hlo)).
          rewrite bind_log. eexists. split; [reflexivity|]. split; reflexivity.
        + rewrite (parseBeginRequest_unknown_role r c0 c1 tail Hc (or_intror Hhi)).
          rewrite bind_log. eexists. split; [reflexivity|]. split; reflexivity.
        + destruct tail as [|c2 tail]; [congruence|].
          rewrite (parseBeginRequest_three r c0 c1 c2 tail Hc). cbn zeta.
          rewrite (getRole_id (b2z c0 * 256 + b2z c1)) by lia.
          replace (b2z c0 * 256 + b2z c1 =? FCGIUnknownRole) with false
            by (symmetry; apply Z.eqb_neq; unfold FCGIUnknownRole; lia).
          cbn [Role].
          replace (b2z c0 * 256 + b2z c1 =? FCGIResponder) with false
            by (symmetry; apply Z.eqb_neq; unfold FCGIResponder; lia).
          cbn [negb]. rewrite bind_log.
          eexists. split; [reflexivity|]. split; reflexivity. }
    destruct HB as (w' & HH & Hout' & Hin').
    destruct (handleConnection_break args t records w0 w w' Hs Hreads)
      as (wf & HC & Hcl & Hinf & Ho).
    { unfold loopBody. rewrite (bind_Done _ _ _ _ _ HR). exact HH. }
    exists wf. split; [exact HC|]. split; [exact Hcl|]. split; congruence.
Qed.

Lemma connection_ends_without_response_witness :
  exists wf,
    handleConnection (smallArgs true) (connection [] None) = (Done tt, wf) /\
    conn_closed wf = true /\ conn_out wf = [] /\ conn_in wf = [].
Proof.
  exact (proj1 (connection_ends_without_response (smallArgs true) [] ∅
                  (connection [] None) (add_log (connection [] None) LogNewConnection)
                  (sendable_smallArgs true) (reads_nil _ _ _))
               (ErrReadingHeader EOF)
               (add_log (connection [] None) LogNewConnection)
               eq_refl).
Defined.

(** X19. A transport that stops taking bytes in the middle of a response
    ends the connection. After any run of continuing turns, when a Stdin
    record arrives and the transport has room for fewer bytes than the
    response has, [handleConnection] returns with the connection closed,
    whatever the table says about the request id and in either write
    mode; the bytes that reached the transport are the first bytes of the
    response, as many as there was room for, and the input after the
    Stdin record is left unread. *)
Theorem response_cut_short (args : Args) (records : list FCGIRecord)
    (t : gmap Z bool) (w0 w : world) (r : FCGIRecord) (post : list byte)
    (rest : list (list byte)) (room : nat) :
  sendable args ->
  reads args ∅ (add_log w0 LogNewConnection) records t w ->
  decoded r ->
  RType r = FCGIStdin ->
  conn_in w = push (wire r ++ post) rest ->
  conn_room w = Some room ->
  let bytes := responseBytes (RequestID r) (BodySize args) (MaxContentSize args) in
  (room < length bytes)%nat ->
  exists wf,
    handleConnection args w0 = (Done tt, wf) /\
    conn_closed wf = true /\
    concat (conn_out wf) = concat (conn_out w) ++ take room bytes /\
    conn_in wf = push post rest.
Proof.
  intros Hs Hreads Hd Hty Hin Hroom bytes Hlt.
  pose proof (readRecord_wire r w post rest Hd Hin) as HR.
  destruct (handleRecord_stdin_room args t r (set_in w (push post rest)) Hty Hs)
    as (f & w1 & HH & (A1 & _ & _ & A4 & _) & _ & Hbreak).
  fold bytes in Hbreak, A4. cbn [conn_room set_in conn_out conn_in] in *.
  rewrite Hroom in Hbreak, A4. cbn [fits sent] in *.
  rewrite (Hbreak ltac:(lia)) in HH.
  destruct (handleConnection_break args t records w0 w w1 Hs Hreads)
    as (wf & HC & Hcl & Hinf & Ho).
  { unfold loopBody. rewrite (bind_Done _ _ _ _ _ HR). exact HH. }
  exists wf. split; [exact HC|]. split; [exact Hcl|]. split.
  - rewrite Ho. exact A4.
  - rewrite Hinf. exact A1.
Qed.

Lemma response_cut_short_witness :
  let w0 := connection [wire (stdinRecord 1) ++ [xff]] (Some 10%nat) in
  exists wf,
    handleConnection (smallArgs false) w0 = (Done tt, wf) /\
    conn_closed wf = true /\
    concat (conn_out wf) = take 10 (responseBytes 1 1 65535) /\
    conn_in wf = [[xff]].
Proof.
  intros w0.
  exact (response_cut_short (smallArgs false) [] ∅ w0 (add_log w0 LogNewConnection)
           (stdinRecord 1) [xff] [] 10%nat
           (sendable_smallArgs false) (reads_nil _ _ _)
           ltac:(vm_compute; intuition discriminate) eq_refl eq_refl eq_refl
           ltac:(vm_compute; lia)).
Defined.

(** ** The revision with signed header fields *)

Lemma int8_b2z (b : byte) :
  Signed.int8 (b2z b) = if b2z b <? 128 then b2z b else b2z b - 256.
Proof.
  pose proof (b2z_range b) as Hb. unfold Signed.int8.
  change (2 ^ 7) with 128. change (2 ^ 8) with 256.
  destruct (b2z b <? 128) eqn:E.
  - apply Z.ltb_lt in E. rewrite Z.mod_small by lia. lia.
  - apply Z.ltb_ge in E.
    assert (H : (b2z b + 128) mod 256 = b2z b - 128)
      by (symmetry; apply (Z.mod_unique _ _ 1); lia).
    rewrite H. lia.
Qed.

Lemma int16_small (z : Z) : - 32768 <= z < 32768 -> Signed.int16 z = z.
Proof.
  intros H. unfold Signed.int16. change (2 ^ 15) with 32768. change (2 ^ 16) with 65536.
  rewrite Z.mod_small by lia. lia.
Qed.

Lemma int16_wrap (z : Z) : 32768 <= z < 65536 -> Signed.int16 z = z - 65536.
Proof.
  intros H. unfold Signed.int16. change (2 ^ 15) with 32768. change (2 ^ 16) with 65536.
  assert (Hm : (z + 32768) mod 65536 = z - 32768)
    by (symmetry; apply (Z.mod_unique _ _ 1); lia).
  rewrite Hm. lia.
Qed.

(** Two bytes assembled as an [int16]: the unsigned value, wrapped. *)
Lemma signed_be16 (hi lo : byte) :
  Z.lor (Signed.int16 (Signed.int16 (Z.shiftl (Signed.int16 (b2z hi)) 8)))
        (Signed.int16 (b2z lo))
  = Signed.int16 (b2z hi * 256 + b2z lo).
Proof.
  pose proof (b2z_range hi) as Hh. pose proof (b2z_range lo) as Hl.
  rewrite (int16_small (b2z hi)), (int16_small (b2z lo)) by lia.
  rewrite Z.shiftl_mul_pow2 by lia. change (2 ^ 8) with 256.
  destruct (Z.lt_ge_cases (b2z hi) 128) as [Hs|Hb].
  - rewrite !(int16_small (b2z hi * 256)) by lia.
    rewrite (int16_small (b2z hi * 256 + b2z lo)) by lia.
    change 256 with (2 ^ 8) at 1. rewrite lor_disjoint by (pow2; lia). reflexivity.
  - rewrite (int16_wrap (b2z hi * 256)) by lia.
    rewrite (int16_small (b2z hi * 256 - 65536)) by lia.
    rewrite (int16_wrap (b2z hi * 256 + b2z lo)) by lia.
    replace (b2z hi * 256 - 65536) with ((b2z hi - 256) * 2 ^ 8) by (pow2; lia).
    rewrite lor_disjoint by (pow2; lia). pow2. lia.
Qed.

Lemma int8_eqb (b : byte) (k : Z) :
  0 <= k < 128 -> (Signed.int8 (b2z b) =? k) = (b2z b =? k).
Proof.
  intros Hk. rewrite int8_b2z. pose proof (b2z_range b) as Hb.
  destruct (b2z b <? 128) eqn:E; [reflexivity|].
  apply Z.ltb_ge in E.
  transitivity false; [apply Z.eqb_neq; lia|symmetry; apply Z.eqb_neq; lia].
Qed.

Lemma getRecordType_int8 (b : byte) :
  getRecordType (Signed.int8 (b2z b)) = getRecordType (b2z b).
Proof.
  rewrite int8_b2z. pose proof (b2z_range b) as Hb.
  destruct (b2z b <? 128) eqn:E; [reflexivity|].
  apply Z.ltb_ge in E.
  rewrite !getRecordType_unknown by lia. reflexivity.
Qed.

(** The header of either [readRecord], read whole from one segment. *)
Lemma readFull_header (w : world) (h0 h1 h2 h3 h4 h5 h6 h7 : byte)
    (tail : list byte) (rest : list (list byte)) {B : Type}
    (k : list byte * option error -> M B) :
  conn_in w = ([h0; h1; h2; h3; h4; h5; h6; h7] ++ tail) :: rest ->
  bind (lift (make 8)) (fun header => bind (readFull header) k) w
  = k ([h0; h1; h2; h3; h4; h5; h6; h7], None) (set_in w (push tail rest)).
Proof.
  intros Hin. rewrite bind_lift. change (make 8) with (Done (replicate 8 x00)).
  cbn beta iota.
  rewrite (bind_Done _ _ _ _ _
             (readFull_push (replicate 8 x00) w [h0; h1; h2; h3; h4; h5; h6; h7]
                tail rest eq_refl Hin)).
  reflexivity.
Qed.

(** With a header that passes the three checks, what is left of either
    [readRecord] is the reading of content and padding. *)
Lemma signed_readRecord_header (w : world) (h0 h1 h2 h3 h4 h5 h6 h7 : byte)
    (tail : list byte) (rest : list (list byte)) :
  conn_in w = ([h0; h1; h2; h3; h4; h5; h6; h7] ++ tail) :: rest ->
  b2z h0 = 1 -> 1 <= b2z h1 <= 10 -> b2z h7 = 0 ->
  Signed.readRecord w
  = readBody 1 (b2z h1) (Signed.int16 (b2z h2 * 256 + b2z h3))
             (Signed.int16 (b2z h4 * 256 + b2z h5)) (Signed.int8 (b2z h6)) 0
             (set_in w (push tail rest)).
Proof.
  intros Hin Hv Ht Hr.
  unfold Signed.readRecord. cbn zeta.
  rewrite (readFull_header w h0 h1 h2 h3 h4 h5 h6 h7 tail rest _ Hin). cbn beta iota.
  rewrite bind_lift, (index_lookup _ 0 h0) by (lia || reflexivity).
  rewrite (int8_eqb h0 1), Hv by lia. change (negb (1 =? 1)) with false. cbn iota.
  rewrite bind_lift, (index_lookup _ (0 + 1) h1) by (lia || reflexivity).
  rewrite getRecordType_int8, getRecordType_id by lia.
  replace (b2z h1 =? FCGIUnknownType) with false
    by (symmetry; apply Z.eqb_neq; unfold FCGIUnknownType; lia).
  rewrite bind_lift, (index_lookup _ (0 + 1 + 1) h2) by (lia || reflexivity).
  rewrite bind_lift, (index_lookup _ (0 + 1 + 1 + 1) h3) by (lia || reflexivity).
  rewrite bind_lift, (index_lookup _ (0 + 1 + 1 + 2) h4) by (lia || reflexivity).
  rewrite bind_lift, (index_lookup _ (0 + 1 + 1 + 2 + 1) h5) by (lia || reflexivity).
  rewrite bind_lift, (index_lookup _ (0 + 1 + 1 + 2 + 2) h6) by (lia || reflexivity).
  rewrite bind_lift, (index_lookup _ (0 + 1 + 1 + 2 + 2 + 1) h7) by (lia || reflexivity).
  rewrite (int8_eqb h7 0), Hr by lia. change (negb (0 =? 0)) with false. cbn iota.
  rewrite !signed_be16.
  change (Signed.int8 1) with 1. change (Signed.int8 0) with 0. reflexivity.
Qed.

Lemma readRecord_header (w : world) (h0 h1 h2 h3 h4 h5 h6 h7 : byte)
    (tail : list byte) (rest : list (list byte)) :
  conn_in w = ([h0; h1; h2; h3; h4; h5; h6; h7] ++ tail) :: rest ->
  b2z h0 = 1 -> 1 <= b2z h1 <= 10 -> b2z h7 = 0 ->
  readRecord w
  = readBody 1 (b2z h1) (b2z h2 * 256 + b2z h3) (b2z h4 * 256 + b2z h5) (b2z h6) 0
             (set_in w (push tail rest)).
Proof.
  intros Hin Hv Ht Hr.
  unfold readRecord. cbn zeta.
  rewrite (readFull_header w h0 h1 h2 h3 h4 h5 h6 h7 tail rest _ Hin). cbn beta iota.
  rewrite bind_lift, (index_lookup _ 0 h0) by (lia || reflexivity).
  rewrite uint8_b2z, Hv. change (negb (1 =? 1)) with false. cbn iota.
  rewrite bind_lift, (index_lookup _ (0 + 1) h1) by (lia || reflexivity).
  rewrite uint8_b2z, getRecordType_id by lia.
  replace (b2z h1 =? FCGIUnknownType) with false
    by (symmetry; apply Z.eqb_neq; unfold FCGIUnknownType; lia).
  rewrite bind_lift, (index_lookup _ (0 + 1 + 1) h2) by (lia || reflexivity).
  rewrite bind_lift, (index_lookup _ (0 + 1 + 1 + 1) h3) by (lia || reflexivity).
  rewrite bind_lift, (index_lookup _ (0 + 1 + 1 + 2) h4) by (lia || reflexivity).
  rewrite bind_lift, (index_lookup _ (0 + 1 + 1 + 2 + 1) h5) by (lia || reflexivity).
  rewrite bind_lift, (index_lookup _ (0 + 1 + 1 + 2 + 2) h6) by (lia || reflexivity).
  rewrite bind_lift, (index_lookup _ (0 + 1 + 1 + 2 + 2 + 1) h7) by (lia || reflexivity).
  rewrite (uint8_b2z h7), Hr. change (negb (0 =? 0)) with false. cbn iota.
  rewrite !uint16_idem, !be16, !(uint8_b2z h6).
  reflexivity.
Qed.

(** X20. The signed revision of [readRecord] panics on lengths with the
    top bit set. On a header that passes the three checks, a content
    length of 0x8000 or more is a negative [int16] and the [make] for the
    content panics; with a content length below that and the content
    present, a padding length of 0x80 or more is a negative [int8] and
    the [make] for the padding panics. Nothing after the point of the
    panic has been read. *)
Theorem signed_readRecord_negative_length_panics (w : world)
    (h0 h1 h2 h3 h4 h5 h6 h7 : byte) (tail : list byte) (rest : list (list byte)) :
  conn_in w = ([h0; h1; h2; h3; h4; h5; h6; h7] ++ tail) :: rest ->
  b2z h0 = 1 -> 1 <= b2z h1 <= 10 -> b2z h7 = 0 ->
  (128 <= b2z h4 ->
   Signed.readRecord w
   = (Panic (MakeLenOutOfRange (b2z h4 * 256 + b2z h5 - 65536)),
      set_in w (push tail rest)))
  /\
  (b2z h4 < 128 -> 128 <= b2z h6 ->
   forall content post : list byte,
     tail = content ++ post ->
     len content = b2z h4 * 256 + b2z h5 ->
     Signed.readRecord w
     = (Panic (MakeLenOutOfRange (b2z h6 - 256)), set_in w (push post rest))).
Proof.
  intros Hin Hv Ht Hr.
  pose proof (b2z_range h4) as B4. pose proof (b2z_range h5) as B5.
  pose proof (b2z_range h6) as B6.
  pose proof (signed_readRecord_header w h0 h1 h2 h3 h4 h5 h6 h7 tail rest Hin Hv Ht Hr)
    as Hgo.
  split.
  - intros H4. rewrite Hgo. unfold readBody. rewrite bind_lift, int16_wrap by lia.
    unfold make. replace (b2z h4 * 256 + b2z h5 - 65536 <? 0) with true
      by (symmetry; apply Z.ltb_lt; lia).
    reflexivity.
  - intros H4 H6 content post Htail Hlen.
    rewrite Hgo. unfold readBody. rewrite bind_lift, int16_small, make_nonneg by lia.
    rewrite (bind_Done _ _ _ _ _
               (readFull_push (replicate (Z.to_nat (b2z h4 * 256 + b2z h5)) x00)
                  (set_in w (push tail rest)) content post rest
                  ltac:(rewrite length_replicate; unfold len in Hlen; lia)
                  ltac:(rewrite Htail; destruct (content ++ post); reflexivity))).
    rewrite bind_lift, int8_b2z.
    replace (b2z h6 <? 128) with false by (symmetry; apply Z.ltb_ge; lia).
    unfold make. replace (b2z h6 - 256 <? 0) with true by (symmetry; apply Z.ltb_lt; lia).
    reflexivity.
Qed.

Lemma signed_readRecord_negative_length_panics_witness :
  Signed.readRecord (connection [[x01; x05; x00; x01; x80; x00; x00; x00]] None)
  = (Panic (MakeLenOutOfRange (-32768)), connection [] None).
Proof.
  exact (proj1 (signed_readRecord_negative_length_panics
                  (connection [[x01; x05; x00; x01; x80; x00; x00; x00]] None)
                  x01 x05 x00 x01 x80 x00 x00 x00 [] [] eq_refl eq_refl
                  ltac:(vm_compute; intuition discriminate) eq_refl)
               ltac:(vm_compute; discriminate)).
Defined.

(** The request id plays no part in the reading of content and padding. *)
Lemma readBody_signedID (version recordType requestID contentLength paddingLength
                         reserved : Z) (w : world) :
  readBody version recordType (Signed.int16 requestID) contentLength paddingLength
           reserved w
  = (match fst (readBody version recordType requestID contentLength paddingLength
                         reserved w) with
     | Done (Ok r) => Done (Ok (signedID r))
     | o => o
     end,
     snd (readBody version recordType requestID contentLength paddingLength
                   reserved w)).
Proof.
  unfold readBody, bind, lift.
  destruct (make contentLength) as [content|p|]; [|reflexivity|reflexivity].
  destruct (readFull content w) as [[[content' [e|]]|p|] w1]; try reflexivity.
  destruct (make paddingLength) as [padding|p|]; [|reflexivity|reflexivity].
  destruct (readFull padding w1) as [[[padding' [e|]]|p|] w2]; reflexivity.
Qed.

(** X21. Where no length has its top bit set the two revisions of
    [readRecord] agree. On an input whose first segment holds a whole
    header with a content length below 0x8000 and a padding length below
    0x80, the signed [readRecord] returns the error that the unsigned one
    returns, or the record that it returns with the request id read as an
    [int16], and leaves the same input pending; for request ids below
    0x8000 that is the same record. *)
Theorem signed_readRecord_agrees (w : world) (h0 h1 h2 h3 h4 h5 h6 h7 : byte)
    (tail : list byte) (rest : list (list byte)) :
  conn_in w = ([h0; h1; h2; h3; h4; h5; h6; h7] ++ tail) :: rest ->
  b2z h4 < 128 ->
  b2z h6 < 128 ->
  Signed.readRecord w
  = (match fst (readRecord w) with
     | Done (Ok r) => Done (Ok (signedID r))
     | o => o
     end,
     snd (readRecord w))
  /\
  (forall r : FCGIRecord, 0 <= RequestID r < 32768 -> signedID r = r).
Proof.
  intros Hin H4 H6. split.
  - pose proof (b2z_range h4) as B4. pose proof (b2z_range h5) as B5.
    pose proof (b2z_range h6) as B6.
    destruct (Z.eq_dec (b2z h0) 1) as [Hv|Hv].
    + destruct (Z_le_dec 1 (b2z h1)) as [Ht1|Ht1];
        [destruct (Z_le_dec (b2z h1) 10) as [Ht2|Ht2]|].
      * destruct (Z.eq_dec (b2z h7) 0) as [Hr|Hr].
        -- rewrite (signed_readRecord_header w h0 h1 h2 h3 h4 h5 h6 h7 tail rest Hin Hv
                      (conj Ht1 Ht2) Hr).
           rewrite (readRecord_header w h0 h1 h2 h3 h4 h5 h6 h7 tail rest Hin Hv
                      (conj Ht1 Ht2) Hr).
           rewrite (int16_small (b2z h4 * 256 + b2z h5)) by lia.
           rewrite int8_b2z.
           replace (b2z h6 <? 128) with true by (symmetry; apply Z.ltb_lt; lia).
           apply readBody_signedID.
        -- unfold Signed.readRecord, readRecord. cbn zeta.
           rewrite !(readFull_header w h0 h1 h2 h3 h4 h5 h6 h7 tail rest _ Hin).
           cbn beta iota.
           rewrite !bind_lift, !(index_lookup _ 0 h0) by (lia || reflexivity).
           rewrite (int8_eqb h0 1), uint8_b2z, Hv by lia.
           change (negb (1 =? 1)) with false. cbn iota.
           rewrite !bind_lift, !(index_lookup _ (0 + 1) h1) by (lia || reflexivity).
           rewrite getRecordType_int8, uint8_b2z, getRecordType_id by lia.
           replace (b2z h1 =? FCGIUnknownType) with false
             by (symmetry; apply Z.eqb_neq; unfold FCGIUnknownType; lia).
           rewrite !bind_lift, !(index_lookup _ (0 + 1 + 1) h2) by (lia || reflexivity).
           rewrite !bind_lift, !(index_lookup _ (0 + 1 + 1 + 1) h3) by (lia || reflexivity).
           rewrite !bind_lift, !(index_lookup _ (0 + 1 + 1 + 2) h4) by (lia || reflexivity).
           rewrite !bind_lift, !(index_lookup _ (0 + 1 + 1 + 2 + 1) h5)
             by (lia || reflexivity).
           rewrite !bind_lift, !(index_lookup _ (0 + 1 + 1 + 2 + 2) h6)
             by (lia || reflexivity).
           rewrite !bind_lift, !(index_lookup _ (0 + 1 + 1 + 2 + 2 + 1) h7)
             by (lia || reflexivity).
           rewrite (int8_eqb h7 0), (uint8_b2z h7) by lia.
           apply Z.eqb_neq in Hr. rewrite Hr. reflexivity.
      * unfold Signed.readRecord, readRecord. cbn zeta.
        rewrite !(readFull_header w h0 h1 h2 h3 h4 h5 h6 h7 tail rest _ Hin).
        cbn beta iota.
        rewrite !bind_lift, !(index_lookup _ 0 h0) by (lia || reflexivity).
        rewrite (int8_eqb h0 1), uint8_b2z, Hv by lia.
        change (negb (1 =? 1)) with false. cbn iota.
        rewrite !bind_lift, !(index_lookup _ (0 + 1) h1) by (lia || reflexivity).
        rewrite getRecordType_int8, uint8_b2z, getRecordType_unknown by lia.
        reflexivity.
      * unfold Signed.readRecord, readRecord. cbn zeta.
        rewrite !(readFull_header w h0 h1 h2 h3 h4 h5 h6 h7 tail rest _ Hin).
        cbn beta iota.
        rewrite !bind_lift, !(index_lookup _ 0 h0) by (lia || reflexivity).
        rewrite (int8_eqb h0 1), uint8_b2z, Hv by lia.
        change (negb (1 =? 1)) with false. cbn iota.
        rewrite !bind_lift, !(index_lookup _ (0 + 1) h1) by (lia || reflexivity).
        rewrite getRecordType_int8, uint8_b2z, getRecordType_unknown by lia.
        reflexivity.
    + unfold Signed.readRecord, readRecord. cbn zeta.
      rewrite !(readFull_header w h0 h1 h2 h3 h4 h5 h6 h7 tail rest _ Hin).
      cbn beta iota.
      rewrite !bind_lift, !(index_lookup _ 0 h0) by (lia || reflexivity).
      rewrite (int8_eqb h0 1), uint8_b2z by lia.
      apply Z.eqb_neq in Hv. rewrite Hv. reflexivity.
  - intros r Hid. unfold signedID. rewrite int16_small by lia. destruct r; reflexivity.
Qed.

Lemma signed_readRecord_agrees_witness :
  Signed.readRecord (connection [[x01; x05; x80; x01; x00; x02; x01; x00; x68; x69; x00]]
                                None)
  = (Done (Ok {| Version := 1; RType := 5; RequestID := -32767; ContentLength := 2;
                 PaddingLength := 1; Reserved := 0; ContentData := [x68; x69];
                 PaddingData := [x00] |}),
     connection [] None).
Proof.
  exact (proj1 (signed_readRecord_agrees
                  (connection [[x01; x05; x80; x01; x00; x02; x01; x00; x68; x69; x00]] None)
                  x01 x05 x80 x01 x00 x02 x01 x00 [x68; x69; x00] [] eq_refl
                  ltac:(vm_compute; reflexivity) ltac:(vm_compute; reflexivity))).
Defined.

Lemma int16_range (z : Z) : - 32768 <= Signed.int16 z < 32768.
Proof.
  unfold Signed.int16. change (2 ^ 15) with 32768. change (2 ^ 16) with 65536.
  pose proof (Z.mod_pos_bound (z + 32768) 65536 ltac:(lia)). lia.
Qed.

Lemma int16_idem (z : Z) : Signed.int16 (Signed.int16 z) = Signed.int16 z.
Proof. apply int16_small, int16_range. Qed.

Lemma getRole_int16 (v : Z) : 0 <= v < 65536 -> getRole (Signed.int16 v) = getRole v.
Proof.
  intros Hv. destruct (Z.lt_ge_cases v 32768) as [Hs|Hb].
  - rewrite int16_small by lia. reflexivity.
  - rewrite int16_wrap by lia. rewrite !getRole_unknown by lia. reflexivity.
Qed.

Lemma land_int8_bit0 (c : byte) : Z.land (Signed.int8 (b2z c)) 1 = Z.land (b2z c) 1.
Proof.
  rewrite int8_b2z. destruct (b2z c <? 128); [reflexivity|].
  change 1 with (Z.ones 1). rewrite !Z.land_ones by lia.
  change (2 ^ 1) with 2.
  replace (b2z c - 256) with (b2z c + (-128) * 2) by lia.
  apply Z.mod_add. lia.
Qed.

(** X22. The two revisions of [parseBeginRequest] agree on every record:
    the signed one panics where the unsigned one panics, returns the
    unknown-role error where it does, and otherwise returns the same role
    with the flags byte read as an [int8]; bit 0 of the flags, the only
    one the handler looks at, is the same in both. *)
Theorem signed_parseBeginRequest_agrees (record : FCGIRecord) :
  Signed.parseBeginRequest record
  = match parseBeginRequest record with
    | Done (Ok br) =>
      Done (Ok {| Role := Role br; Flags := Signed.int8 (Flags br) |})
    | o => o
    end
  /\
  (forall br sbr,
     parseBeginRequest record = Done (Ok br) ->
     Signed.parseBeginRequest record = Done (Ok sbr) ->
     (Z.land (Flags sbr) 1 =? 1) = (Z.land (Flags br) 1 =? 1)).
Proof.
  assert (Heq : Signed.parseBeginRequest record
                = match parseBeginRequest record with
                  | Done (Ok br) =>
                    Done (Ok {| Role := Role br; Flags := Signed.int8 (Flags br) |})
                  | o => o
                  end
                /\ forall br, parseBeginRequest record = Done (Ok br) ->
                              exists c, Flags br = b2z c).
  { unfold Signed.parseBeginRequest, parseBeginRequest. cbn zeta.
    destruct (index (ContentData record) 0) as [c0|p|]; cbn [bindO];
      [|split; [reflexivity|discriminate]|split; [reflexivity|discriminate]].
    destruct (index (ContentData record) (0 + 1)) as [c1|p|]; cbn [bindO];
      [|split; [reflexivity|discriminate]|split; [reflexivity|discriminate]].
    rewrite be16, (uint16_small _ (be16_range c0 c1)).
    pose proof (signed_be16 c0 c1) as Hb. rewrite int16_idem in Hb.
    rewrite Hb, int16_idem.
    rewrite (getRole_int16 _ (be16_range c0 c1)).
    destruct (getRole (b2z c0 * 256 + b2z c1) =? FCGIUnknownRole);
      [split; [reflexivity|discriminate]|].
    destruct (index (ContentData record) (0 + 2)) as [c2|p|]; cbn [bindO];
      [|split; [reflexivity|discriminate]|split; [reflexivity|discriminate]].
    rewrite uint8_b2z. split; [reflexivity|].
    intros br Hbr. injection Hbr as <-. exists c2. reflexivity. }
  destruct Heq as [Heq Hfl]. split; [exact Heq|].
  intros br sbr Hbr Hsbr. rewrite Heq, Hbr in Hsbr. injection Hsbr as <-.
  destruct (Hfl br Hbr) as [c Hc]. cbn [Flags]. rewrite Hc, land_int8_bit0.
  reflexivity.
Qed.

(** ** A whole request *)

Lemma len_encodePair (p : list byte * list byte) :
  len (fst p) + len (snd p) <= len (encodePair p).
Proof.
  unfold encodePair. rewrite !len_app.
  pose proof (encodeLength_nonempty (len (fst p))).
  pose proof (encodeLength_nonempty (len (snd p))). lia.
Qed.

Lemma encodeParams_bounds (ps : list (list byte * list byte)) :
  len (encodeParams ps) < 2 ^ 31 ->
  Forall (fun p => len (fst p) < 2 ^ 31 /\ len (snd p) < 2 ^ 31) ps.
Proof.
  induction ps as [|p ps IH]; intros H; [constructor|].
  change (encodeParams (p :: ps)) with (encodePair p ++ encodeParams ps) in H.
  rewrite len_app in H.
  pose proof (len_encodePair p). pose proof (len_nonneg (encodeParams ps)).
  pose proof (len_nonneg (fst p)). pose proof (len_nonneg (snd p)).
  constructor; [split; lia|apply IH; lia].
Qed.

(** A Params record with well-formed content is a continuing turn that
    touches nothing but the input and the console. *)
Lemma turn_params (args : Args) (t : gmap Z bool) (w : world) (record : FCGIRecord)
    (ps : list (list byte * list byte)) (post : list byte) (rest : list (list byte)) :
  decoded record ->
  RType record = FCGIParams ->
  ContentData record = encodeParams ps ->
  conn_in w = push (wire record ++ post) rest ->
  exists w',
    turn args t w record t w' /\
    conn_in w' = push post rest /\ conn_out w' = conn_out w /\
    conn_room w' = conn_room w.
Proof.
  intros Hd Ht Hc Hin.
  pose proof (readRecord_wire record w post rest Hd Hin) as HR.
  pose proof (decoded_len _ Hd) as Hlen.
  assert (Hps : Forall (fun p => len (fst p) < 2 ^ 31 /\ len (snd p) < 2 ^ 31) ps).
  { apply encodeParams_bounds. rewrite <- Hc.
    destruct Hd as (_ & _ & _ & Hcl & Hb & _). rewrite <- Hcl. pow2. lia. }
  destruct (parseParams_loop_decodes record Hlen ps [] (S (length (ContentData record)))
              (add_log (set_in w (push post rest)) (greeting record)) Hc Hps
              ltac:(rewrite Hc; lia))
    as (w1 & HP & (Q1 & Q2 & Q3 & _) & _).
  exists (add_log w1 LogReceivedParams). split; [|repeat split; assumption].
  exists (set_in w (push post rest)). split; [exact HR|].
  unfold handleRecord. rewrite handleRecord_greeting.
  rewrite Ht. change (FCGIParams =? FCGIBeginRequest) with false.
  change (FCGIParams =? FCGIParams) with true. cbn iota.
  unfold parseParams. change (len (@nil byte)) with 0 in HP.
  rewrite (bind_Done _ _ _ _ _ HP). rewrite bind_log. reflexivity.
Qed.

Lemma readRecord_eof (w : world) :
  conn_in w = [] -> readRecord w = (Done (Err (ErrReadingHeader EOF)), w).
Proof.
  intros Hin. unfold readRecord. cbn zeta. rewrite bind_lift.
  change (make 8) with (Done (replicate 8 x00)). cbn beta iota.
  rewrite (bind_Done _ _ _ _ _ (readFull_eof (replicate 8 x00) w Hin ltac:(discriminate))).
  reflexivity.
Qed.

(** X23. A whole request in one segment is served. When the peer sends a
    BeginRequest for the Responder role, a Params record whose content is
    a sequence of encoded name-value pairs and a Stdin record, all for
    one request id, then [handleConnection] returns with the connection
    closed and exactly one response for that id written, and nothing
    else. With bit 0 of the flags set it stops there and leaves what
    follows on the input unread; with the bit clear it goes on reading,
    and when nothing follows it ends on the end of input. *)
Theorem request_served (args : Args) (requestID : Z) (flags : byte)
    (ps : list (list byte * list byte)) (content post : list byte) :
  sendable args ->
  0 <= requestID <= 65535 ->
  len (encodeParams ps) <= 65535 ->
  len content <= 65535 ->
  Z.testbit (b2z flags) 0 = true \/ post = [] ->
  let input := wire (beginRecord requestID flags)
               ++ wire (received FCGIParams requestID (encodeParams ps))
               ++ wire (received FCGIStdin requestID content) ++ post in
  exists wf,
    handleConnection args (connection [input] None) = (Done tt, wf) /\
    conn_out wf = responseWrites args requestID /\
    conn_closed wf = true /\
    conn_in wf = push post [].
Proof.
  intros Hs Hid Hps Hcontent Hcase input.
  set (begin := beginRecord requestID flags).
  set (params := received FCGIParams requestID (encodeParams ps)).
  set (stdin := received FCGIStdin requestID content).
  set (w0 := connection [input] None).
  set (w1 := add_log w0 LogNewConnection).
  assert (Hdb : decoded begin).
  { apply decoded_received; [vm_compute; intuition discriminate|exact Hid|].
    vm_compute. discriminate. }
  assert (Hdp : decoded params).
  { apply decoded_received; [vm_compute; intuition discriminate|exact Hid|exact Hps]. }
  assert (Hds : decoded stdin).
  { apply decoded_received; [vm_compute; intuition discriminate|exact Hid|exact Hcontent]. }
  set (t1 := <[requestID := Z.testbit (b2z flags) 0]> (∅ : gmap Z bool)).
  set (w2 := add_log (add_log (set_in w1 (push (wire params ++ wire stdin ++ post) []))
                              (greeting begin)) LogBeginRequestResponder).
  assert (T1 : turn args ∅ w1 begin t1 w2).
  { exists (set_in w1 (push (wire params ++ wire stdin ++ post) [])). split.
    - apply (readRecord_wire begin w1 _ [] Hdb). reflexivity.
    - apply (handleRecord_begin args ∅ begin _ x00 x01 flags [x00; x00; x00; x00; x00]);
        reflexivity. }
  destruct (turn_params args t1 w2 params ps (wire stdin ++ post) [] Hdp eq_refl eq_refl
              eq_refl) as (w3 & T2 & Hin3 & Hout3 & Hroom3).
  pose proof (readRecord_wire stdin w3 post [] Hds Hin3) as HR3.
  destruct (handleRecord_stdin args t1 stdin (set_in w3 (push post [])) eq_refl Hs Hroom3)
    as (w4 & HS & Hout4 & Hin4 & Hroom4 & _).
  change (RequestID stdin) with requestID in HS, Hout4.
  assert (Hlook : t1 !! requestID = Some (Z.testbit (b2z flags) 0))
    by (unfold t1; apply lookup_insert_eq).
  rewrite Hlook in HS. cbn [default] in HS.
  assert (Hout : conn_out w4 = responseWrites args requestID).
  { rewrite Hout4. cbn [conn_out set_in]. rewrite Hout3. reflexivity. }
  assert (Hreads2 : reads args ∅ w1 [begin; params] t1 w3).
  { eapply reads_cons; [exact T1|]. eapply reads_cons; [exact T2|]. apply reads_nil. }
  destruct (Z.testbit (b2z flags) 0) eqn:Hbit.
  - destruct (handleConnection_break args t1 [begin; params] w0 w3 w4 Hs Hreads2)
      as (wf & HC & Hcl & Hinf & Ho).
    { unfold loopBody. rewrite (bind_Done _ _ _ _ _ HR3). exact HS. }
    exists wf. split; [exact HC|]. split; [congruence|]. split; [exact Hcl|].
    rewrite Hinf, Hin4. reflexivity.
  - destruct Hcase as [Hc|Hpost]; [discriminate|]. subst post.
    assert (T3 : turn args t1 w3 stdin (delete requestID t1) w4).
    { exists (set_in w3 (push [] [])). split; [exact HR3|exact HS]. }
    assert (Hreads3 : reads args ∅ w1 ([begin; params] ++ [stdin])
                            (delete requestID t1) w4).
    { eapply reads_app; [exact Hreads2|]. eapply reads_cons; [exact T3|apply reads_nil]. }
    destruct (handleConnection_break args (delete requestID t1) _ w0 w4
                (add_log w4 (LogReadingRecord (ErrReadingHeader EOF))) Hs Hreads3)
      as (wf & HC & Hcl & Hinf & Ho).
    { unfold loopBody. rewrite (bind_Done _ _ _ _ _ (readRecord_eof w4 Hin4)).
      rewrite bind_log. reflexivity. }
    exists wf. split; [exact HC|]. split; [|split; [exact Hcl|]].
    + rewrite Ho. exact Hout.
    + rewrite Hinf. cbn [conn_in add_log]. exact Hin4.
Qed.

Lemma request_served_witness :
  exists wf,
    handleConnection (smallArgs true)
      (connection [wire (beginRecord 7 x01)
                   ++ wire (received FCGIParams 7
                              (encodeParams [(list_byte_of_string "HOST",
                                              list_byte_of_string "a.example")]))
                   ++ wire (received FCGIStdin 7 []) ++ [xff]] None)
    = (Done tt, wf) /\
    conn_out wf = responseWrites (smallArgs true) 7 /\
    conn_closed wf = true /\
    conn_in wf = [[xff]].
Proof.
  exact (request_served (smallArgs true) 7 x01
           [(list_byte_of_string "HOST", list_byte_of_string "a.example")] [] [xff]
           (sendable_smallArgs true) ltac:(lia) ltac:(vm_compute; discriminate)
           ltac:(vm_compute; discriminate) (or_introl eq_refl)).
Defined.

Lemma int16_shift (z : Z) :
  exists q, Signed.int16 z = z + q * 65536.
Proof.
  unfold Signed.int16. change (2 ^ 15) with 32768. change (2 ^ 16) with 65536.
  exists (- ((z + 32768) / 65536)).
  pose proof (Z.div_mod (z + 32768) 65536 ltac:(lia)). lia.
Qed.

(** X24. The sign of a request id does not reach the wire. [serialize]
    writes the same bytes for a request id and for that id read as an
    [int16], so the signed revision answers a request whose id is 0x8000
    or more with the two id bytes it was sent. *)
Theorem serialize_signedID (r : FCGIRecord) :
  serialize (signedID r) = serialize r /\
  (forall (t id : Z) (c : list byte),
     serialize (literal t (Signed.int16 id) c) = serialize (literal t id c)).
Proof.
  assert (Hhi : forall z, z2b (Z.shiftr (Signed.int16 z) 8) = z2b (Z.shiftr z 8)).
  { intros z. destruct (int16_shift z) as [q ->]. apply z2b_congr.
    rewrite !Z.shiftr_div_pow2 by lia. change (2 ^ 8) with 256.
    replace (z + q * 65536) with (z + (q * 256) * 256) by lia.
    rewrite Z.div_add by lia.
    apply Z.mod_add. lia. }
  assert (Hlo : forall z, z2b (Signed.int16 z) = z2b z).
  { intros z. destruct (int16_shift z) as [q ->]. apply z2b_congr.
    replace (z + q * 65536) with (z + (q * 256) * 256) by lia.
    apply Z.mod_add. lia. }
  split.
  - rewrite !serialize_bytes. unfold signedID. cbn [RType RequestID ContentData].
    rewrite Hhi, Hlo. reflexivity.
  - intros t id c. rewrite !serialize_bytes. unfold literal.
    cbn [RType RequestID ContentData]. rewrite Hhi, Hlo. reflexivity.
Qed.
